(** * tripledoc: the in-memory triple document model

    A shallow embedding of [src/subject.ts], [src/index.ts], [src/store.ts]
    and of the two generations of [document.ts] found in the sources
    (the rdflib-backed one, which returns the saved Subjects, and the N3-backed
    one, which returns a new TripleDocument), followed by the properties of the
    literal codec, of the getters, of the pending buffers and of [save], and
    by those of the heaps the operations make: the Subjects of a Document,
    [fetchDocument], the queries, and what is read after a [save]. *)

From Stdlib Require Import ZArith NArith PArith String Ascii List Bool Lia.
From Stdlib Require Import Decimal DecimalString DecimalPos DecimalN DecimalZ DecimalFacts.
From stdpp Require Import base tactics option list strings.

Import ListNotations.
Local Open Scope string_scope.
Local Open Scope Z_scope.

(* ===================================================================== *)
(** * The JavaScript platform: strings, numbers, dates *)
(* ===================================================================== *)

Module JS.

(** ** Strings

    A JavaScript string is modelled by a [string] of 8-bit characters. *)

Definition strlen (s : string) : Z := Z.of_nat (String.length s).

(** [String.prototype.substring(start, end)]: both indices are clamped to
    [0 .. length] and swapped when [start > end]. *)
Definition substring (s : string) (start finish : Z) : string :=
  let len := strlen s in
  let a := Z.min (Z.max start 0) len in
  let b := Z.min (Z.max finish 0) len in
  let lo := Z.min a b in
  let hi := Z.max a b in
  String.substring (Z.to_nat lo) (Z.to_nat (hi - lo)) s.

(** [String.prototype.slice(start, end)]: a negative index counts from the
    end, and an empty string results when [start >= end]. *)
Definition slice (s : string) (start finish : Z) : string :=
  let len := strlen s in
  let from := if start <? 0 then Z.max (len + start) 0 else Z.min start len in
  let to := if finish <? 0 then Z.max (len + finish) 0 else Z.min finish len in
  String.substring (Z.to_nat from) (Z.to_nat (Z.max (to - from) 0)) s.

(** [String.prototype.indexOf(pattern)]: [-1] when the pattern is absent. *)
Definition indexOf (s pattern : string) : Z :=
  match String.index 0 pattern s with
  | Some i => Z.of_nat i
  | None => -1
  end.

(** A string is falsy exactly when it is empty. *)
Definition truthy (s : string) : bool :=
  match s with EmptyString => false | String _ _ => true end.

(** The ASCII members of the WhiteSpace and LineTerminator productions
    (TAB, LF, VT, FF, CR, SP), which [parseInt] and [parseFloat] skip. *)
Definition isWhiteSpace (c : ascii) : bool :=
  let n := nat_of_ascii c in
  ((9 <=? n)%nat && (n <=? 13)%nat) || (n =? 32)%nat.

Fixpoint trimStart (s : string) : string :=
  match s with
  | String c s' => if isWhiteSpace c then trimStart s' else s
  | EmptyString => EmptyString
  end.

(** The decimal digit a character stands for, as the constructor of
    [Decimal.uint] that prepends it. *)
Definition digitOf (c : ascii) : option (uint -> uint) :=
  match c with
  | "0"%char => Some D0 | "1"%char => Some D1 | "2"%char => Some D2
  | "3"%char => Some D3 | "4"%char => Some D4 | "5"%char => Some D5
  | "6"%char => Some D6 | "7"%char => Some D7 | "8"%char => Some D8
  | "9"%char => Some D9 | _ => None
  end.

Definition isDigit (c : ascii) : bool :=
  match digitOf c with Some _ => true | None => false end.

(** The longest run of decimal digits a string starts with, and what
    follows it. *)
Fixpoint spanDigits (s : string) : uint * string :=
  match s with
  | String c s' =>
      match digitOf c with
      | Some d => let (ds, rest) := spanDigits s' in (d ds, rest)
      | None => (Nil, s)
      end
  | EmptyString => (Nil, EmptyString)
  end.

(** The digits of a number, written out. *)
Definition digitsString (d : uint) : string := NilEmpty.string_of_uint d.

Fixpoint zeros (n : nat) : string :=
  match n with O => EmptyString | S n' => String "0" (zeros n') end.

(** ** Numbers

    A Number is identified with the decimal that its shortest
    representation (the digits [Number::toString] prints) denotes: an
    integer, or [m / 10^p] with [p >= 1] and [m] not a multiple of ten.
    Rounding to binary64 is outside the model, and [-0] is identified with
    [+0] (the two are [===]). *)
Inductive Number : Set :=
| NaN
| Infinity (negative : bool)
| Int (z : Z)
| Dec (negative : bool) (m : positive) (p : positive).

(** The shape the constructors of [Dec] are meant to have. *)
Definition Number_wf (x : Number) : Prop :=
  match x with
  | Dec _ m _ => (Z.pos m) mod 10 <> 0
  | _ => True
  end.

Definition MAX_SAFE_INTEGER : Z := 2 ^ 53 - 1.

Definition isInteger (x : Number) : bool :=
  match x with Int _ => true | _ => false end.

(** [(-1)^neg * mant * 10^exp], put in the shape of [Number]: trailing
    zeros of the mantissa are dropped while the exponent is negative. *)
Fixpoint stripZeros (fuel : nat) (mant : Z) (exp : Z) : Z * Z :=
  match fuel with
  | O => (mant, exp)
  | S fuel' =>
      if (exp <? 0) && (mant mod 10 =? 0)
      then stripZeros fuel' (mant / 10) (exp + 1)
      else (mant, exp)
  end.

Definition ofDecimal (neg : bool) (mant : N) (exp : Z) : Number :=
  match mant with
  | N0 => Int 0
  | Npos _ =>
      let (m, e) := stripZeros (Z.to_nat (- exp)) (Z.of_N mant) exp in
      if 0 <=? e
      then Int ((if neg then -1 else 1) * (m * 10 ^ e))
      else match m, e with
           | Zpos m', Zneg p => Dec neg m' p
           | _, _ => NaN
           end
  end.

(** [k + x] for an integer [k]. *)
Definition addZ (k : Z) (x : Number) : Number :=
  match x with
  | NaN => NaN
  | Infinity b => Infinity b
  | Int z => Int (k + z)
  | Dec neg m p =>
      let num := (if neg then - Z.pos m else Z.pos m) + k * 10 ^ (Z.pos p) in
      match num with
      | Z0 => Int 0
      | Zpos n => Dec false n p
      | Zneg n => Dec true n p
      end
  end.

(** [ToIntegerOrInfinity] on the values the Date setters are given;
    [None] stands for a result that is not finite. *)
Definition toInteger (x : Number) : option Z :=
  match x with
  | NaN => None
  | Infinity _ => None
  | Int z => Some z
  | Dec neg m p =>
      let q := Z.pos m / 10 ^ Z.pos p in Some (if neg then - q else q)
  end.

(** [Number::toString(x)] in radix 10, following the steps of the
    ECMAScript algorithm, where [digits] are the [k] digits of [s] and
    [n] is the position of the decimal point. *)
Definition exponentString (e : Z) : string :=
  (if e <? 0 then "-" else "+") ++ digitsString (N.to_uint (Z.to_N (Z.abs e))).

Definition toStringPositive (digits : string) (n : Z) : string :=
  let k := strlen digits in
  if (k <=? n) && (n <=? 21) then
    digits ++ zeros (Z.to_nat (n - k))
  else if (0 <? n) && (n <=? 21) then
    substring digits 0 n ++ "." ++ substring digits n k
  else if (-6 <? n) && (n <=? 0) then
    "0." ++ zeros (Z.to_nat (- n)) ++ digits
  else if k =? 1 then
    digits ++ "e" ++ exponentString (n - 1)
  else
    substring digits 0 1 ++ "." ++ substring digits 1 k ++ "e" ++ exponentString (n - 1).

(** The digits of a positive integer without its trailing zeros. *)
Definition significantDigits (z : positive) : uint :=
  fst (Decimal.nztail (Pos.to_uint z)).

Definition toString (x : Number) : string :=
  match x with
  | NaN => "NaN"
  | Infinity neg => if neg then "-Infinity" else "Infinity"
  | Int Z0 => "0"
  | Int (Zpos z) =>
      toStringPositive (digitsString (significantDigits z))
                       (Z.of_nat (nb_digits (Pos.to_uint z)))
  | Int (Zneg z) =>
      "-" ++ toStringPositive (digitsString (significantDigits z))
                              (Z.of_nat (nb_digits (Pos.to_uint z)))
  | Dec neg m p =>
      (if neg then "-" else "") ++
      toStringPositive (digitsString (Pos.to_uint m))
                       (Z.of_nat (nb_digits (Pos.to_uint m)) - Z.pos p)
  end.

(** An optional sign: whether it is [-], and what follows it. *)
Definition sign (s : string) : bool * string :=
  match s with
  | String c r =>
      if Ascii.eqb c "-" then (true, r)
      else if Ascii.eqb c "+" then (false, r)
      else (false, s)
  | EmptyString => (false, s)
  end.

(** [parseInt(string, 10)]: leading white space is skipped, a sign is
    read, then the longest run of digits; [NaN] when that run is empty. *)
Definition parseInt (s : string) : Number :=
  let (neg, s2) := sign (trimStart s) in
  let (ds, _) := spanDigits s2 in
  match ds with
  | Nil => NaN
  | _ => Int ((if neg then -1 else 1) * Z.of_N (N.of_uint ds))
  end.

(** The exponent part of a StrDecimalLiteral, when the string starts with
    one: [e] or [E], an optional sign, at least one digit. *)
Definition exponentPart (s : string) : Z :=
  match s with
  | String c r =>
      if (Ascii.eqb c "e" || Ascii.eqb c "E")%bool then
        let (eneg, r') := sign r in
        let (es, _) := spanDigits r' in
        match es with
        | Nil => 0
        | _ => (if eneg then -1 else 1) * Z.of_N (N.of_uint es)
        end
      else 0
  | EmptyString => 0
  end.

(** The longest prefix that is a StrUnsignedDecimalLiteral: [Infinity],
    or digits with an optional fraction and an optional exponent. *)
Definition parseUnsigned (neg : bool) (s2 : string) : Number :=
  if String.prefix "Infinity" s2 then Infinity neg
  else
    let (ip, r1) := spanDigits s2 in
    let (fp, r2) :=
      match r1 with
      | String "." r => spanDigits r
      | _ => (Nil, r1)
      end in
    match ip, fp with
    | Nil, Nil => NaN
    | _, _ =>
        ofDecimal neg (N.of_uint (Decimal.app ip fp))
                  (exponentPart r2 - Z.of_nat (nb_digits fp))
    end.

(** [parseFloat(string)]: the longest prefix of the trimmed string that is
    a StrDecimalLiteral; [NaN] when there is none. *)
Definition parseFloat (s : string) : Number :=
  let (neg, s2) := sign (trimStart s) in parseUnsigned neg s2.

(** ** Dates

    A Date holds a time value: a number of milliseconds since the epoch,
    or NaN (an invalid Date), here [None]. The functions below are the
    abstract operations of the ECMAScript specification, on integers. *)

Definition msPerSecond : Z := 1000.
Definition msPerMinute : Z := 60000.
Definition msPerHour : Z := 3600000.
Definition msPerDay : Z := 86400000.

Definition Day (t : Z) : Z := t / msPerDay.
Definition TimeWithinDay (t : Z) : Z := t mod msPerDay.

Definition DaysInYear (y : Z) : Z :=
  if negb (y mod 4 =? 0) then 365
  else if negb (y mod 100 =? 0) then 366
  else if negb (y mod 400 =? 0) then 365
  else 366.

Definition DayFromYear (y : Z) : Z :=
  365 * (y - 1970) + (y - 1969) / 4 - (y - 1901) / 100 + (y - 1601) / 400.

Definition TimeFromYear (y : Z) : Z := msPerDay * DayFromYear y.

(** The largest [y] with [TimeFromYear y <= t]: an estimate from the mean
    length of a year, corrected by at most one year. *)
Definition YearFromTime (t : Z) : Z :=
  let d := Day t in
  let y := 1970 + (d * 400) / 146097 in
  if d <? DayFromYear y then y - 1
  else if DayFromYear (y + 1) <=? d then y + 1
  else y.

Definition InLeapYear (t : Z) : Z :=
  if DaysInYear (YearFromTime t) =? 365 then 0 else 1.

Definition DayWithinYear (t : Z) : Z := Day t - DayFromYear (YearFromTime t).

(** The day of the year on which month [m] (0 to 11) starts. *)
Definition monthStart (m : Z) (leap : Z) : Z :=
  match m with
  | 0 => 0 | 1 => 31 | 2 => 59 + leap | 3 => 90 + leap | 4 => 120 + leap
  | 5 => 151 + leap | 6 => 181 + leap | 7 => 212 + leap | 8 => 243 + leap
  | 9 => 273 + leap | 10 => 304 + leap | _ => 334 + leap
  end.

Definition MonthFromTime (t : Z) : Z :=
  let d := DayWithinYear t in
  let leap := InLeapYear t in
  if d <? 31 then 0
  else if d <? 59 + leap then 1
  else if d <? 90 + leap then 2
  else if d <? 120 + leap then 3
  else if d <? 151 + leap then 4
  else if d <? 181 + leap then 5
  else if d <? 212 + leap then 6
  else if d <? 243 + leap then 7
  else if d <? 273 + leap then 8
  else if d <? 304 + leap then 9
  else if d <? 334 + leap then 10
  else 11.

Definition DateFromTime (t : Z) : Z :=
  DayWithinYear t - monthStart (MonthFromTime t) (InLeapYear t) + 1.

Definition HourFromTime (t : Z) : Z := (t / msPerHour) mod 24.
Definition MinFromTime (t : Z) : Z := (t / msPerMinute) mod 60.
Definition SecFromTime (t : Z) : Z := (t / msPerSecond) mod 60.
Definition msFromTime (t : Z) : Z := t mod msPerSecond.

Definition MakeTime (hour min sec ms : Z) : Z :=
  hour * msPerHour + min * msPerMinute + sec * msPerSecond + ms.

Definition MakeDay (year month date : Z) : Z :=
  let ym := year + month / 12 in
  let mn := month mod 12 in
  let leap := if DaysInYear ym =? 365 then 0 else 1 in
  DayFromYear ym + monthStart mn leap + date - 1.

Definition MakeDate (day time : Z) : Z := day * msPerDay + time.

Definition Date : Set := option Z.

Definition TimeClip (t : Z) : Date :=
  if Z.abs t <=? 8640000000000000 then Some t else None.

(** [new Date(value)] for a number of milliseconds. *)
Definition newDate (value : Z) : Date := TimeClip value.

Definition getter (f : Z -> Z) (d : Date) : Number :=
  match d with Some t => Int (f t) | None => NaN end.

Definition getUTCFullYear : Date -> Number := getter YearFromTime.
Definition getUTCMonth : Date -> Number := getter MonthFromTime.
Definition getUTCDate : Date -> Number := getter DateFromTime.
Definition getUTCHours : Date -> Number := getter HourFromTime.
Definition getUTCMinutes : Date -> Number := getter MinFromTime.
Definition getUTCSeconds : Date -> Number := getter SecFromTime.

(** [setUTCFullYear] starts from [+0] when the Date is invalid; the other
    setters leave an invalid Date invalid. *)
Definition setUTCFullYear (d : Date) (year : Number) : Date :=
  let t := match d with Some t => t | None => 0 end in
  match toInteger year with
  | Some y =>
      TimeClip (MakeDate (MakeDay y (MonthFromTime t) (DateFromTime t))
                         (TimeWithinDay t))
  | None => None
  end.

Definition setter (f : Z -> Z -> Z) (d : Date) (x : Number) : Date :=
  match d, toInteger x with
  | Some t, Some v => TimeClip (f t v)
  | _, _ => None
  end.

Definition setUTCMonth : Date -> Number -> Date :=
  setter (fun t m =>
    MakeDate (MakeDay (YearFromTime t) m (DateFromTime t)) (TimeWithinDay t)).

Definition setUTCDate : Date -> Number -> Date :=
  setter (fun t dt =>
    MakeDate (MakeDay (YearFromTime t) (MonthFromTime t) dt) (TimeWithinDay t)).

Definition setUTCHours : Date -> Number -> Date :=
  setter (fun t h =>
    MakeDate (Day t) (MakeTime h (MinFromTime t) (SecFromTime t) (msFromTime t))).

Definition setUTCMinutes : Date -> Number -> Date :=
  setter (fun t m =>
    MakeDate (Day t) (MakeTime (HourFromTime t) m (SecFromTime t) (msFromTime t))).

Definition setUTCSeconds : Date -> Number -> Date :=
  setter (fun t s =>
    MakeDate (Day t) (MakeTime (HourFromTime t) (MinFromTime t) s (msFromTime t))).

End JS.

Local Open Scope list_scope.

(* ===================================================================== *)
(** * RDF terms and statements *)
(* ===================================================================== *)

(** [index.ts]: a Reference is the IRI of a node, as a string. *)
Definition Reference : Set := string.
Definition NodeRef : Set := Reference.

Module XSD.
Definition string : Reference := "http://www.w3.org/2001/XMLSchema#string".
Definition integer : Reference := "http://www.w3.org/2001/XMLSchema#integer".
Definition decimal : Reference := "http://www.w3.org/2001/XMLSchema#decimal".
Definition dateTime : Reference := "http://www.w3.org/2001/XMLSchema#dateTime".
End XSD.

Module rdf.
Definition type : Reference := "http://www.w3.org/1999/02/22-rdf-syntax-ns#type".
End rdf.

(** A Literal term: its lexical form, its language tag (empty when it has
    none) and the IRI of its datatype. *)
Record Literal : Set := mkLiteral {
  value : string;
  lang : string;
  datatype : Reference
}.

Inductive Term : Set :=
| NamedNode (uri : Reference)
| BlankNode (id : string)
| LiteralTerm (l : Literal).

(** A Statement (a Quad in N3): subject, predicate, object, and the graph
    it belongs to, which is the Document. *)
Record Quad : Set := st {
  subject : Term;
  predicate : Term;
  object : Term;
  graph : Term
}.
Definition Statement : Set := Quad.

Definition sym (uri : Reference) : Term := NamedNode uri.

(** [Term.equals] and [Quad.equals]: same term type and same components. *)
Definition Term_equals (a b : Term) : bool :=
  match a, b with
  | NamedNode x, NamedNode y => String.eqb x y
  | BlankNode x, BlankNode y => String.eqb x y
  | LiteralTerm l, LiteralTerm m =>
      String.eqb (value l) (value m) && String.eqb (lang l) (lang m)
      && String.eqb (datatype l) (datatype m)
  | _, _ => false
  end.

Definition Quad_equals (q1 q2 : Quad) : bool :=
  Term_equals (subject q1) (subject q2)
  && Term_equals (predicate q1) (predicate q2)
  && Term_equals (object q1) (object q2)
  && Term_equals (graph q1) (graph q2).

(** What the query helpers hand out for the object of a Statement: the IRI
    itself (a string) for a named node, the term for the others. *)
Inductive Entity : Set :=
| RefEntity (ref : Reference)
| LiteralEntity (l : Literal)
| BlankNodeEntity (id : string).

Definition entityOf (t : Term) : Entity :=
  match t with
  | NamedNode uri => RefEntity uri
  | BlankNode id => BlankNodeEntity id
  | LiteralTerm l => LiteralEntity l
  end.

(** [index.ts], [isLiteral]: an object whose [termType] is ['Literal']. *)
Definition isLiteral (param : Entity) : bool :=
  match param with LiteralEntity _ => true | _ => false end.

(** [index.ts], [isReference]: a string that is not a Literal. *)
Definition isReference (value : Entity) : bool :=
  match value with RefEntity _ => negb (isLiteral value) | _ => false end.
Definition isNodeRef : Entity -> bool := isReference.

(** [index.ts], [isBlankNode]. *)
Definition isBlankNode (param : Entity) : bool :=
  match param with BlankNodeEntity _ => true | _ => false end.



(** [Array.prototype.find]. *)
Fixpoint find_ {A : Type} (f : A -> bool) (l : list A) : option A :=
  match l with
  | [] => None
  | x :: l' => if f x then Some x else find_ f l'
  end.

(** [Array.prototype.findIndex]: [-1] when no element satisfies [f]. *)
Fixpoint findIndexFrom {A : Type} (f : A -> bool) (l : list A) (i : Z) : Z :=
  match l with
  | [] => -1
  | x :: l' => if f x then i else findIndexFrom f l' (i + 1)
  end.
Definition findIndex {A : Type} (f : A -> bool) (l : list A) : Z :=
  findIndexFrom f l 0.

(** Modelled from the spec: [findObjectsInStore] of [getEntities.ts], which
    is not among the sources. "All statements matching subject, predicate,
    and context; preserves source order", each giving its object. *)
Definition matches (subjectRef predicateRef documentRef : Reference) (q : Quad) : bool :=
  Term_equals (subject q) (sym subjectRef)
  && Term_equals (predicate q) (sym predicateRef)
  && Term_equals (graph q) (sym documentRef).

Definition findObjectsInStore (store : list Quad)
    (subjectRef predicateRef documentRef : Reference) : list Entity :=
  map (fun q => entityOf (object q))
      (List.filter (matches subjectRef predicateRef documentRef) store).

(* ===================================================================== *)
(** * The literal codec ([subject.ts]) *)
(* ===================================================================== *)

(** [index.ts], [LiteralTypes = string | number | Date]. *)
Inductive LiteralTypes : Set :=
| LString (s : string)
| LNumber (x : JS.Number)
| LDate (d : JS.Date).

(** [new Literal(value, undefined, undefined)] of rdflib: no language, and
    the default datatype, [xsd:string]. *)
Definition newLiteral (v : string) : Literal := mkLiteral v "" XSD.string.

(** Modelled from the spec: [Literal.fromDate] of rdflib, which the
    repository imports. "timestamp: format using the same fixed UTC
    layout", [YYYY-MM-DDTHH:MM:SSZ]; the year is written with the digits it
    has, every other field with two. *)
Definition d2 (x : JS.Number) : string :=
  JS.slice (JS.toString (JS.addZ 100 x)) 1 3.

Definition Literal_fromDate (v : JS.Date) : Literal :=
  mkLiteral
    (JS.toString (JS.getUTCFullYear v) +:+ "-" +:+
     d2 (JS.addZ 1 (JS.getUTCMonth v)) +:+ "-" +:+
     d2 (JS.getUTCDate v) +:+ "T" +:+
     d2 (JS.getUTCHours v) +:+ ":" +:+
     d2 (JS.getUTCMinutes v) +:+ ":" +:+
     d2 (JS.getUTCSeconds v) +:+ "Z")
    "" XSD.dateTime.

(** Modelled from the spec: [Literal.fromNumber] of rdflib. "integer value:
    lexical = decimal string, datatype=integer; non-integer number: lexical
    = decimal string, datatype=decimal". *)
Definition Literal_fromNumber (v : JS.Number) : Literal :=
  mkLiteral (JS.toString v) ""
            (if JS.isInteger v then XSD.integer else XSD.decimal).

(** [subject.ts], [fromLiteral]. *)
Definition fromLiteral (literal : Literal) : LiteralTypes :=
  if String.eqb (datatype literal) "http://www.w3.org/2001/XMLSchema#dateTime" then
    let utcFullYear := JS.parseInt (JS.substring (value literal) 0 4) in
    let utcMonth := JS.addZ (-1) (JS.parseInt (JS.substring (value literal) 5 7)) in
    let utcDate := JS.parseInt (JS.substring (value literal) 8 10) in
    let utcHours := JS.parseInt (JS.substring (value literal) 11 13) in
    let utcMinutes := JS.parseInt (JS.substring (value literal) 14 16) in
    let utcSeconds :=
      JS.parseInt (JS.substring (value literal) 17 (JS.indexOf (value literal) "Z")) in
    let date := JS.newDate 0 in
    let date := JS.setUTCFullYear date utcFullYear in
    let date := JS.setUTCMonth date utcMonth in
    let date := JS.setUTCDate date utcDate in
    let date := JS.setUTCHours date utcHours in
    let date := JS.setUTCMinutes date utcMinutes in
    let date := JS.setUTCSeconds date utcSeconds in
    LDate date
  else if String.eqb (datatype literal) "http://www.w3.org/2001/XMLSchema#integer" then
    LNumber (JS.parseInt (value literal))
  else if String.eqb (datatype literal) "http://www.w3.org/2001/XMLSchema#decimal" then
    LNumber (JS.parseFloat (value literal))
  else
    LString (value literal).

(** [subject.ts], [asLiteral]. *)
Definition asLiteral (literal : LiteralTypes) : Literal :=
  match literal with
  | LDate d => Literal_fromDate d
  | LNumber x => Literal_fromNumber x
  | LString s => newLiteral s
  end.

(* ===================================================================== *)
(** * The heap: the store, and the Document and Subject objects *)
(* ===================================================================== *)

(** Objects are closures over mutable variables; they are kept in a heap
    and named by their address, so that two names of one object see each
    other's writes. *)
Definition Addr : Set := nat.

(** [document.ts], [DocumentMetadata]: every field is optional. *)
Record DocumentMetadata : Set := mkMetadata {
  aclRef : option Reference;
  webSocketRef : option Reference;
  existsOnPod : option bool
}.

(** The variables a TripleSubject closes over ([initialiseSubject]). *)
Record TripleSubject : Set := mkSubject {
  document : Addr;
  subjectRef : Reference;
  pendingAdditions : list Quad;
  pendingDeletions : list Quad
}.

(** The variables a TripleDocument closes over ([instantiateDocument]).
    [accessedSubjects] keeps its keys in the order they were added, the
    order of [Object.values]. The rdflib-backed generation has no [triples]
    of its own (its statements are in the store): the field is empty there. *)
Record TripleDocument : Set := mkDocument {
  documentRef : Reference;
  triples : list Quad;
  metadata : Addr;
  accessedSubjects : list (Reference * Addr)
}.

Record Heap : Set := mkHeap {
  store : list Quad;                       (* [store.ts]: the one rdflib graph *)
  metadatas : list DocumentMetadata;
  documents : list TripleDocument;
  subjects : list TripleSubject
}.

Definition emptyHeap : Heap := mkHeap [] [] [] [].

(** Reading through an address. An address that names no object reads as
    an object with nothing in it; no operation below produces one. *)
Definition theMetadata (h : Heap) (a : Addr) : DocumentMetadata :=
  default (mkMetadata None None None) (metadatas h !! a).
Definition theDocument (h : Heap) (a : Addr) : TripleDocument :=
  default (mkDocument "" [] 0%nat []) (documents h !! a).
Definition theSubject (h : Heap) (a : Addr) : TripleSubject :=
  default (mkSubject 0%nat "" [] []) (subjects h !! a).

Definition setMetadata (a : Addr) (m : DocumentMetadata) (h : Heap) : Heap :=
  mkHeap (store h) (<[a := m]> (metadatas h)) (documents h) (subjects h).
Definition setDocument (a : Addr) (d : TripleDocument) (h : Heap) : Heap :=
  mkHeap (store h) (metadatas h) (<[a := d]> (documents h)) (subjects h).
Definition setSubject (a : Addr) (s : TripleSubject) (h : Heap) : Heap :=
  mkHeap (store h) (metadatas h) (documents h) (<[a := s]> (subjects h)).

Definition allocMetadata (m : DocumentMetadata) (h : Heap) : Addr * Heap :=
  (length (metadatas h),
   mkHeap (store h) (metadatas h ++ [m]) (documents h) (subjects h)).
Definition allocDocument (d : TripleDocument) (h : Heap) : Addr * Heap :=
  (length (documents h),
   mkHeap (store h) (metadatas h) (documents h ++ [d]) (subjects h)).
Definition allocSubject (s : TripleSubject) (h : Heap) : Addr * Heap :=
  (length (subjects h),
   mkHeap (store h) (metadatas h) (documents h) (subjects h ++ [s])).

(** The assignments [metadata.aclRef = ...], [metadata.webSocketRef = ...]
    and [metadata.existsOnPod = ...] on the object at an address. *)
Definition assignAclRef (a : Addr) (r : option Reference) (h : Heap) : Heap :=
  let m := theMetadata h a in
  setMetadata a (mkMetadata r (webSocketRef m) (existsOnPod m)) h.
Definition assignWebSocketRef (a : Addr) (r : option Reference) (h : Heap) : Heap :=
  let m := theMetadata h a in
  setMetadata a (mkMetadata (aclRef m) r (existsOnPod m)) h.
Definition assignExistsOnPod (a : Addr) (b : bool) (h : Heap) : Heap :=
  let m := theMetadata h a in
  setMetadata a (mkMetadata (aclRef m) (webSocketRef m) (Some b)) h.

(** A value that is [undefined], [null] or the empty string is falsy. *)
Definition truthyRef (r : option Reference) : bool :=
  match r with Some s => JS.truthy s | None => false end.
Definition truthyBool (b : option bool) : bool :=
  match b with Some b => b | None => false end.

(** [asRef], alias [asNodeRef], of a Document. *)
Definition asRef (h : Heap) (d : Addr) : Reference := documentRef (theDocument h d).
Definition asNodeRef_document : Heap -> Addr -> Reference := asRef.

(** [getAclRef] and [getWebSocketRef]: [metadata.aclRef || null]. *)
Definition getAclRef (h : Heap) (d : Addr) : option Reference :=
  let r := aclRef (theMetadata h (metadata (theDocument h d))) in
  if truthyRef r then r else None.
Definition getWebSocketRef (h : Heap) (d : Addr) : option Reference :=
  let r := webSocketRef (theMetadata h (metadata (theDocument h d))) in
  if truthyRef r then r else None.

(** [getTriples], alias [getStatements], of a Document. *)
Definition getTriples (h : Heap) (d : Addr) : list Quad := triples (theDocument h d).

(* ===================================================================== *)
(** * Subjects ([subject.ts]) *)
(* ===================================================================== *)

(** [initialiseSubject]: a new Subject with empty pending buffers. *)
Definition initialiseSubject (document : Addr) (subjectRef : NodeRef) (h : Heap)
    : Addr * Heap :=
  allocSubject (mkSubject document subjectRef [] []) h.

Definition getDocument (h : Heap) (s : Addr) : Addr := document (theSubject h s).
Definition asNodeRef (h : Heap) (s : Addr) : NodeRef := subjectRef (theSubject h s).

Definition get (h : Heap) (s : Addr) (predicateNode : NodeRef) : list Entity :=
  findObjectsInStore (store h) (subjectRef (theSubject h s)) predicateNode
                     (asRef h (document (theSubject h s))).

Definition getLiteral (h : Heap) (s : Addr) (predicateNode : NodeRef)
    : option LiteralTypes :=
  let objects := get h s predicateNode in
  match find_ isLiteral objects with
  | Some (LiteralEntity firstLiteral) => Some (fromLiteral firstLiteral)
  | _ => None
  end.

Definition literalsOf (objects : list Entity) : list Literal :=
  omap (fun o => match o with LiteralEntity l => Some l | _ => None end) objects.

Definition getAllLiterals (h : Heap) (s : Addr) (predicateNode : NodeRef)
    : list LiteralTypes :=
  let objects := get h s predicateNode in
  let literals := literalsOf (List.filter isLiteral objects) in
  map fromLiteral literals.

Definition refsOf (objects : list Entity) : list NodeRef :=
  omap (fun o => match o with RefEntity r => Some r | _ => None end) objects.

Definition getNodeRef (h : Heap) (s : Addr) (predicateNode : NodeRef)
    : option NodeRef :=
  let objects := get h s predicateNode in
  match find_ isNodeRef objects with
  | Some (RefEntity firstNodeRef) => Some firstNodeRef
  | _ => None
  end.

Definition getAllNodeRefs (h : Heap) (s : Addr) (predicateNode : NodeRef)
    : list NodeRef :=
  let objects := get h s predicateNode in
  refsOf (List.filter isNodeRef objects).

Definition getType (h : Heap) (s : Addr) : option NodeRef :=
  getNodeRef h s rdf.type.

(** [getStatements]: [store.statementsMatching(subject, null, null, document)]. *)
Definition getStatements (h : Heap) (s : Addr) : list Quad :=
  List.filter
    (fun q => Term_equals (subject q) (sym (subjectRef (theSubject h s)))
              && Term_equals (graph q) (sym (asRef h (document (theSubject h s)))))
    (store h).

Definition pushAddition (s : Addr) (q : Quad) (h : Heap) : Heap :=
  let subj := theSubject h s in
  setSubject s (mkSubject (document subj) (subjectRef subj)
                          (pendingAdditions subj ++ [q]) (pendingDeletions subj)) h.

Definition addLiteral (s : Addr) (predicateRef : NodeRef) (literal : LiteralTypes)
    (h : Heap) : Heap :=
  let subj := theSubject h s in
  pushAddition s
    (st (sym (subjectRef subj)) (sym predicateRef) (LiteralTerm (asLiteral literal))
        (sym (asRef h (document subj)))) h.

Definition addNodeRef (s : Addr) (predicateRef : NodeRef) (nodeRef : NodeRef)
    (h : Heap) : Heap :=
  let subj := theSubject h s in
  pushAddition s
    (st (sym (subjectRef subj)) (sym predicateRef) (sym nodeRef)
        (sym (asRef h (document subj)))) h.

(** Modelled from the spec: [removeLiteral] and [removeNodeRef], which the
    tests of [subject.ts] call and its sources here do not have. "Construct
    the exact statement that would represent that value and append it to
    pendingDeletions; does not verify the statement currently exists". *)
Definition pushDeletion (s : Addr) (q : Quad) (h : Heap) : Heap :=
  let subj := theSubject h s in
  setSubject s (mkSubject (document subj) (subjectRef subj)
                          (pendingAdditions subj) (pendingDeletions subj ++ [q])) h.

Definition removeLiteral (s : Addr) (predicateRef : NodeRef) (literal : LiteralTypes)
    (h : Heap) : Heap :=
  let subj := theSubject h s in
  pushDeletion s
    (st (sym (subjectRef subj)) (sym predicateRef) (LiteralTerm (asLiteral literal))
        (sym (asRef h (document subj)))) h.

Definition removeNodeRef (s : Addr) (predicateRef : NodeRef) (nodeRef : NodeRef)
    (h : Heap) : Heap :=
  let subj := theSubject h s in
  pushDeletion s
    (st (sym (subjectRef subj)) (sym predicateRef) (sym nodeRef)
        (sym (asRef h (document subj)))) h.

(** [getPendingStatements] (later [getPendingTriples]): deletions first. *)
Definition getPendingStatements (h : Heap) (s : Addr) : list Quad * list Quad :=
  (pendingDeletions (theSubject h s), pendingAdditions (theSubject h s)).
Definition getPendingTriples : Heap -> Addr -> list Quad * list Quad :=
  getPendingStatements.

Definition onSave (s : Addr) (h : Heap) : Heap :=
  let subj := theSubject h s in
  setSubject s (mkSubject (document subj) (subjectRef subj) [] []) h.

(** What the transport reports when it fails. *)
Definition Error : Set := string.

(** The part of a [Response] the Documents read. *)
Record Response : Set := mkResponse {
  headers_Link : option string;
  headers_Updates_Via : option string;
  text : string
}.

(** [accessedSubjects[subjectRef]]. *)
Fixpoint lookupSubject (subjectRef : Reference) (l : list (Reference * Addr))
    : option Addr :=
  match l with
  | [] => None
  | (k, a) :: l' => if String.eqb k subjectRef then Some a else lookupSubject subjectRef l'
  end.

(** [getSubject], the same in both generations of [document.ts]: the
    Subject is created on first access and remembered. *)
Definition getSubject (d : Addr) (subjectRef : Reference) (h : Heap) : Addr * Heap :=
  match lookupSubject subjectRef (accessedSubjects (theDocument h d)) with
  | Some s => (s, h)
  | None =>
      let (s, h1) := initialiseSubject d subjectRef h in
      let doc := theDocument h1 d in
      (s, setDocument d (mkDocument (documentRef doc) (triples doc) (metadata doc)
                                    (accessedSubjects doc ++ [(subjectRef, s)])) h1)
  end.

(** [addSubject], with the identifier the caller gives or the generator
    produced. *)
Definition addSubject (d : Addr) (identifierPrefix identifier : string) (h : Heap)
    : Addr * Heap :=
  getSubject d (asRef h d +:+ "#" +:+ identifierPrefix +:+ identifier) h.

(** [generateIdentifier], for the time [Date.now()] gives and the number
    [Math.random()] gives: the digits of the first, then what the second
    prints after its first two characters ([substring('0.'.length)] runs
    to the end of the string). *)
Definition generateIdentifier (now : Z) (random : JS.Number) : string :=
  JS.toString (JS.Int now)
  +:+ JS.substring (JS.toString random) (JS.strlen "0.")
                   (JS.strlen (JS.toString random)).

(** [subjectRefs.map(getSubject)], in [findSubjects]: the Subject of each
    Reference, one after the other. *)
Fixpoint getSubjects (d : Addr) (subjectRefs : list Reference) (h : Heap)
    : list Addr * Heap :=
  match subjectRefs with
  | [] => ([], h)
  | subjectRef :: rest =>
      let (s, h1) := getSubject d subjectRef h in
      let (found, h2) := getSubjects d rest h1 in
      (s :: found, h2)
  end.

(** The reduction in [save] that gathers the pending statements of the
    Subjects, deletions first, in the order of the Subjects. *)
Definition gatherPending (h : Heap) (relevantSubjects : list Addr)
    : list Quad * list Quad :=
  fold_left
    (fun (soFar : list Quad * list Quad) subject =>
       let (deletionsSoFar, additionsSoFar) := soFar in
       let (deletions, additions) := getPendingStatements h subject in
       (deletionsSoFar ++ deletions, additionsSoFar ++ additions))
    relevantSubjects ([], []).

(** The filter in [save] that keeps the Subjects of this Document. *)
Definition relevant (h : Heap) (documentRef : Reference) (subjects : list Addr)
    : list Addr :=
  List.filter (fun subject => String.eqb (asRef h (getDocument h subject)) documentRef)
              subjects.

(** [Object.values(accessedSubjects)], the default for [subjects]. *)
Definition subjectsOrAll (h : Heap) (d : Addr) (subjects : option (list Addr))
    : list Addr :=
  match subjects with
  | Some l => l
  | None => map snd (accessedSubjects (theDocument h d))
  end.

(* ===================================================================== *)
(** * URLs *)
(* ===================================================================== *)

(** [new URL(uri)] for an absolute URL written in normal form,
    [scheme://host/path?query#fragment]: credentials, default ports and the
    normalisation of the host and of the path are outside the model. A
    string without a scheme is not a URL ([None]: the constructor throws). *)
Module URL.

Record t : Set := mk {
  origin : string;
  pathname : string;
  search : string;
  hash : string
}.

(** The part of [s] before the first [c], and the part after it when [c]
    occurs. *)
Fixpoint splitAt (c : ascii) (s : string) : string * option string :=
  match s with
  | EmptyString => (EmptyString, None)
  | String a s' =>
      if Ascii.eqb a c then (EmptyString, Some s')
      else let (before, after) := splitAt c s' in (String a before, after)
  end.

Definition component (mark : string) (part : option string) : string :=
  match part with
  | Some (String a p) => mark +:+ String a p
  | _ => ""
  end.

Definition parse (uri : string) : option t :=
  let (beforeHash, fragment) := splitAt "#" uri in
  let (beforeQuery, query) := splitAt "?" beforeHash in
  match splitAt ":" beforeQuery with
  | (scheme, Some (String "/" (String "/" rest))) =>
      let (authority, path) := splitAt "/" rest in
      Some (mk (scheme +:+ "://" +:+ authority)
               (match path with Some p => "/" +:+ p | None => "/" end)
               (component "?" query) (component "#" fragment))
  | (scheme, Some rest) =>
      Some (mk "null" rest (component "?" query) (component "#" fragment))
  | (_, None) => None
  end.

End URL.

(** "Remove fragment identifiers (e.g. [#me]) from the URI":
    [docUrl.origin + docUrl.pathname + docUrl.search]. *)
Definition withoutFragment (docUrl : URL.t) : Reference :=
  URL.origin docUrl +:+ URL.pathname docUrl +:+ URL.search docUrl.

(* ===================================================================== *)
(** * Documents backed by the rdflib store ([document.ts], first generation) *)
(* ===================================================================== *)

Module StoreDocument.

(** What the Document calls outside this repository: the two writes of
    [store.ts], which reach the Pod through rdflib and may change its store,
    the parser of [Link] headers, which gives the targets of the links with
    [rel="acl"], and [new URL(uri, base).href]. *)
Record Collaborators : Type := {
  create : list Quad -> Reference -> list Quad -> (Error + Response) * list Quad;
  update : list Quad -> list Quad -> list Quad -> (Error + unit) * list Quad;
  LinkHeader_rel_acl : string -> list string;
  URL_href : string -> Reference -> Reference
}.

Definition withStore (store' : list Quad) (h : Heap) : Heap :=
  mkHeap store' (metadatas h) (documents h) (subjects h).

Definition extractAclRef (env : Collaborators) (response : Response)
    (documentRef : NodeRef) : option NodeRef :=
  match headers_Link response with
  | Some linkHeader =>
      if JS.truthy linkHeader then
        match LinkHeader_rel_acl env linkHeader with
        | [uri] => Some (URL_href env uri documentRef)
        | _ => None
        end
      else None
  | None => None
  end.

(** [instantiateDocument]: the fragment is removed here. [metadata] is the
    address of the object the caller made. *)
Definition instantiateDocument (uri : NodeRef) (metadata : Addr) (h : Heap)
    : option (Addr * Heap) :=
  match URL.parse uri with
  | Some docUrl =>
      Some (allocDocument (mkDocument (withoutFragment docUrl) [] metadata []) h)
  | None => None
  end.

Definition createDocument (ref : NodeRef) (h : Heap) : option (Addr * Heap) :=
  let (metadata, h1) := allocMetadata (mkMetadata None None (Some false)) h in
  instantiateDocument ref metadata h1.

(** [save]: one write, then [onSave] on every relevant Subject; a failed
    write rejects before that. The result is the Subjects persisted. *)
Definition save (env : Collaborators) (d : Addr) (subjects : option (list Addr))
    (h : Heap) : Heap * (Error + list Addr) :=
  let doc := theDocument h d in
  let relevantSubjects := relevant h (documentRef doc) (subjectsOrAll h d subjects) in
  let (allDeletions, allAdditions) := gatherPending h relevantSubjects in
  let written : Heap * option Error :=
    if negb (truthyBool (existsOnPod (theMetadata h (metadata doc)))) then
      match create env (store h) (documentRef doc) allAdditions with
      | (inl e, store') => (withStore store' h, Some e)
      | (inr response, store') =>
          let h1 := withStore store' h in
          let aclRef := extractAclRef env response (documentRef doc) in
          let h2 :=
            if truthyRef aclRef then assignAclRef (metadata doc) aclRef h1 else h1 in
          (assignExistsOnPod (metadata doc) true h2, None)
      end
    else
      match update env (store h) allDeletions allAdditions with
      | (inl e, store') => (withStore store' h, Some e)
      | (inr _, store') => (withStore store' h, None)
      end in
  match written with
  | (h', Some e) => (h', inl e)
  | (h', None) =>
      (fold_left (fun h subject => onSave subject h) relevantSubjects h',
       inr relevantSubjects)
  end.

(** [fetchDocument]: [fetcher.load] reads the Document into the store, and
    may fail; the Document is then made for the Reference as it was given
    ([instantiateDocument] removes the fragment), and is known to exist.
    [None] stands for the [TypeError] of [new URL]. *)
Definition fetchDocument (load : list Quad -> NodeRef -> (Error + Response) * list Quad)
    (env : Collaborators) (documentRef : NodeRef) (h : Heap)
    : Heap * option (Error + Addr) :=
  match load (store h) documentRef with
  | (inl e, store') => (withStore store' h, Some (inl e))
  | (inr response, store') =>
      let aclRef := extractAclRef env response documentRef in
      let (metadata, h1) :=
        allocMetadata (mkMetadata aclRef None (Some true)) (withStore store' h) in
      match instantiateDocument documentRef metadata h1 with
      | Some (d, h2) => (h2, Some (inr d))
      | None => (h1, None)
      end
  end.

(** The queries of [getEntities.ts] that a Document runs on the store:
    the entities found for two known References and a Document. *)
Definition FindEntitiesInStore : Type :=
  list Quad -> NodeRef -> NodeRef -> NodeRef -> list Entity.

Definition withDocumentPlural (getEntitiesFromStore : FindEntitiesInStore)
    (document : NodeRef) (h : Heap) : NodeRef -> NodeRef -> list Entity :=
  fun knownEntity1 knownEntity2 =>
    getEntitiesFromStore (store h) knownEntity1 knownEntity2 document.

(** [findSubjects]: the Subjects of the References among what the query
    finds. *)
Definition findSubjects (findSubjectsInStore : FindEntitiesInStore) (d : Addr)
    (predicateRef objectRef : NodeRef) (h : Heap) : list Addr * Heap :=
  let findSubjectRefs := withDocumentPlural findSubjectsInStore (asRef h d) h in
  let subjectRefs := findSubjectRefs predicateRef objectRef in
  getSubjects d (refsOf (List.filter isNodeRef subjectRefs)) h.

Definition getSubjectsOfType (findSubjectsInStore : FindEntitiesInStore) (d : Addr)
    (typeRef : NodeRef) (h : Heap) : list Addr * Heap :=
  findSubjects findSubjectsInStore d rdf.type typeRef h.

End StoreDocument.

(* ===================================================================== *)
(** * Documents with their own triples ([document.ts], N3 generation) *)
(* ===================================================================== *)

Module Document.

(** What the Document calls outside this file: the three requests of
    [store.ts], the Turtle parser, the parser of [Link] headers ([None] when
    the module is not loaded, as in the UMD build), and
    [new URL(uri, base).href]. *)
Record Collaborators : Type := {
  get : Reference -> Error + Response;
  create : Reference -> list Quad -> Error + Response;
  update : Reference -> list Quad -> list Quad -> Error + unit;
  turtleToTriples : string -> Reference -> Error + list Quad;
  LinkHeader : option (string -> list string);
  URL_href : string -> Reference -> Reference
}.

Definition extractAclRef (env : Collaborators) (response : Response)
    (documentRef : Reference) : option Reference :=
  match headers_Link response, LinkHeader env with
  | Some linkHeader, Some rel_acl =>
      if JS.truthy linkHeader then
        match rel_acl linkHeader with
        | [uri] => Some (URL_href env uri documentRef)
        | _ => None
        end
      else None
  | _, _ => None
  end.

(** [instantiateDocument]: [documentRef] is used as it is given.
    [metadata] is the address of the caller's object, not a copy of it. *)
Definition instantiateDocument (documentRef : Reference) (triples : list Quad)
    (metadata : Addr) (h : Heap) : Addr * Heap :=
  allocDocument (mkDocument documentRef triples metadata []) h.

Definition createDocument (ref : Reference) (h : Heap) : Addr * Heap :=
  let (metadata, h1) := allocMetadata (mkMetadata None None (Some false)) h in
  instantiateDocument ref [] metadata h1.

(** [fetchDocument]: the fragment is removed here, before the request.
    [None] stands for the [TypeError] of [new URL]. *)
Definition fetchDocument (env : Collaborators) (uri : Reference) (h : Heap)
    : option (Heap * (Error + Addr)) :=
  match URL.parse uri with
  | None => None
  | Some docUrl =>
      let documentRef := withoutFragment docUrl in
      Some
        match get env documentRef with
        | inl e => (h, inl e)
        | inr response =>
            match turtleToTriples env (text response) documentRef with
            | inl e => (h, inl e)
            | inr triples =>
                let aclRef := extractAclRef env response documentRef in
                let webSocketRef := headers_Updates_Via response in
                let (metadata, h1) :=
                  allocMetadata
                    (mkMetadata aclRef
                                (if truthyRef webSocketRef then webSocketRef else None)
                                (Some true)) h in
                let (d, h2) := instantiateDocument documentRef triples metadata h1 in
                (h2, inr d)
            end
        end
  end.

(** The new triples [save] computes: the old ones and the additions, less
    every one that equals some deletion. *)
Definition newTriples (triples allDeletions allAdditions : list Quad) : list Quad :=
  List.filter
    (fun tripleToDelete =>
       findIndex (fun triple => Quad_equals triple tripleToDelete) allDeletions =? -1)
    (triples ++ allAdditions).

(** [save]: one write; a failed write rejects. The result is a new
    Document, made with the new triples and with the same [metadata] object. *)
Definition save (env : Collaborators) (d : Addr) (subjects : option (list Addr))
    (h : Heap) : Heap * (Error + Addr) :=
  let doc := theDocument h d in
  let relevantSubjects := relevant h (documentRef doc) (subjectsOrAll h d subjects) in
  let (allDeletions, allAdditions) := gatherPending h relevantSubjects in
  let newTriples := newTriples (triples doc) allDeletions allAdditions in
  if negb (truthyBool (existsOnPod (theMetadata h (metadata doc)))) then
    match create env (documentRef doc) allAdditions with
    | inl e => (h, inl e)
    | inr response =>
        let aclRef := extractAclRef env response (documentRef doc) in
        let h1 :=
          if truthyRef aclRef then assignAclRef (metadata doc) aclRef h else h in
        let webSocketRef := headers_Updates_Via response in
        let h2 :=
          if truthyRef webSocketRef
          then assignWebSocketRef (metadata doc) webSocketRef h1 else h1 in
        let h3 := assignExistsOnPod (metadata doc) true h2 in
        let (d', h4) := instantiateDocument (documentRef doc) newTriples (metadata doc) h3 in
        (h4, inr d')
    end
  else
    match update env (documentRef doc) allDeletions allAdditions with
    | inl e => (h, inl e)
    | inr _ =>
        let (d', h1) := instantiateDocument (documentRef doc) newTriples (metadata doc) h in
        (h1, inr d')
    end.

(** The queries of [getEntities.ts] that a Document runs on its triples:
    one entity, or none ([null]), and all entities, found for two known
    References and a Document. *)
Definition FindEntityInTriples : Type :=
  list Quad -> Reference -> Reference -> Reference -> option Entity.
Definition FindEntitiesInTriples : Type :=
  list Quad -> Reference -> Reference -> Reference -> list Entity.

Definition withDocumentSingular (getEntityFromTriples : FindEntityInTriples)
    (document : Reference) (triples : list Quad)
    : Reference -> Reference -> option Entity :=
  fun knownEntity1 knownEntity2 =>
    getEntityFromTriples triples knownEntity1 knownEntity2 document.

Definition withDocumentPlural (getEntitiesFromTriples : FindEntitiesInTriples)
    (document : Reference) (triples : list Quad)
    : Reference -> Reference -> list Entity :=
  fun knownEntity1 knownEntity2 =>
    getEntitiesFromTriples triples knownEntity1 knownEntity2 document.

(** Whether what a query found is truthy: [null] and the empty string are
    not, a term (an object) is. *)
Definition truthyEntity (found : option Entity) : bool :=
  match found with
  | None => false
  | Some (RefEntity ref) => JS.truthy ref
  | Some _ => true
  end.

(** [findSubject]: [null] unless the query finds a Reference. *)
Definition findSubject (findSubjectInTriples : FindEntityInTriples) (d : Addr)
    (predicateRef objectRef : Reference) (h : Heap) : option Addr * Heap :=
  let doc := theDocument h d in
  let findSubjectRef :=
    withDocumentSingular findSubjectInTriples (documentRef doc) (triples doc) in
  let subjectRef := findSubjectRef predicateRef objectRef in
  if negb (truthyEntity subjectRef)
     || negb (match subjectRef with Some e => isReference e | None => false end)
  then (None, h)
  else
    match subjectRef with
    | Some (RefEntity ref) => let (s, h') := getSubject d ref h in (Some s, h')
    | _ => (None, h)
    end.

(** [findSubjects]: the Subjects of the References among what the query
    finds. *)
Definition findSubjects (findSubjectsInTriples : FindEntitiesInTriples) (d : Addr)
    (predicateRef objectRef : Reference) (h : Heap) : list Addr * Heap :=
  let doc := theDocument h d in
  let findSubjectRefs :=
    withDocumentPlural findSubjectsInTriples (documentRef doc) (triples doc) in
  let subjectRefs := findSubjectRefs predicateRef objectRef in
  getSubjects d (refsOf (List.filter isReference subjectRefs)) h.

Definition getSubjectsOfType (findSubjectsInTriples : FindEntitiesInTriples) (d : Addr)
    (typeRef : Reference) (h : Heap) : list Addr * Heap :=
  findSubjects findSubjectsInTriples d rdf.type typeRef h.

End Document.

(* ===================================================================== *)
(** * What the specification says [save] computes *)
(* ===================================================================== *)

(** The specification's difference: "a deletion removes at most one
    structurally-equal occurrence, preserving relative order of survivors". *)
Fixpoint removeOne (q : Quad) (l : list Quad) : list Quad :=
  match l with
  | [] => []
  | x :: l' => if Quad_equals q x then l' else x :: removeOne q l'
  end.

Definition minusEach (l deletions : list Quad) : list Quad :=
  fold_left (fun survivors q => removeOne q survivors) deletions l.


Definition startsWithDigit (s : string) : bool :=
  match s with String c _ => JS.isDigit c | EmptyString => false end.



(** Whether a character occurs in a string. *)
Fixpoint occurs (c : ascii) (s : string) : bool :=
  match s with
  | EmptyString => false
  | String a s' => Ascii.eqb a c || occurs c s'
  end.

(** The pending buffers of a Subject, additions first. *)
Definition buffers (h : Heap) (s : Addr) : list Quad * list Quad :=
  (pendingAdditions (theSubject h s), pendingDeletions (theSubject h s)).

(** The deletions and the additions [save] gathers for a Document. *)
Definition allDeletions (h : Heap) (d : Addr) (subjects : option (list Addr)) : list Quad :=
  fst (gatherPending h (relevant h (asRef h d) (subjectsOrAll h d subjects))).
Definition allAdditions (h : Heap) (d : Addr) (subjects : option (list Addr)) : list Quad :=
  snd (gatherPending h (relevant h (asRef h d) (subjectsOrAll h d subjects))).

(** What the getters of a Subject read: the store, the Documents, and the
    Reference and the Document of the Subject. *)
Definition sameReads (h h' : Heap) : Prop :=
  store h' = store h /\ documents h' = documents h /\ metadatas h' = metadatas h
  /\ forall s, subjectRef (theSubject h' s) = subjectRef (theSubject h s)
               /\ document (theSubject h' s) = document (theSubject h s).

(** What a staging call leaves as it was, and what it changes. *)
Definition stagedOnly (s : Addr) (q : Quad) (h h' : Heap) : Prop :=
  (forall s0 p, getLiteral h' s0 p = getLiteral h s0 p)
  /\ (forall s0 p, getAllLiterals h' s0 p = getAllLiterals h s0 p)
  /\ (forall s0 p, getNodeRef h' s0 p = getNodeRef h s0 p)
  /\ (forall s0 p, getAllNodeRefs h' s0 p = getAllNodeRefs h s0 p)
  /\ (forall s0, getType h' s0 = getType h s0)
  /\ (forall s0, getStatements h' s0 = getStatements h s0)
  /\ (forall d, getTriples h' d = getTriples h d)
  /\ store h' = store h
  /\ documents h' = documents h
  /\ metadatas h' = metadatas h
  /\ (forall s0, s0 <> s -> buffers h' s0 = buffers h s0)
  /\ snd (buffers h' s) = snd (buffers h s)
  /\ fst (buffers h' s)
     = if decide (s < length (subjects h))%nat
       then fst (buffers h s) ++ [q] else fst (buffers h s).

(** Whether the Document is known to exist on the Pod. *)
Definition saved (h : Heap) (d : Addr) : bool :=
  truthyBool (existsOnPod (theMetadata h (metadata (theDocument h d)))).

(* ===================================================================== *)
(** * Digits, and the values of the round trip *)
(* ===================================================================== *)

(** The characters of a list of digits. *)
Definition charOf (d : digits) : ascii :=
  match d with
  | DecimalFacts.d0 => "0" | DecimalFacts.d1 => "1" | DecimalFacts.d2 => "2"
  | DecimalFacts.d3 => "3" | DecimalFacts.d4 => "4" | DecimalFacts.d5 => "5"
  | DecimalFacts.d6 => "6" | DecimalFacts.d7 => "7" | DecimalFacts.d8 => "8"
  | DecimalFacts.d9 => "9"
  end%char.

Fixpoint stringOf (l : list digits) : string :=
  match l with
  | [] => EmptyString
  | d :: l' => String (charOf d) (stringOf l')
  end.

(** Whether a string of digits has the expected length, holds no [Z], and
    is read back by [parseInt] as the number it was written from. *)
Definition readsBack (len : nat) (s : string) (x : Z) : bool :=
  (String.length s =? len)%nat
  && negb (occurs "Z" s)
  && match JS.parseInt s with JS.Int z => z =? x | _ => false end.

Definition yearOK (y : Z) : bool := readsBack 4 (JS.toString (JS.Int y)) y.
Definition fieldOK (x : Z) : bool := readsBack 2 (d2 (JS.Int x)) x.

(** The native values the round trip is stated for: every string, the
    safe integers, the numbers that are no integers between [1e-6] and the
    largest safe integer, and the Dates of the years 1000 to 9999. *)
Definition inRange (v : LiteralTypes) : Prop :=
  match v with
  | LString _ => True
  | LNumber (JS.Int z) => Z.abs z <= JS.MAX_SAFE_INTEGER
  | LNumber (JS.Dec neg m p) =>
      JS.Number_wf (JS.Dec neg m p)
      /\ 10 ^ Z.pos p <= Z.pos m * 10 ^ 6
      /\ Z.pos m <= JS.MAX_SAFE_INTEGER * 10 ^ Z.pos p
  | LNumber _ => False
  | LDate (Some t) => 1000 <= JS.YearFromTime t <= 9999
  | LDate None => False
  end.

(** A Date without its milliseconds; any other value as it is. *)
Definition toTheSecond (v : LiteralTypes) : LiteralTypes :=
  match v with
  | LDate (Some t) => LDate (Some (1000 * (t / 1000)))
  | _ => v
  end.

(** A Date that is invalid, or a whole number of seconds within the range
    of the time values. *)
Definition wholeSeconds (d : JS.Date) : Prop :=
  match d with
  | Some t => t mod 1000 = 0 /\ Z.abs t <= 8640000000000000
  | None => True
  end.

(* ===================================================================== *)
(** * The heaps that the operations make *)
(* ===================================================================== *)

(** [accessedSubjects] is a plain object: a key that plain objects inherit
    from [Object.prototype] reads as present before anything is stored
    under it, and the keys that are array indices are enumerated before
    the others. [lookupSubject] and the order of [accessedSubjects] are
    those of the object for the keys that are neither; a key that does not
    start with a digit and is none of the inherited names is one of them. *)
Definition inheritedKeys : list string :=
  [ "constructor"; "hasOwnProperty"; "isPrototypeOf"; "propertyIsEnumerable";
    "toLocaleString"; "toString"; "valueOf"; "__proto__"; "__defineGetter__";
    "__defineSetter__"; "__lookupGetter__"; "__lookupSetter__" ].

Definition ordinaryKey (k : string) : bool :=
  negb (existsb (String.eqb k) inheritedKeys)
  && negb (match k with String c _ => JS.isDigit c | EmptyString => false end).

(** What holds of every heap made by [createDocument], [fetchDocument],
    [getSubject], the staging calls and [save]: a Document has a metadata
    object; the Subjects a Document remembers are Subjects of that
    Document, under their own Reference, each key once; every Subject is
    remembered by its Document; and a pending statement is about its
    Subject, in the graph of the Document of that Subject. *)
Record wellFormed (h : Heap) : Prop := {
  wf_metadata : forall d doc,
    documents h !! d = Some doc -> (metadata doc < length (metadatas h))%nat;
  wf_accessed : forall d doc k a,
    documents h !! d = Some doc -> In (k, a) (accessedSubjects doc) ->
    exists subj, subjects h !! a = Some subj /\ subjectRef subj = k /\ document subj = d;
  wf_keys : forall d doc,
    documents h !! d = Some doc -> NoDup (map fst (accessedSubjects doc));
  wf_subject : forall s subj,
    subjects h !! s = Some subj ->
    exists doc, documents h !! (document subj) = Some doc
                /\ lookupSubject (subjectRef subj) (accessedSubjects doc) = Some s;
  wf_pending : forall s subj q,
    subjects h !! s = Some subj ->
    In q (pendingAdditions subj ++ pendingDeletions subj) ->
    subject q = sym (subjectRef subj) /\ graph q = sym (asRef h (document subj))
}.

(** No Subject has a pending deletion. *)
Definition noDeletions (h : Heap) : Prop :=
  forall s, pendingDeletions (theSubject h s) = [].

(** Whether every character of a string is a decimal digit. *)
Fixpoint allDigits (s : string) : bool :=
  match s with
  | EmptyString => true
  | String c s' => JS.isDigit c && allDigits s'
  end.

(* ===================================================================== *)
(** * Fixtures for the examples *)
(* ===================================================================== *)

Module Fixture.

Definition doc : Reference := "https://x.com/doc".
Definition me : Reference := "https://x.com/doc#me".
Definition name : Reference := "http://xmlns.com/foaf/0.1/name".

(** A transport that accepts every write; the answer to [create] names an
    ACL and a WebSocket. *)
Definition accepting : Document.Collaborators := {|
  Document.get := fun _ => inr (mkResponse None None "");
  Document.create := fun _ _ =>
    inr (mkResponse (Some "<doc.acl>; rel=acl") (Some "wss://x.com/") "");
  Document.update := fun _ _ _ => inr tt;
  Document.turtleToTriples := fun _ _ => inr [];
  Document.LinkHeader := Some (fun _ => ["https://x.com/doc.acl"]);
  Document.URL_href := fun uri _ => uri
|}.

(** A transport that refuses every request. *)
Definition refusing : Document.Collaborators := {|
  Document.get := fun _ => inl "503";
  Document.create := fun _ _ => inl "503";
  Document.update := fun _ _ _ => inl "503";
  Document.turtleToTriples := fun _ _ => inr [];
  Document.LinkHeader := None;
  Document.URL_href := fun uri _ => uri
|}.

(** The same two, for the Documents backed by the store: an accepted write
    leaves in the store what was asked for. *)
Definition acceptingStore : StoreDocument.Collaborators := {|
  StoreDocument.create := fun store _ additions =>
    (inr (mkResponse None None ""), store ++ additions);
  StoreDocument.update := fun store _ additions =>
    (inr tt, store ++ additions);
  StoreDocument.LinkHeader_rel_acl := fun _ => [];
  StoreDocument.URL_href := fun uri _ => uri
|}.

Definition refusingStore : StoreDocument.Collaborators := {|
  StoreDocument.create := fun store _ _ => (inl "503", store);
  StoreDocument.update := fun store _ _ => (inl "503", store);
  StoreDocument.LinkHeader_rel_acl := fun _ => [];
  StoreDocument.URL_href := fun uri _ => uri
|}.

(** [createDocument(doc)], then [getSubject(me)] on it. *)
Definition created : Heap :=
  let (d, h) := Document.createDocument doc emptyHeap in
  snd (getSubject d me h).

(** ... then [addLiteral(name, "a")] on that Subject. *)
Definition staged : Heap := addLiteral 0%nat name (LString "a") created.

(** ... then the Document saved, and, on the Document that returns, the
    same name added once more and removed once. *)
Definition savedOnce : Heap := fst (Document.save accepting 0%nat None staged).
Definition addedAndRemoved : Heap :=
  let (s, h) := getSubject 1%nat me savedOnce in
  removeLiteral s name (LString "a") (addLiteral s name (LString "a") h).


(** The statements of the tests of [subject.ts]: a Subject with a node and
    then a language-tagged Literal, one with a node only, one with a
    Literal of another datatype, and two with Literals that are no numbers. *)
Definition mockDocument : Reference := "https://document.com/".
Definition mockSubjectWithNodeThenLiteral : Reference := "https://subject2.com/".
Definition mockSubjectWithNode : Reference := "https://subject4.com/".
Definition mockSubjectWithBoolean : Reference := "https://subject10.com/".
Definition mockSubjectWithBadInteger : Reference := "https://subject11.com/".
Definition mockSubjectWithBadDecimal : Reference := "https://subject12.com/".
Definition mockPredicate : Reference := "https://mock-predicate.com/".
Definition mockObjectNode : Reference := "https://mock-object.com/".
Definition mockObjectLiteral : Literal :=
  mkLiteral "Arbitrary literal value" "en"
            "http://www.w3.org/1999/02/22-rdf-syntax-ns#langString".
Definition mockObjectBoolean : Literal :=
  mkLiteral "true" "" "http://www.w3.org/2001/XMLSchema#boolean".
Definition mockObjectBadInteger : Literal := mkLiteral "abc" "" XSD.integer.
Definition mockObjectBadDecimal : Literal := mkLiteral "n/a" "" XSD.decimal.

Definition mockStatements : list Quad :=
  [ st (sym mockSubjectWithNodeThenLiteral) (sym mockPredicate) (sym mockObjectNode)
       (sym mockDocument);
    st (sym mockSubjectWithNodeThenLiteral) (sym mockPredicate)
       (LiteralTerm mockObjectLiteral) (sym mockDocument);
    st (sym mockSubjectWithNode) (sym mockPredicate) (sym mockObjectNode)
       (sym mockDocument);
    st (sym mockSubjectWithBoolean) (sym mockPredicate) (LiteralTerm mockObjectBoolean)
       (sym mockDocument);
    st (sym mockSubjectWithBadInteger) (sym mockPredicate)
       (LiteralTerm mockObjectBadInteger) (sym mockDocument);
    st (sym mockSubjectWithBadDecimal) (sym mockPredicate)
       (LiteralTerm mockObjectBadDecimal) (sym mockDocument) ].

(** The store holding these statements, a Document at [mockDocument], and
    the five Subjects, at the addresses 0 to 4. *)
Definition pod : Heap :=
  match StoreDocument.createDocument mockDocument (mkHeap mockStatements [] [] []) with
  | Some (d, h) =>
      fold_left (fun h subjectRef => snd (getSubject d subjectRef h))
                [mockSubjectWithNodeThenLiteral; mockSubjectWithNode;
                 mockSubjectWithBoolean; mockSubjectWithBadInteger;
                 mockSubjectWithBadDecimal] h
  | None => emptyHeap
  end.

(** A Document of each generation at [doc], without any Subject. *)
Definition fresh : Heap := snd (Document.createDocument doc emptyHeap).
Definition freshStore : Heap :=
  match StoreDocument.createDocument doc emptyHeap with
  | Some (_, h) => h
  | None => emptyHeap
  end.

(** ... and, in the first generation, with a name staged on [me]. *)
Definition stagedStore : Heap :=
  addLiteral 0%nat name (LString "a") (snd (getSubject 0%nat me freshStore)).

Definition you : Reference := "https://x.com/doc#you".

(** A query that finds [me], a blank node and [you], and one that finds
    [me]. *)
Definition findsThree : Document.FindEntitiesInTriples :=
  fun _ _ _ _ => [RefEntity me; BlankNodeEntity "b0"; RefEntity you].
Definition findsMe : Document.FindEntityInTriples :=
  fun _ _ _ _ => Some (RefEntity me).

End Fixture.

(* ===================================================================== *)
(** * Structural equality, and reading the heap *)
(* ===================================================================== *)

Lemma Term_equals_eq (a b : Term) : Term_equals a b = true <-> a = b.
Proof.
  destruct a as [x|x|[v l t]], b as [y|y|[v' l' t']]; simpl;
    rewrite ?andb_true_iff, ?String.eqb_eq; split; intros H;
    try discriminate; try congruence.
  - destruct H as [[-> ->] ->]. reflexivity.
  - inversion H. auto.
Qed.

Lemma Quad_equals_eq (q1 q2 : Quad) : Quad_equals q1 q2 = true <-> q1 = q2.
Proof.
  destruct q1, q2. unfold Quad_equals. simpl.
  rewrite !andb_true_iff, !Term_equals_eq. split.
  - intros [[[-> ->] ->] ->]. reflexivity.
  - intros H. inversion H. auto.
Qed.

Lemma Quad_equals_refl (q : Quad) : Quad_equals q q = true.
Proof. apply Quad_equals_eq. reflexivity. Qed.

Lemma findIndexFrom_absent {A : Type} (f : A -> bool) (l : list A) (i : Z) :
  0 <= i -> (findIndexFrom f l i =? -1) = negb (existsb f l).
Proof.
  revert i. induction l as [|x l IH]; intros i Hi; simpl.
  - reflexivity.
  - destruct (f x); simpl.
    + apply Z.eqb_neq. lia.
    + apply IH. lia.
Qed.

Lemma findIndex_absent {A : Type} (f : A -> bool) (l : list A) :
  (findIndex f l =? -1) = negb (existsb f l).
Proof. apply findIndexFrom_absent. lia. Qed.

(** The new triples, read as a set: a triple stays when it equals no
    deletion. *)
Lemma newTriples_filter (triples dels adds : list Quad) :
  Document.newTriples triples dels adds
  = List.filter (fun q => negb (existsb (fun x => Quad_equals x q) dels)) (triples ++ adds).
Proof.
  unfold Document.newTriples. apply List.filter_ext. intros q.
  apply findIndex_absent.
Qed.

Lemma existsb_Quad_equals (q : Quad) (l : list Quad) :
  existsb (fun x => Quad_equals x q) l = true <-> In q l.
Proof.
  rewrite existsb_exists. split.
  - intros [x [Hx He]]. apply Quad_equals_eq in He. subst. exact Hx.
  - intros H. exists q. split; [exact H | apply Quad_equals_refl].
Qed.

Lemma gatherPending_from (h : Heap) (l : list Addr) (ds0 as0 : list Quad) :
  fold_left
    (fun (soFar : list Quad * list Quad) subject =>
       let (deletionsSoFar, additionsSoFar) := soFar in
       let (deletions, additions) := getPendingStatements h subject in
       (deletionsSoFar ++ deletions, additionsSoFar ++ additions))
    l (ds0, as0)
  = (ds0 ++ concat (map (fun s => pendingDeletions (theSubject h s)) l),
     as0 ++ concat (map (fun s => pendingAdditions (theSubject h s)) l)).
Proof.
  revert ds0 as0. induction l as [|s l IH]; intros ds0 as0; simpl.
  - rewrite !app_nil_r. reflexivity.
  - rewrite IH, <- !app_assoc. reflexivity.
Qed.

(** The gathered statements are the buffers of the relevant Subjects, one
    Subject after the other, each in the order of its calls. *)
Lemma gatherPending_concat (h : Heap) (l : list Addr) :
  gatherPending h l
  = (concat (map (fun s => pendingDeletions (theSubject h s)) l),
     concat (map (fun s => pendingAdditions (theSubject h s)) l)).
Proof. unfold gatherPending. rewrite gatherPending_from. reflexivity. Qed.

Lemma theSubject_setSubject (h : Heap) (a b : Addr) (s : TripleSubject) :
  theSubject (setSubject a s h) b
  = if decide (a = b /\ (a < length (subjects h))%nat) then s else theSubject h b.
Proof.
  unfold theSubject, setSubject. simpl.
  destruct (decide (a = b /\ (a < length (subjects h))%nat)) as [[-> Hlt]|Hn].
  - rewrite list_lookup_insert_eq by exact Hlt. reflexivity.
  - destruct (decide (a = b)) as [->|Hne].
    + rewrite list_insert_ge by lia. reflexivity.
    + rewrite list_lookup_insert_ne by exact Hne. reflexivity.
Qed.

Lemma theSubject_dangling (h : Heap) (a : Addr) :
  (length (subjects h) <= a)%nat -> theSubject h a = mkSubject 0%nat "" [] [].
Proof.
  intros H. unfold theSubject. rewrite lookup_ge_None_2 by exact H. reflexivity.
Qed.

(* ===================================================================== *)
(** * [save] of the Documents with their own triples *)
(* ===================================================================== *)

Section SaveFacts.

Variable env : Document.Collaborators.

(** A [save] that succeeds adds one Document to the heap, made of the
    Reference and of the [metadata] object of the Document saved, and
    leaves the store and every Subject as they were. *)
Lemma save_success (d : Addr) (chosen : option (list Addr)) (h h' : Heap) (d' : Addr) :
  Document.save env d chosen h = (h', inr d') ->
  d' = length (documents h)
  /\ documents h' =
       documents h ++
       [mkDocument (asRef h d)
                   (Document.newTriples (getTriples h d) (allDeletions h d chosen)
                                        (allAdditions h d chosen))
                   (metadata (theDocument h d)) []]
  /\ subjects h' = subjects h
  /\ store h' = store h.
Proof.
  unfold Document.save, allDeletions, allAdditions, asRef, getTriples.
  destruct (gatherPending h _) as [dels adds] eqn:Hg. simpl.
  destruct (negb _).
  - destruct (Document.create env _ adds) as [e|response]; [discriminate|].
    unfold Document.instantiateDocument, allocDocument.
    intros H. inversion H; subst; clear H. simpl.
    repeat split;
      repeat (match goal with |- context [if ?b then _ else _] => destruct b end);
      reflexivity.
  - destruct (Document.update env _ dels adds) as [e|[]]; [discriminate|].
    unfold Document.instantiateDocument, allocDocument.
    intros H. inversion H; subst; clear H. simpl. repeat split.
Qed.

(** A [save] whose write fails changes nothing and rejects with the error
    of the transport. *)
Lemma save_failure (d : Addr) (chosen : option (list Addr)) (h h' : Heap) (e : Error) :
  Document.save env d chosen h = (h', inl e) ->
  h' = h
  /\ (if saved h d
      then Document.update env (asRef h d) (allDeletions h d chosen)
                           (allAdditions h d chosen) = inl e
      else Document.create env (asRef h d) (allAdditions h d chosen) = inl e).
Proof.
  unfold Document.save, allDeletions, allAdditions, asRef, saved.
  destruct (gatherPending h _) as [dels adds] eqn:Hg. simpl.
  destruct (truthyBool _); simpl.
  - destruct (Document.update env _ dels adds) as [e'|[]].
    + intros H. inversion H; subst. split; reflexivity.
    + unfold Document.instantiateDocument, allocDocument. discriminate.
  - destruct (Document.create env _ adds) as [e'|response].
    + intros H. inversion H; subst. split; reflexivity.
    + unfold Document.instantiateDocument, allocDocument. discriminate.
Qed.

End SaveFacts.

Lemma filter_sublist {A : Type} (f : A -> bool) (l : list A) :
  sublist (List.filter f l) l.
Proof.
  induction l as [|x l IH]; simpl.
  - constructor.
  - destruct (f x); [apply sublist_skip | apply sublist_cons]; exact IH.
Qed.

Lemma getTriples_new (h h' : Heap) (d' : Addr) (doc : TripleDocument) :
  d' = length (documents h) -> documents h' = documents h ++ [doc] ->
  getTriples h' d' = triples doc.
Proof.
  intros -> Hd. unfold getTriples, theDocument. rewrite Hd.
  rewrite lookup_app_r by lia. rewrite Nat.sub_diag. reflexivity.
Qed.

(** C1, as amended. When [save] succeeds, the statements of the Document
    it returns are the old statements followed by all staged additions,
    without any statement that is structurally equal to a staged deletion:
    a deletion removes every occurrence, and the survivors keep their
    relative order. *)
Theorem save_new_statements (env : Document.Collaborators) (d : Addr)
    (chosen : option (list Addr)) (h h' : Heap) (d' : Addr) :
  Document.save env d chosen h = (h', inr d') ->
  getTriples h' d'
  = List.filter (fun q => negb (existsb (fun x => Quad_equals x q) (allDeletions h d chosen)))
                (getTriples h d ++ allAdditions h d chosen)
  /\ (forall q, In q (getTriples h' d') <->
                In q (getTriples h d ++ allAdditions h d chosen)
                /\ ~ In q (allDeletions h d chosen))
  /\ sublist (getTriples h' d') (getTriples h d ++ allAdditions h d chosen).
Proof.
  intros Hs. destruct (save_success env d chosen h h' d' Hs) as (Hd' & Hdocs & _ & _).
  rewrite (getTriples_new h h' d' _ Hd' Hdocs). simpl.
  rewrite newTriples_filter. split; [reflexivity|]. split.
  - intros q. rewrite filter_In, negb_true_iff. split; intros [H1 H2]; split; auto.
    + intros Hin. apply existsb_Quad_equals in Hin. congruence.
    + destruct (existsb _ _) eqn:E; [|reflexivity].
      apply existsb_Quad_equals in E. contradiction.
  - apply filter_sublist.
Qed.

(** The amended C1 on a Document that holds a name, to which the same
    name is added once more and removed once. *)
Lemma save_new_statements_witness :
  Document.save Fixture.accepting 1%nat None Fixture.addedAndRemoved
  = (fst (Document.save Fixture.accepting 1%nat None Fixture.addedAndRemoved), inr 2%nat)
  /\ getTriples (fst (Document.save Fixture.accepting 1%nat None Fixture.addedAndRemoved)) 2%nat
     = [].
Proof.
  split; [reflexivity|].
  exact (eq_trans
    (proj1 (save_new_statements Fixture.accepting 1%nat None Fixture.addedAndRemoved
                                _ 2%nat eq_refl))
    eq_refl).
Defined.

(** C1, as stated, fails. A Document holds one statement; the same
    statement is added once more and removed once. The difference of the
    specification keeps one of the two occurrences, [save] keeps none. *)
Lemma save_removes_every_occurrence :
  let h := Fixture.addedAndRemoved in
  let old := getTriples h 1%nat in
  let additions := allAdditions h 1%nat None in
  let deletions := allDeletions h 1%nat None in
  let q := st (sym Fixture.me) (sym Fixture.name) (LiteralTerm (newLiteral "a"))
              (sym Fixture.doc) in
  old = [q] /\ additions = [q] /\ deletions = [q]
  /\ snd (Document.save Fixture.accepting 1%nat None h) = inr 2%nat
  /\ getTriples (fst (Document.save Fixture.accepting 1%nat None h)) 2%nat = []
  /\ minusEach (old ++ additions) deletions = [q]
  /\ getTriples (fst (Document.save Fixture.accepting 1%nat None h)) 2%nat
     <> minusEach (old ++ additions) deletions.
Proof.
  cbv zeta. repeat split; try reflexivity. discriminate.
Qed.

(** C4. When the write of a [save] fails (the [create] of a Document not
    yet on the Pod, the [update] of one that is), [save] rejects with the
    error of the transport and the heap is what it was: no buffer of any
    Subject is cleared, no Document is made, the Document saved and its
    metadata are unchanged, so that a later [save] starts from the same
    state and sends the same request. *)
Theorem save_transport_failure (env : Document.Collaborators) (d : Addr)
    (chosen : option (list Addr)) (h : Heap) (e : Error) :
  (if saved h d
   then Document.update env (asRef h d) (allDeletions h d chosen)
                        (allAdditions h d chosen) = inl e
   else Document.create env (asRef h d) (allAdditions h d chosen) = inl e) ->
  Document.save env d chosen h = (h, inl e)
  /\ (forall s, buffers (fst (Document.save env d chosen h)) s = buffers h s)
  /\ documents (fst (Document.save env d chosen h)) = documents h
  /\ metadatas (fst (Document.save env d chosen h)) = metadatas h
  /\ (forall env' chosen',
        Document.save env' d chosen' (fst (Document.save env d chosen h))
        = Document.save env' d chosen' h).
Proof.
  intros Hfail.
  assert (Hsave : Document.save env d chosen h = (h, inl e)).
  { revert Hfail.
    unfold Document.save, allDeletions, allAdditions, asRef, saved.
    destruct (gatherPending h _) as [dels adds] eqn:Hg. simpl.
    destruct (truthyBool _); simpl; intros ->; reflexivity. }
  rewrite Hsave. simpl. repeat split; reflexivity.
Qed.

(** C4 on a Document with a staged addition, against a transport that
    refuses. *)
Lemma save_transport_failure_witness :
  Document.save Fixture.refusing 0%nat None Fixture.staged = (Fixture.staged, inl "503")
  /\ buffers Fixture.staged 0%nat <> ([], []).
Proof.
  split.
  - exact (proj1 (save_transport_failure Fixture.refusing 0%nat None Fixture.staged
                                         "503" eq_refl)).
  - discriminate.
Defined.

(** [save] never writes to a Document that is already in the heap: its
    Reference, its triples and its Subjects stay what they were. *)
Lemma save_keeps_documents (env : Document.Collaborators) (d : Addr)
    (chosen : option (list Addr)) (h : Heap) (d0 : Addr) :
  (d0 < length (documents h))%nat ->
  theDocument (fst (Document.save env d chosen h)) d0 = theDocument h d0.
Proof.
  intros Hlt. destruct (Document.save env d chosen h) as [h' [e|d']] eqn:Hs; simpl.
  - apply save_failure in Hs. destruct Hs as [-> _]. reflexivity.
  - apply save_success in Hs. destruct Hs as (_ & Hdocs & _ & _).
    unfold theDocument. rewrite Hdocs, lookup_app_l by exact Hlt. reflexivity.
Qed.

(** On a Document that is on the Pod, [save] writes to no metadata. *)
Lemma save_saved_keeps_metadata (env : Document.Collaborators) (d : Addr)
    (chosen : option (list Addr)) (h : Heap) :
  saved h d = true -> metadatas (fst (Document.save env d chosen h)) = metadatas h.
Proof.
  unfold saved, Document.save.
  destruct (gatherPending h _) as [dels adds]. intros ->. simpl.
  destruct (Document.update env _ dels adds) as [e|[]]; reflexivity.
Qed.

Lemma theMetadata_setMetadata (h : Heap) (a : Addr) (m : DocumentMetadata) :
  (a < length (metadatas h))%nat -> theMetadata (setMetadata a m h) a = m.
Proof.
  intros Hlt. unfold theMetadata, setMetadata. simpl.
  rewrite list_lookup_insert_eq by exact Hlt. reflexivity.
Qed.

Lemma theMetadata_assign (h : Heap) (a : Addr) :
  (a < length (metadatas h))%nat ->
  (forall r, theMetadata (assignAclRef a r h) a
             = mkMetadata r (webSocketRef (theMetadata h a)) (existsOnPod (theMetadata h a)))
  /\ (forall r, theMetadata (assignWebSocketRef a r h) a
                = mkMetadata (aclRef (theMetadata h a)) r (existsOnPod (theMetadata h a)))
  /\ (forall b, theMetadata (assignExistsOnPod a b h) a
                = mkMetadata (aclRef (theMetadata h a)) (webSocketRef (theMetadata h a))
                             (Some b)).
Proof.
  intros Hlt. unfold assignAclRef, assignWebSocketRef, assignExistsOnPod.
  repeat split; intros; apply theMetadata_setMetadata; exact Hlt.
Qed.

Lemma length_assign (h : Heap) (a : Addr) :
  (forall r, length (metadatas (assignAclRef a r h)) = length (metadatas h))
  /\ (forall r, length (metadatas (assignWebSocketRef a r h)) = length (metadatas h))
  /\ (forall b, length (metadatas (assignExistsOnPod a b h)) = length (metadatas h)).
Proof.
  unfold assignAclRef, assignWebSocketRef, assignExistsOnPod, setMetadata. simpl.
  repeat split; intros; apply length_insert.
Qed.

(** A [save] that creates the Document on the Pod and is answered with an
    [Updates-Via] header writes it where the Document saved reads its
    WebSocket, and marks that Document as saved. *)
Lemma save_create_writes_metadata (env : Document.Collaborators) (d : Addr)
    (chosen : option (list Addr)) (h : Heap) (response : Response) (w : Reference) :
  (d < length (documents h))%nat ->
  (metadata (theDocument h d) < length (metadatas h))%nat ->
  saved h d = false ->
  Document.create env (asRef h d) (allAdditions h d chosen) = inr response ->
  headers_Updates_Via response = Some w -> JS.truthy w = true ->
  getWebSocketRef (fst (Document.save env d chosen h)) d = Some w
  /\ saved (fst (Document.save env d chosen h)) d = true.
Proof.
  intros Hd Hm Hsaved Hcreate Hw Ht.
  pose proof (save_keeps_documents env d chosen h d Hd) as Hdoc.
  unfold getWebSocketRef, saved. rewrite Hdoc. clear Hdoc.
  set (a := metadata (theDocument h d)) in *.
  set (acl := Document.extractAclRef env response (asRef h d)).
  set (h1 := if truthyRef acl then assignAclRef a acl h else h).
  set (h2 := assignWebSocketRef a (Some w) h1).
  set (h3 := assignExistsOnPod a true h2).
  assert (Hsave : metadatas (fst (Document.save env d chosen h)) = metadatas h3).
  { revert Hsaved Hcreate.
    unfold Document.save, allAdditions, asRef, saved.
    destruct (gatherPending h _) as [dels adds]. simpl.
    intros -> ->. simpl. rewrite Hw. simpl. rewrite Ht. reflexivity. }
  assert (H1 : (a < length (metadatas h1))%nat).
  { unfold h1. destruct (truthyRef acl); [|exact Hm].
    rewrite (proj1 (length_assign h a)). exact Hm. }
  assert (H2 : (a < length (metadatas h2))%nat).
  { unfold h2. rewrite (proj1 (proj2 (length_assign h1 a))). exact H1. }
  assert (Hmeta : theMetadata (fst (Document.save env d chosen h)) a = theMetadata h3 a).
  { unfold theMetadata. rewrite Hsave. reflexivity. }
  rewrite Hmeta. unfold h3.
  rewrite (proj2 (proj2 (theMetadata_assign h2 a H2))). unfold h2.
  rewrite (proj1 (proj2 (theMetadata_assign h1 a H1))). simpl.
  rewrite Ht. split; reflexivity.
Qed.

(** C5 fails on the code: a [save] that creates the Document on the Pod
    writes the ACL, the WebSocket and [existsOnPod] into the metadata object
    of the Document it was called on, which the Document it returns shares.
    The triples of the Document saved are not touched. *)
Theorem save_writes_shared_metadata :
  let h := Fixture.staged in
  let h' := fst (Document.save Fixture.accepting 0%nat None h) in
  snd (Document.save Fixture.accepting 0%nat None h) = inr 1%nat
  /\ (getAclRef h 0%nat = None /\ getAclRef h' 0%nat = Some "https://x.com/doc.acl")
  /\ (getWebSocketRef h 0%nat = None /\ getWebSocketRef h' 0%nat = Some "wss://x.com/")
  /\ (saved h 0%nat = false /\ saved h' 0%nat = true)
  /\ metadata (theDocument h' 1%nat) = metadata (theDocument h' 0%nat)
  /\ getTriples h' 0%nat = getTriples h 0%nat.
Proof. cbv zeta. repeat split; reflexivity. Qed.

(* ===================================================================== *)
(** * The Reference of a Document *)
(* ===================================================================== *)

Lemma occurs_append (c : ascii) (s1 s2 : string) :
  occurs c (s1 +:+ s2) = occurs c s1 || occurs c s2.
Proof.
  induction s1 as [|a s1 IH]; simpl; [reflexivity|].
  rewrite IH, orb_assoc. reflexivity.
Qed.

Lemma splitAt_before (c : ascii) (s before : string) (after : option string) :
  URL.splitAt c s = (before, after) -> occurs c before = false.
Proof.
  revert before after. induction s as [|a s IH]; simpl; intros before after H.
  - inversion H. reflexivity.
  - destruct (Ascii.eqb a c) eqn:E.
    + inversion H. reflexivity.
    + destruct (URL.splitAt c s) as [b o]. inversion H; subst. simpl.
      rewrite E. eapply IH. reflexivity.
Qed.

Lemma splitAt_occurs (c c' : ascii) (s before : string) (after : option string) :
  URL.splitAt c' s = (before, after) -> occurs c s = false ->
  occurs c before = false
  /\ match after with Some a => occurs c a = false | None => True end.
Proof.
  revert before after. induction s as [|a s IH]; simpl; intros before after H Hs.
  - inversion H. split; [reflexivity | exact I].
  - apply orb_false_iff in Hs. destruct Hs as [Ha Hs].
    destruct (Ascii.eqb a c').
    + inversion H. split; [reflexivity | exact Hs].
    + destruct (URL.splitAt c' s) as [b o]. inversion H; subst. simpl.
      rewrite Ha. apply IH; [reflexivity | exact Hs].
Qed.

Lemma component_occurs (c : ascii) (mark : string) (part : option string) :
  occurs c mark = false ->
  match part with Some a => occurs c a = false | None => True end ->
  occurs c (URL.component mark part) = false.
Proof.
  intros Hm Hp. destruct part as [[|a p]|]; simpl; try reflexivity.
  rewrite occurs_append, Hm. exact Hp.
Qed.

(** Where the fragment is removed, no [#] is left: the first generation
    of the Documents, and [fetchDocument] in the second. *)
Lemma withoutFragment_no_hash (uri : string) (docUrl : URL.t) :
  URL.parse uri = Some docUrl -> occurs "#" (withoutFragment docUrl) = false.
Proof.
  unfold URL.parse, withoutFragment.
  destruct (URL.splitAt "#" uri) as [beforeHash fragment] eqn:Hh.
  apply splitAt_before in Hh.
  destruct (URL.splitAt "?" beforeHash) as [beforeQuery query] eqn:Hq.
  destruct (splitAt_occurs "#" _ _ _ _ Hq Hh) as [Hbq Hquery].
  destruct (URL.splitAt ":" beforeQuery) as [scheme rest] eqn:Hc.
  destruct (splitAt_occurs "#" _ _ _ _ Hc Hbq) as [Hscheme Hrest].
  assert (Hsearch : occurs "#" (URL.component "?" query) = false)
    by (apply component_occurs; [reflexivity | exact Hquery]).
  destruct rest as [rest|]; [|discriminate].
  assert (Hnull : forall u, Some (URL.mk "null" rest (URL.component "?" query)
                                        (URL.component "#" fragment)) = Some u ->
                            occurs "#" (URL.origin u +:+ URL.pathname u +:+ URL.search u) = false).
  { intros u Hu. inversion Hu; subst. cbn [URL.origin URL.pathname URL.search].
    rewrite !occurs_append, Hrest, Hsearch. reflexivity. }
  destruct rest as [|a1 rest1]; [exact (Hnull docUrl)|].
  destruct (Ascii.eqb a1 "/") eqn:E1;
    [apply Ascii.eqb_eq in E1; subst a1 | ].
  2: { destruct a1 as [[] [] [] [] [] [] [] []]; try exact (Hnull docUrl); discriminate. }
  destruct rest1 as [|a2 rest2]; [exact (Hnull docUrl)|].
  destruct (Ascii.eqb a2 "/") eqn:E2;
    [apply Ascii.eqb_eq in E2; subst a2 | ].
  2: { destruct a2 as [[] [] [] [] [] [] [] []]; try exact (Hnull docUrl); discriminate. }
  simpl in Hrest.
  destruct (URL.splitAt "/" rest2) as [authority path] eqn:Ha.
  destruct (splitAt_occurs "#" _ _ _ _ Ha Hrest) as [Hauth Hpath].
  intros Hu. inversion Hu; subst. cbn [URL.origin URL.pathname URL.search].
  rewrite !occurs_append, Hscheme, Hauth, Hsearch.
  destruct path as [p|]; [rewrite occurs_append, Hpath|]; reflexivity.
Qed.

(** Every Document of the first generation has a Reference without [#]. *)
Lemma StoreDocument_createDocument_no_hash (ref : NodeRef) (h h' : Heap) (d : Addr) :
  StoreDocument.createDocument ref h = Some (d, h') -> occurs "#" (asRef h' d) = false.
Proof.
  unfold StoreDocument.createDocument, StoreDocument.instantiateDocument. simpl.
  destruct (URL.parse ref) as [docUrl|] eqn:Hp; [|discriminate].
  intros H. inversion H; subst. unfold asRef, theDocument. simpl.
  rewrite lookup_app_r by lia. rewrite Nat.sub_diag. simpl.
  exact (withoutFragment_no_hash ref docUrl Hp).
Qed.

(** [createDocument] of the second generation hands the Reference it is
    given to [instantiateDocument], which uses it as it is. *)
Lemma createDocument_asRef (ref : Reference) (h : Heap) :
  asRef (snd (Document.createDocument ref h)) (fst (Document.createDocument ref h)) = ref.
Proof.
  unfold Document.createDocument, Document.instantiateDocument, asRef, theDocument. simpl.
  rewrite lookup_app_r by lia. rewrite Nat.sub_diag. reflexivity.
Qed.

(** C6 fails on the code: [createDocument] of the second generation keeps
    the fragment, where the first generation and [fetchDocument] remove it. *)
Theorem createDocument_keeps_fragment :
  (let (d, h) := Document.createDocument "https://x.com/doc#frag" emptyHeap in
   asRef h d = "https://x.com/doc#frag" /\ occurs "#" (asRef h d) = true)
  /\ (match StoreDocument.createDocument "https://x.com/doc#frag" emptyHeap with
      | Some (d, h) => asRef h d = "https://x.com/doc"
      | None => False
      end)
  /\ (match Document.fetchDocument Fixture.accepting "https://x.com/doc#frag" emptyHeap with
      | Some (h, inr d) => asRef h d = "https://x.com/doc"
      | _ => False
      end).
Proof. repeat split; reflexivity. Qed.

(* ===================================================================== *)
(** * The pending buffers *)
(* ===================================================================== *)

Lemma buffers_onSave (h : Heap) (s s0 : Addr) :
  buffers (onSave s h) s0 = if decide (s = s0) then ([], []) else buffers h s0.
Proof.
  unfold buffers, onSave. rewrite theSubject_setSubject.
  destruct (decide (s = s0)) as [->|Hne].
  - destruct (decide (s0 = s0 /\ (s0 < length (subjects h))%nat)) as [_|Hn].
    + reflexivity.
    + rewrite theSubject_dangling by lia. reflexivity.
  - destruct (decide (s = s0 /\ (s < length (subjects h))%nat)) as [[E _]|_];
      [contradiction | reflexivity].
Qed.

Lemma buffers_fold_onSave (l : list Addr) (h : Heap) (s : Addr) :
  buffers (fold_left (fun h subject => onSave subject h) l h) s
  = if bool_decide (s ∈ l) then ([], []) else buffers h s.
Proof.
  revert h. induction l as [|a l IH]; intros h; simpl.
  - reflexivity.
  - rewrite IH, buffers_onSave.
    destruct (decide (a = s)) as [->|Hne].
    + rewrite (bool_decide_eq_true_2 (s ∈ s :: l)) by (left).
      destruct (bool_decide (s ∈ l)); reflexivity.
    + destruct (bool_decide (s ∈ l)) eqn:E.
      * rewrite bool_decide_eq_true_2; [reflexivity|].
        right. apply bool_decide_eq_true_1 in E. exact E.
      * rewrite bool_decide_eq_false_2; [reflexivity|].
        apply bool_decide_eq_false_1 in E. intros Hin.
        apply elem_of_cons in Hin. destruct Hin as [->|Hin]; [congruence | contradiction].
Qed.

Lemma buffers_same_subjects (h h' : Heap) (s : Addr) :
  subjects h' = subjects h -> buffers h' s = buffers h s.
Proof. intros H. unfold buffers, theSubject. rewrite H. reflexivity. Qed.

(** [save] of the first generation: the buffers of the relevant Subjects
    are emptied when the write succeeds, no buffer changes when it fails. *)
Lemma StoreDocument_save_buffers (env : StoreDocument.Collaborators) (d : Addr)
    (chosen : option (list Addr)) (h : Heap) (s : Addr) :
  buffers (fst (StoreDocument.save env d chosen h)) s
  = match snd (StoreDocument.save env d chosen h) with
    | inr _ =>
        if bool_decide (s ∈ relevant h (asRef h d) (subjectsOrAll h d chosen))
        then ([], []) else buffers h s
    | inl _ => buffers h s
    end.
Proof.
  unfold StoreDocument.save, asRef.
  destruct (gatherPending h _) as [dels adds].
  destruct (negb _).
  - destruct (StoreDocument.create env _ _ adds) as [[e|response] store']; simpl.
    + reflexivity.
    + rewrite buffers_fold_onSave. destruct (bool_decide _); [reflexivity|].
      apply buffers_same_subjects. destruct (truthyRef _); reflexivity.
  - destruct (StoreDocument.update env _ dels adds) as [[e|[]] store']; simpl.
    + reflexivity.
    + rewrite buffers_fold_onSave. destruct (bool_decide _); reflexivity.
Qed.

(** [save] of the first generation reports the relevant Subjects. *)
Lemma StoreDocument_save_result (env : StoreDocument.Collaborators) (d : Addr)
    (chosen : option (list Addr)) (h : Heap) (persisted : list Addr) :
  snd (StoreDocument.save env d chosen h) = inr persisted ->
  persisted = relevant h (asRef h d) (subjectsOrAll h d chosen).
Proof.
  unfold StoreDocument.save, asRef.
  destruct (gatherPending h _) as [dels adds].
  destruct (negb _).
  - destruct (StoreDocument.create env _ _ adds) as [[e|response] store']; simpl;
      congruence.
  - destruct (StoreDocument.update env _ dels adds) as [[e|[]] store']; simpl;
      congruence.
Qed.

(** [save] of the second generation never calls [onSave]: the buffers of
    every Subject are what they were, whether the write succeeds or not. *)
Lemma Document_save_buffers (env : Document.Collaborators) (d : Addr)
    (chosen : option (list Addr)) (h : Heap) (s : Addr) :
  buffers (fst (Document.save env d chosen h)) s = buffers h s.
Proof.
  destruct (Document.save env d chosen h) as [h' [e|d']] eqn:Hs; simpl.
  - apply save_failure in Hs. destruct Hs as [-> _]. reflexivity.
  - apply save_success in Hs. destruct Hs as (_ & _ & Hsubj & _).
    apply buffers_same_subjects. exact Hsubj.
Qed.

(** C2, as amended. The two buffers of a Subject are emptied together, by
    [onSave], which touches no other Subject. The [save] that returns the
    saved Subjects calls it on each relevant Subject after a successful
    write, and on none after a failed one. The [save] that returns a new
    Document never calls it: every buffer is unchanged, whether the write
    succeeds or fails. *)
Theorem buffers_cleared_together :
  (forall h s s0,
      buffers (onSave s h) s0 = if decide (s = s0) then ([], []) else buffers h s0)
  /\ (forall (env : StoreDocument.Collaborators) d chosen h s,
        buffers (fst (StoreDocument.save env d chosen h)) s
        = match snd (StoreDocument.save env d chosen h) with
          | inr _ =>
              if bool_decide (s ∈ relevant h (asRef h d) (subjectsOrAll h d chosen))
              then ([], []) else buffers h s
          | inl _ => buffers h s
          end)
  /\ (forall (env : Document.Collaborators) d chosen h s,
        buffers (fst (Document.save env d chosen h)) s = buffers h s).
Proof.
  split; [exact buffers_onSave|].
  split; [exact StoreDocument_save_buffers | exact Document_save_buffers].
Qed.

(** C2, as stated, fails: the second generation's [save] of a Document
    with a staged addition succeeds and leaves the addition in the buffer. *)
Lemma save_leaves_buffers :
  let q := st (sym Fixture.me) (sym Fixture.name) (LiteralTerm (newLiteral "a"))
              (sym Fixture.doc) in
  snd (Document.save Fixture.accepting 0%nat None Fixture.staged) = inr 1%nat
  /\ subjectsOrAll Fixture.staged 0%nat None = [0%nat]
  /\ buffers Fixture.staged 0%nat = ([q], [])
  /\ buffers (fst (Document.save Fixture.accepting 0%nat None Fixture.staged)) 0%nat
     = ([q], [])
  /\ buffers (fst (Document.save Fixture.accepting 0%nat None Fixture.staged)) 0%nat
     <> ([], []).
Proof. cbv zeta. repeat split; try reflexivity. discriminate. Qed.

(* ===================================================================== *)
(** * Staging *)
(* ===================================================================== *)

Lemma sameReads_get (h h' : Heap) (s : Addr) (p : NodeRef) :
  sameReads h h' -> get h' s p = get h s p.
Proof.
  intros (Hst & Hd & _ & Hs). unfold get, asRef, theDocument.
  destruct (Hs s) as [-> ->]. rewrite Hst, Hd. reflexivity.
Qed.

Lemma sameReads_pushAddition (h : Heap) (s : Addr) (q : Quad) :
  sameReads h (pushAddition s q h).
Proof.
  unfold sameReads, pushAddition. repeat split; try reflexivity;
    rewrite theSubject_setSubject;
    destruct (decide _) as [[-> _]|_]; reflexivity.
Qed.

Lemma buffers_pushAddition (h : Heap) (s s0 : Addr) (q : Quad) :
  buffers (pushAddition s q h) s0
  = if decide (s = s0 /\ (s < length (subjects h))%nat)
    then (fst (buffers h s0) ++ [q], snd (buffers h s0))
    else buffers h s0.
Proof.
  unfold buffers, pushAddition. rewrite theSubject_setSubject.
  destruct (decide _) as [[-> _]|_]; reflexivity.
Qed.

Lemma pushAddition_stagedOnly (h : Heap) (s : Addr) (q : Quad) :
  stagedOnly s q h (pushAddition s q h).
Proof.
  pose proof (sameReads_pushAddition h s q) as Hr.
  pose proof Hr as (Hst & Hd & Hm & Hs).
  unfold stagedOnly, getLiteral, getAllLiterals, getNodeRef, getAllNodeRefs, getType,
    getNodeRef, getStatements, getTriples, asRef, theDocument.
  repeat split; intros;
    rewrite ?(sameReads_get _ _ _ _ Hr), ?Hst, ?Hd, ?Hm; try reflexivity.
  - destruct (Hs s0) as [-> ->]. reflexivity.
  - rewrite buffers_pushAddition.
    destruct (decide _) as [[-> _]|_]; [contradiction | reflexivity].
  - rewrite buffers_pushAddition. destruct (decide _); reflexivity.
  - rewrite buffers_pushAddition.
    destruct (decide (s < length (subjects h))%nat) as [Hlt|Hge].
    + rewrite decide_True by (split; [reflexivity | exact Hlt]). reflexivity.
    + rewrite decide_False by (intros [_ Hlt]; contradiction). reflexivity.
Qed.

(** C10. [addLiteral] and [addNodeRef] append one statement to the pending
    additions of their Subject and change nothing else: every getter of
    every Subject returns what it returned, the statements of every
    Document, the store and the metadata are the same, and so are the
    pending deletions and the buffers of the other Subjects. *)
Theorem staging_is_invisible (h : Heap) (s : Addr) (predicateRef : NodeRef) :
  (forall literal,
      stagedOnly s
        (st (sym (asNodeRef h s)) (sym predicateRef) (LiteralTerm (asLiteral literal))
            (sym (asRef h (getDocument h s))))
        h (addLiteral s predicateRef literal h))
  /\ (forall nodeRef,
        stagedOnly s
          (st (sym (asNodeRef h s)) (sym predicateRef) (sym nodeRef)
              (sym (asRef h (getDocument h s))))
          h (addNodeRef s predicateRef nodeRef h)).
Proof. split; intros; apply pushAddition_stagedOnly. Qed.

(* ===================================================================== *)
(** * The getters *)
(* ===================================================================== *)

Lemma find_isLiteral_first (pre post : list Entity) (l : Literal) :
  Forall (fun o => isLiteral o = false) pre ->
  find_ isLiteral (pre ++ LiteralEntity l :: post) = Some (LiteralEntity l).
Proof.
  induction 1 as [|o pre Ho _ IH]; simpl.
  - reflexivity.
  - rewrite Ho. exact IH.
Qed.

Lemma find_isLiteral_none (objects : list Entity) :
  Forall (fun o => isLiteral o = false) objects -> find_ isLiteral objects = None.
Proof.
  induction 1 as [|o objects Ho _ IH]; simpl.
  - reflexivity.
  - rewrite Ho. exact IH.
Qed.

Lemma literalsOf_filter (objects : list Entity) :
  literalsOf (List.filter isLiteral objects) = literalsOf objects.
Proof.
  induction objects as [|o objects IH]; [reflexivity|].
  destruct o as [r|l|b]; simpl; try exact IH.
  unfold literalsOf in *. simpl. rewrite IH. reflexivity.
Qed.

Lemma literalsOf_app (pre post : list Entity) :
  literalsOf (pre ++ post) = literalsOf pre ++ literalsOf post.
Proof. apply omap_app. Qed.

(** [get] gives the objects of the matching statements of the store, in
    the order of the store. *)
Lemma get_matching (h : Heap) (s : Addr) (p : NodeRef) :
  get h s p
  = map (fun q => entityOf (object q))
        (List.filter (matches (asNodeRef h s) p (asRef h (getDocument h s))) (store h)).
Proof. reflexivity. Qed.

(** [getLiteral] on objects whose first Literal is [l]. *)
Lemma getLiteral_skips (h : Heap) (s : Addr) (predicateNode : NodeRef)
    (pre post : list Entity) (l : Literal) :
  get h s predicateNode = pre ++ LiteralEntity l :: post ->
  Forall (fun o => isLiteral o = false) pre ->
  getLiteral h s predicateNode = Some (fromLiteral l).
Proof.
  unfold getLiteral. intros -> Hpre.
  rewrite find_isLiteral_first by exact Hpre. reflexivity.
Qed.

(** C7. [getLiteral] returns the decoded value of the first Literal among
    the objects [get] finds, whatever objects that are not Literals stand
    before or after it, and [null] when none of them is a Literal. *)
Theorem getLiteral_first_literal (h : Heap) (s : Addr) (predicateNode : NodeRef) :
  (forall pre l post,
      get h s predicateNode = pre ++ LiteralEntity l :: post ->
      Forall (fun o => isLiteral o = false) pre ->
      getLiteral h s predicateNode = Some (fromLiteral l))
  /\ (Forall (fun o => isLiteral o = false) (get h s predicateNode) ->
      getLiteral h s predicateNode = None).
Proof.
  split.
  - intros pre l post. apply getLiteral_skips.
  - intros Hnone. unfold getLiteral.
    rewrite find_isLiteral_none by exact Hnone. reflexivity.
Qed.

(** C7 on the store of the tests: a node then a Literal gives the Literal,
    a node alone gives [null]. *)
Lemma getLiteral_first_literal_witness :
  getLiteral Fixture.pod 0%nat Fixture.mockPredicate
  = Some (LString "Arbitrary literal value")
  /\ getLiteral Fixture.pod 1%nat Fixture.mockPredicate = None.
Proof.
  split.
  - exact (proj1 (getLiteral_first_literal Fixture.pod 0%nat Fixture.mockPredicate)
                 [RefEntity Fixture.mockObjectNode] Fixture.mockObjectLiteral []
                 eq_refl (List.Forall_cons _ (RefEntity Fixture.mockObjectNode) [] eq_refl (List.Forall_nil _))).
  - exact (proj2 (getLiteral_first_literal Fixture.pod 1%nat Fixture.mockPredicate)
                 (List.Forall_cons _ (RefEntity Fixture.mockObjectNode) [] eq_refl (List.Forall_nil _))).
Defined.

Lemma getAllLiterals_literalsOf (h : Heap) (s : Addr) (p : NodeRef) :
  getAllLiterals h s p = map fromLiteral (literalsOf (get h s p)).
Proof. unfold getAllLiterals. rewrite literalsOf_filter. reflexivity. Qed.

Lemma getAllLiterals_In (h : Heap) (s : Addr) (p : NodeRef)
    (pre post : list Entity) (l : Literal) :
  get h s p = pre ++ LiteralEntity l :: post ->
  In (fromLiteral l) (getAllLiterals h s p).
Proof.
  intros Hget. rewrite getAllLiterals_literalsOf, Hget, literalsOf_app.
  apply in_map, in_or_app. right. left. reflexivity.
Qed.

(** A Literal whose datatype is none of the three that [fromLiteral]
    decodes is read as its lexical form; the language tag is never read. *)
Lemma fromLiteral_other (l : Literal) :
  datatype l <> XSD.dateTime -> datatype l <> XSD.integer -> datatype l <> XSD.decimal ->
  fromLiteral l = LString (value l).
Proof.
  intros H1 H2 H3. unfold fromLiteral.
  apply String.eqb_neq in H1, H2, H3.
  unfold XSD.dateTime, XSD.integer, XSD.decimal in *.
  rewrite H1, H2, H3. reflexivity.
Qed.

Lemma fromLiteral_lang (v lang1 lang2 : string) (dt : Reference) :
  fromLiteral (mkLiteral v lang1 dt) = fromLiteral (mkLiteral v lang2 dt).
Proof. reflexivity. Qed.

(** C8, as amended. A Literal whose datatype is not [integer], [decimal] or
    [dateTime], language-tagged or not, is returned by the getters as a
    string, its lexical form: [getAllLiterals] has it among its results, and
    [getLiteral] returns it when it is the first Literal. *)
Theorem other_datatypes_read_as_strings (h : Heap) (s : Addr) (predicateNode : NodeRef)
    (pre post : list Entity) (l : Literal) :
  get h s predicateNode = pre ++ LiteralEntity l :: post ->
  datatype l <> XSD.dateTime -> datatype l <> XSD.integer -> datatype l <> XSD.decimal ->
  In (LString (value l)) (getAllLiterals h s predicateNode)
  /\ (Forall (fun o => isLiteral o = false) pre ->
      getLiteral h s predicateNode = Some (LString (value l))).
Proof.
  intros Hget H1 H2 H3. rewrite <- (fromLiteral_other l H1 H2 H3). split.
  - exact (getAllLiterals_In h s predicateNode pre post l Hget).
  - exact (getLiteral_skips h s predicateNode pre post l Hget).
Qed.

(** The amended C8 on the language-tagged Literal of the tests. *)
Lemma other_datatypes_read_as_strings_witness :
  In (LString "Arbitrary literal value")
     (getAllLiterals Fixture.pod 0%nat Fixture.mockPredicate)
  /\ getLiteral Fixture.pod 0%nat Fixture.mockPredicate
     = Some (LString "Arbitrary literal value").
Proof.
  pose (H := other_datatypes_read_as_strings Fixture.pod 0%nat Fixture.mockPredicate
               [RefEntity Fixture.mockObjectNode] [] Fixture.mockObjectLiteral eq_refl
               ltac:(discriminate) ltac:(discriminate) ltac:(discriminate)).
  split.
  - exact (proj1 H).
  - exact (proj2 H (List.Forall_cons _ (RefEntity Fixture.mockObjectNode) [] eq_refl (List.Forall_nil _))).
Defined.

(** C8, as stated, fails: the getters return a language-tagged Literal and
    a Literal of datatype [boolean], as the tests of [subject.ts] expect of
    the first. *)
Lemma getters_return_other_datatypes :
  lang Fixture.mockObjectLiteral = "en"
  /\ get Fixture.pod 0%nat Fixture.mockPredicate
     = [RefEntity Fixture.mockObjectNode; LiteralEntity Fixture.mockObjectLiteral]
  /\ getLiteral Fixture.pod 0%nat Fixture.mockPredicate
     = Some (LString "Arbitrary literal value")
  /\ getAllLiterals Fixture.pod 0%nat Fixture.mockPredicate
     = [LString "Arbitrary literal value"]
  /\ datatype Fixture.mockObjectBoolean = "http://www.w3.org/2001/XMLSchema#boolean"
  /\ get Fixture.pod 2%nat Fixture.mockPredicate = [LiteralEntity Fixture.mockObjectBoolean]
  /\ getLiteral Fixture.pod 2%nat Fixture.mockPredicate = Some (LString "true")
  /\ getAllLiterals Fixture.pod 2%nat Fixture.mockPredicate = [LString "true"]
  /\ getLiteral Fixture.pod 0%nat Fixture.mockPredicate <> None
  /\ getAllLiterals Fixture.pod 2%nat Fixture.mockPredicate <> [].
Proof. repeat split; try reflexivity; discriminate. Qed.

(* ===================================================================== *)
(** * Literals that are no numbers *)
(* ===================================================================== *)

Lemma spanDigits_no_digit (s : string) :
  startsWithDigit s = false -> JS.spanDigits s = (Nil, s).
Proof.
  destruct s as [|c r]; simpl; [reflexivity|].
  unfold JS.isDigit. destruct (JS.digitOf c); [discriminate | reflexivity].
Qed.






(* ===================================================================== *)
(** * The literal codec: calendar, digits, round trip *)
(* ===================================================================== *)

Section CodecFacts.

Import JS.

Ltac divlia := Z.to_euclidean_division_equations; lia.

Lemma DayFromYear_step (y : Z) : DayFromYear (y + 1) = DayFromYear y + DaysInYear y.
Proof.
  unfold DayFromYear, DaysInYear.
  destruct (Z.eqb_spec (y mod 4) 0), (Z.eqb_spec (y mod 100) 0),
    (Z.eqb_spec (y mod 400) 0); simpl; divlia.
Qed.

Lemma DayFromYear_lt (y1 y2 : Z) : y1 < y2 -> DayFromYear y1 < DayFromYear y2.
Proof. unfold DayFromYear. intros H. divlia. Qed.

Lemma DayFromYear_le (y1 y2 : Z) : y1 <= y2 -> DayFromYear y1 <= DayFromYear y2.
Proof. unfold DayFromYear. intros H. divlia. Qed.

Lemma YearFromTime_spec (t : Z) :
  DayFromYear (YearFromTime t) <= Day t < DayFromYear (YearFromTime t + 1).
Proof.
  unfold YearFromTime. generalize (Day t) as d. intros d.
  destruct (Z.ltb_spec d (DayFromYear (1970 + d * 400 / 146097))) as [H1|H1].
  - revert H1. unfold DayFromYear. intros H1. divlia.
  - destruct (Z.leb_spec (DayFromYear (1970 + d * 400 / 146097 + 1)) d) as [H2|H2].
    + revert H1 H2. unfold DayFromYear. intros H1 H2. divlia.
    + lia.
Qed.

Lemma YearFromTime_unique (t y : Z) :
  DayFromYear y <= Day t < DayFromYear (y + 1) -> YearFromTime t = y.
Proof.
  intros [Hlo Hhi]. destruct (YearFromTime_spec t) as [Hlo' Hhi'].
  destruct (Z.lt_trichotomy (YearFromTime t) y) as [Hlt|[Heq|Hgt]].
  - pose proof (DayFromYear_le (YearFromTime t + 1) y ltac:(lia)). lia.
  - exact Heq.
  - pose proof (DayFromYear_le (y + 1) (YearFromTime t) ltac:(lia)). lia.
Qed.

Lemma Day_MakeDate (day time : Z) :
  0 <= time < msPerDay ->
  Day (MakeDate day time) = day /\ TimeWithinDay (MakeDate day time) = time.
Proof.
  unfold Day, TimeWithinDay, MakeDate, msPerDay. intros H. split; divlia.
Qed.

Lemma DaysInYear_cases (y : Z) : DaysInYear y = 365 \/ DaysInYear y = 366.
Proof.
  unfold DaysInYear.
  destruct (y mod 4 =? 0), (y mod 100 =? 0), (y mod 400 =? 0); simpl; auto.
Qed.

Lemma InLeapYear_DaysInYear (t : Z) : DaysInYear (YearFromTime t) = 365 + InLeapYear t.
Proof.
  unfold InLeapYear. destruct (DaysInYear_cases (YearFromTime t)) as [H|H]; rewrite H;
    reflexivity.
Qed.

Lemma DayWithinYear_range (t : Z) : 0 <= DayWithinYear t < 365 + InLeapYear t.
Proof.
  unfold DayWithinYear. rewrite <- InLeapYear_DaysInYear.
  pose proof (YearFromTime_spec t) as H. rewrite DayFromYear_step in H. lia.
Qed.

Lemma InLeapYear_cases (t : Z) : InLeapYear t = 0 \/ InLeapYear t = 1.
Proof. unfold InLeapYear. destruct (_ =? _); auto. Qed.

(** The fields of a time value determine its day. *)
Lemma MonthFromTime_range (t : Z) : 0 <= MonthFromTime t <= 11.
Proof.
  unfold MonthFromTime.
  repeat (match goal with |- context [if ?b then _ else _] => destruct b end); lia.
Qed.

Lemma DateFromTime_range (t : Z) : 1 <= DateFromTime t <= 31.
Proof.
  unfold DateFromTime, MonthFromTime.
  pose proof (DayWithinYear_range t). pose proof (InLeapYear_cases t).
  repeat (match goal with
          | |- context [if ?a <? ?b then _ else _] => destruct (Z.ltb_spec a b)
          end); simpl; lia.
Qed.

(** A day of the year that lies in month [m] at day [dt] is read back as
    that month and that day. *)
Lemma MonthFromTime_of (t t' : Z) :
  YearFromTime t' = YearFromTime t ->
  DayWithinYear t' = monthStart (MonthFromTime t) (InLeapYear t) ->
  MonthFromTime t' = MonthFromTime t /\ DateFromTime t' = 1.
Proof.
  intros Hy Hd.
  assert (Hl : InLeapYear t' = InLeapYear t) by (unfold InLeapYear; rewrite Hy; reflexivity).
  pose proof (InLeapYear_cases t) as Hc.
  assert (Hm : MonthFromTime t' = MonthFromTime t).
  { pose proof (MonthFromTime_range t) as Hr.
    unfold MonthFromTime at 1. rewrite Hd, Hl.
    assert (Hcase : MonthFromTime t = 0 \/ MonthFromTime t = 1 \/ MonthFromTime t = 2
              \/ MonthFromTime t = 3 \/ MonthFromTime t = 4 \/ MonthFromTime t = 5
              \/ MonthFromTime t = 6 \/ MonthFromTime t = 7 \/ MonthFromTime t = 8
              \/ MonthFromTime t = 9 \/ MonthFromTime t = 10 \/ MonthFromTime t = 11) by lia.
    repeat (destruct Hcase as [Hcase|Hcase]); rewrite Hcase; simpl;
      repeat (match goal with
              | |- context [if ?a <? ?b then _ else _] => destruct (Z.ltb_spec a b)
              end); lia. }
  split; [exact Hm|].
  unfold DateFromTime. rewrite Hm, Hl, Hd. lia.
Qed.

Lemma MonthFromTime_same_day (t t' : Z) :
  Day t' = Day t -> 
  YearFromTime t' = YearFromTime t /\ MonthFromTime t' = MonthFromTime t
  /\ DateFromTime t' = DateFromTime t.
Proof.
  intros Hd.
  assert (Hy : YearFromTime t' = YearFromTime t) by (unfold YearFromTime; rewrite Hd; reflexivity).
  assert (Hw : DayWithinYear t' = DayWithinYear t) by (unfold DayWithinYear; rewrite Hd, Hy; reflexivity).
  assert (Hl : InLeapYear t' = InLeapYear t) by (unfold InLeapYear; rewrite Hy; reflexivity).
  assert (Hm : MonthFromTime t' = MonthFromTime t) by (unfold MonthFromTime; rewrite Hw, Hl; reflexivity).
  repeat split; auto. unfold DateFromTime. rewrite Hm, Hw, Hl. reflexivity.
Qed.

Lemma TimeClip_ok (t : Z) :
  -8640000000000000 <= t <= 8640000000000000 -> TimeClip t = Some t.
Proof.
  intros H. unfold TimeClip. destruct (Z.leb_spec (Z.abs t) 8640000000000000); [reflexivity|lia].
Qed.

Lemma monthStart_range (m leap : Z) :
  0 <= m <= 11 -> 0 <= leap <= 1 -> 0 <= monthStart m leap < 365 + leap.
Proof.
  intros Hm Hl.
  assert (Hcase : m = 0 \/ m = 1 \/ m = 2 \/ m = 3 \/ m = 4 \/ m = 5 \/ m = 6 \/ m = 7
                  \/ m = 8 \/ m = 9 \/ m = 10 \/ m = 11) by lia.
  repeat (destruct Hcase as [Hcase|Hcase]); subst m; simpl; lia.
Qed.

Lemma MakeDay_in_year (t : Z) (m dt : Z) :
  0 <= m <= 11 ->
  MakeDay (YearFromTime t) m dt
  = DayFromYear (YearFromTime t) + monthStart m (InLeapYear t) + dt - 1.
Proof.
  intros Hm. unfold MakeDay, InLeapYear.
  replace (m / 12) with 0 by divlia. replace (m mod 12) with m by divlia.
  rewrite Z.add_0_r. reflexivity.
Qed.

Lemma time_fields (day h m s : Z) :
  0 <= h < 24 -> 0 <= m < 60 -> 0 <= s < 60 ->
  Day (MakeDate day (MakeTime h m s 0)) = day
  /\ HourFromTime (MakeDate day (MakeTime h m s 0)) = h
  /\ MinFromTime (MakeDate day (MakeTime h m s 0)) = m
  /\ SecFromTime (MakeDate day (MakeTime h m s 0)) = s
  /\ msFromTime (MakeDate day (MakeTime h m s 0)) = 0.
Proof.
  intros Hh Hm Hs.
  unfold Day, HourFromTime, MinFromTime, SecFromTime, msFromTime, MakeDate, MakeTime,
    msPerDay, msPerHour, msPerMinute, msPerSecond.
  repeat split; divlia.
Qed.

(** The days of the years the four-digit layout can hold. *)
Lemma year_days_range (y : Z) :
  1000 <= y <= 9999 -> -354285 <= DayFromYear y /\ DayFromYear (y + 1) <= 2932897.
Proof.
  intros [Hlo Hhi]. split.
  - change (-354285) with (DayFromYear 1000). apply DayFromYear_le. exact Hlo.
  - change 2932897 with (DayFromYear 10000). apply DayFromYear_le. lia.
Qed.

(** Setting the six fields of a time value, one after the other, on the
    Date of the epoch gives the time value back, to the second. *)
Lemma setters_rebuild (t : Z) :
  1000 <= YearFromTime t <= 9999 ->
  setUTCSeconds
    (setUTCMinutes
       (setUTCHours
          (setUTCDate
             (setUTCMonth
                (setUTCFullYear (newDate 0) (Int (YearFromTime t)))
                (Int (MonthFromTime t)))
             (Int (DateFromTime t)))
          (Int (HourFromTime t)))
       (Int (MinFromTime t)))
    (Int (SecFromTime t))
  = Some (1000 * (t / 1000)).
Proof.
  intros Hy.
  pose proof (year_days_range _ Hy) as [Hlo Hhi].
  pose proof (YearFromTime_spec t) as [Hd1 Hd2].
  pose proof (MonthFromTime_range t) as Hm.
  pose proof (DateFromTime_range t) as Hdt.
  pose proof (InLeapYear_cases t) as Hleap.
  pose proof (monthStart_range (MonthFromTime t) (InLeapYear t) Hm ltac:(lia)) as Hms.
  pose proof (InLeapYear_DaysInYear t) as Hdiy.
  pose proof (DayFromYear_step (YearFromTime t)) as Hstep.
  set (y := YearFromTime t) in *.
  (* the year *)
  set (t1 := MakeDate (DayFromYear y) 0).
  assert (H1 : setUTCFullYear (newDate 0) (Int y) = Some t1).
  { change (newDate 0) with (Some 0). unfold setUTCFullYear. simpl toInteger. cbv iota.
    change (MonthFromTime 0) with 0. change (DateFromTime 0) with 1.
    change (TimeWithinDay 0) with 0.
    replace (MakeDay y 0 1) with (DayFromYear y).
    2:{ unfold MakeDay. change (0 / 12) with 0. change (0 mod 12) with 0.
        rewrite (Z.add_0_r y). change (monthStart 0 _) with 0. lia. }
    apply TimeClip_ok. unfold t1, MakeDate, msPerDay. lia. }
  destruct (Day_MakeDate (DayFromYear y) 0 ltac:(unfold msPerDay; lia)) as [HD1 HT1].
  fold t1 in HD1, HT1.
  assert (HY1 : YearFromTime t1 = y) by (apply YearFromTime_unique; rewrite HD1; lia).
  assert (HW1 : DayWithinYear t1 = 0) by (unfold DayWithinYear; rewrite HY1, HD1; lia).
  assert (HM1 : MonthFromTime t1 = 0) by (unfold MonthFromTime; rewrite HW1; reflexivity).
  assert (HDt1 : DateFromTime t1 = 1) by (unfold DateFromTime; rewrite HM1, HW1; reflexivity).
  (* the month *)
  set (t2 := MakeDate (DayFromYear y + monthStart (MonthFromTime t) (InLeapYear t)) 0).
  assert (H2 : setUTCMonth (Some t1) (Int (MonthFromTime t)) = Some t2).
  { unfold setUTCMonth, setter. simpl toInteger. cbv iota beta.
    rewrite HT1, HDt1, HY1. unfold y at 1. rewrite MakeDay_in_year by exact Hm. fold y.
    replace (DayFromYear y + monthStart (MonthFromTime t) (InLeapYear t) + 1 - 1)
      with (DayFromYear y + monthStart (MonthFromTime t) (InLeapYear t)) by lia.
    apply TimeClip_ok. unfold t2, MakeDate, msPerDay. lia. }
  destruct (Day_MakeDate (DayFromYear y + monthStart (MonthFromTime t) (InLeapYear t)) 0
              ltac:(unfold msPerDay; lia)) as [HD2 HT2].
  fold t2 in HD2, HT2.
  assert (HY2 : YearFromTime t2 = y) by (apply YearFromTime_unique; rewrite HD2; lia).
  assert (HW2 : DayWithinYear t2 = monthStart (MonthFromTime t) (InLeapYear t))
    by (unfold DayWithinYear; rewrite HY2, HD2; lia).
  destruct (MonthFromTime_of t t2 HY2 HW2) as [HM2 HDt2].
  (* the day of the month *)
  set (t3 := MakeDate (Day t) 0).
  assert (H3 : setUTCDate (Some t2) (Int (DateFromTime t)) = Some t3).
  { unfold setUTCDate, setter. simpl toInteger. cbv iota beta.
    rewrite HT2, HM2, HY2. unfold y at 1. rewrite MakeDay_in_year by exact Hm. fold y.
    replace (DayFromYear y + monthStart (MonthFromTime t) (InLeapYear t) + DateFromTime t - 1)
      with (Day t) by (unfold DateFromTime, DayWithinYear; fold y; lia).
    apply TimeClip_ok. unfold t3, MakeDate, msPerDay. lia. }
  (* the time of the day *)
  rewrite H1, H2, H3.
  unfold setUTCSeconds, setUTCMinutes, setUTCHours, setter. simpl toInteger. cbv iota beta.
  assert (Hh : 0 <= HourFromTime t < 24) by (unfold HourFromTime; divlia).
  assert (Hmi : 0 <= MinFromTime t < 60) by (unfold MinFromTime; divlia).
  assert (Hs : 0 <= SecFromTime t < 60) by (unfold SecFromTime; divlia).
  assert (Hday : -354285 <= Day t < 2932897) by lia.
  assert (Hclip : forall h m s, 0 <= h < 24 -> 0 <= m < 60 -> 0 <= s < 60 ->
            TimeClip (MakeDate (Day t) (MakeTime h m s 0))
            = Some (MakeDate (Day t) (MakeTime h m s 0))).
  { intros h m s Hh' Hm' Hs'. apply TimeClip_ok.
    unfold MakeDate, MakeTime, msPerDay, msPerHour, msPerMinute, msPerSecond. lia. }
  destruct (time_fields (Day t) 0 0 0 ltac:(lia) ltac:(lia) ltac:(lia))
    as (E1 & _ & E2 & E3 & E4).
  change (MakeDate (Day t) (MakeTime 0 0 0 0)) with t3 in E1, E2, E3, E4.
  rewrite E1, E2, E3, E4, Hclip by lia.
  destruct (time_fields (Day t) (HourFromTime t) 0 0 Hh ltac:(lia) ltac:(lia))
    as (F1 & F2 & _ & F3 & F4).
  rewrite F1, F2, F3, F4, Hclip by lia.
  destruct (time_fields (Day t) (HourFromTime t) (MinFromTime t) 0 Hh Hmi ltac:(lia))
    as (G1 & G2 & G3 & _ & G4).
  rewrite G1, G2, G3, G4, Hclip by lia.
  f_equal.
  unfold MakeDate, MakeTime, Day, HourFromTime, MinFromTime, SecFromTime, msPerDay,
    msPerHour, msPerMinute, msPerSecond. divlia.
Qed.

Lemma years_read_back : forallb yearOK (map Z.of_nat (seq (Z.to_nat 1000) (Z.to_nat 9000))) = true.
Proof. vm_compute. reflexivity. Qed.

Lemma fields_read_back : forallb fieldOK (map Z.of_nat (seq 0 (Z.to_nat 100))) = true.
Proof. vm_compute. reflexivity. Qed.

Lemma readsBack_spec (len : nat) (s : string) (x : Z) :
  readsBack len s x = true ->
  String.length s = len /\ occurs "Z" s = false /\ parseInt s = Int x.
Proof.
  unfold readsBack. rewrite !andb_true_iff, negb_true_iff, Nat.eqb_eq.
  intros [[Hl Hz] Hp]. repeat split; auto.
  destruct (parseInt s); try discriminate. apply Z.eqb_eq in Hp. subst. reflexivity.
Qed.

Lemma year_string (y : Z) :
  1000 <= y <= 9999 ->
  String.length (toString (Int y)) = 4%nat
  /\ occurs "Z" (toString (Int y)) = false
  /\ parseInt (toString (Int y)) = Int y.
Proof.
  intros Hy. apply readsBack_spec.
  pose proof years_read_back as H. rewrite forallb_forall in H. apply H.
  replace y with (Z.of_nat (Z.to_nat y)) by lia. apply in_map, in_seq. lia.
Qed.

Lemma field_string (x : Z) :
  0 <= x <= 99 ->
  String.length (d2 (Int x)) = 2%nat
  /\ occurs "Z" (d2 (Int x)) = false
  /\ parseInt (d2 (Int x)) = Int x.
Proof.
  intros Hx. apply readsBack_spec.
  pose proof fields_read_back as H. rewrite forallb_forall in H. apply H.
  replace x with (Z.of_nat (Z.to_nat x)) by lia. apply in_map, in_seq. lia.
Qed.

Lemma index_skip (c : ascii) (s r : string) :
  occurs c s = false ->
  String.index 0 (String c "") (s +:+ r)
  = match String.index 0 (String c "") r with
    | Some n => Some (String.length s + n)%nat
    | None => None
    end.
Proof.
  induction s as [|a s IH]; intros Hs.
  - change ("" +:+ r) with r. destruct (String.index 0 (String c "") r); reflexivity.
  - simpl in Hs. apply orb_false_iff in Hs. destruct Hs as [Ha Hs].
    change (String a s +:+ r) with (String a (s +:+ r)).
    cbn [String.index String.prefix].
    destruct (ascii_dec c a) as [E|_].
    + subst a. rewrite Ascii.eqb_refl in Ha. discriminate.
    + rewrite (IH Hs). destruct (String.index 0 (String c "") r); reflexivity.
Qed.

Lemma string_of_length_2 (s : string) :
  String.length s = 2%nat -> exists c1 c2, s = String c1 (String c2 "").
Proof.
  destruct s as [|c1 [|c2 [|c3 s]]]; try discriminate. intros _. eauto.
Qed.

Lemma string_of_length_4 (s : string) :
  String.length s = 4%nat ->
  exists c1 c2 c3 c4, s = String c1 (String c2 (String c3 (String c4 ""))).
Proof.
  destruct s as [|c1 [|c2 [|c3 [|c4 [|c5 s]]]]]; try discriminate. intros _. eauto 6.
Qed.

(** The six fields of the layout [YYYY-MM-DDTHH:MM:SSZ], each of the
    width the layout gives it, are found where [fromLiteral] looks. *)
Lemma layout (Y M D H N S : string) :
  String.length Y = 4%nat -> String.length M = 2%nat -> String.length D = 2%nat ->
  String.length H = 2%nat -> String.length N = 2%nat -> String.length S = 2%nat ->
  let L := Y +:+ "-" +:+ M +:+ "-" +:+ D +:+ "T" +:+ H +:+ ":" +:+ N +:+ ":" +:+ S +:+ "Z" in
  substring L 0 4 = Y /\ substring L 5 7 = M /\ substring L 8 10 = D
  /\ substring L 11 13 = H /\ substring L 14 16 = N /\ substring L 17 19 = S.
Proof.
  intros HY HM HD HH HN HS.
  destruct (string_of_length_4 Y HY) as (y1 & y2 & y3 & y4 & ->).
  destruct (string_of_length_2 M HM) as (m1 & m2 & ->).
  destruct (string_of_length_2 D HD) as (d1 & d2 & ->).
  destruct (string_of_length_2 H HH) as (h1 & h2 & ->).
  destruct (string_of_length_2 N HN) as (n1 & n2 & ->).
  destruct (string_of_length_2 S HS) as (s1 & s2 & ->).
  cbv zeta. repeat split; reflexivity.
Qed.

Lemma layout_Z (Y M D H N S : string) :
  String.length Y = 4%nat -> String.length M = 2%nat -> String.length D = 2%nat ->
  String.length H = 2%nat -> String.length N = 2%nat -> String.length S = 2%nat ->
  occurs "Z" Y = false -> occurs "Z" M = false -> occurs "Z" D = false ->
  occurs "Z" H = false -> occurs "Z" N = false -> occurs "Z" S = false ->
  indexOf (Y +:+ "-" +:+ M +:+ "-" +:+ D +:+ "T" +:+ H +:+ ":" +:+ N +:+ ":" +:+ S +:+ "Z")
          "Z" = 19.
Proof.
  intros HY HM HD HH HN HS ZY ZM ZD ZH ZN ZS. unfold indexOf.
  rewrite (index_skip "Z" Y) by exact ZY. rewrite (index_skip "Z" "-") by reflexivity.
  rewrite (index_skip "Z" M) by exact ZM. rewrite (index_skip "Z" "-") by reflexivity.
  rewrite (index_skip "Z" D) by exact ZD. rewrite (index_skip "Z" "T") by reflexivity.
  rewrite (index_skip "Z" H) by exact ZH. rewrite (index_skip "Z" ":") by reflexivity.
  rewrite (index_skip "Z" N) by exact ZN. rewrite (index_skip "Z" ":") by reflexivity.
  rewrite (index_skip "Z" S) by exact ZS.
  rewrite HY, HM, HD, HH, HN, HS. reflexivity.
Qed.

(** A Date whose year has four digits is read back from the Literal it
    is written to, without its milliseconds. *)
Lemma fromLiteral_fromDate (t : Z) :
  1000 <= YearFromTime t <= 9999 ->
  fromLiteral (Literal_fromDate (Some t)) = LDate (Some (1000 * (t / 1000))).
Proof.
  intros Hy.
  pose proof (MonthFromTime_range t) as Hm.
  pose proof (DateFromTime_range t) as Hd.
  assert (Hh : 0 <= HourFromTime t < 24) by (unfold HourFromTime; divlia).
  assert (Hn : 0 <= MinFromTime t < 60) by (unfold MinFromTime; divlia).
  assert (Hs : 0 <= SecFromTime t < 60) by (unfold SecFromTime; divlia).
  destruct (year_string _ Hy) as (LY & ZY & PY).
  destruct (field_string (1 + MonthFromTime t) ltac:(lia)) as (LM & ZM & PM).
  destruct (field_string (DateFromTime t) ltac:(lia)) as (LD & ZD & PD).
  destruct (field_string (HourFromTime t) ltac:(lia)) as (LH & ZH & PH).
  destruct (field_string (MinFromTime t) ltac:(lia)) as (LN & ZN & PN).
  destruct (field_string (SecFromTime t) ltac:(lia)) as (LS & ZS & PS).
  unfold Literal_fromDate, fromLiteral. cbn [datatype value].
  change (String.eqb XSD.dateTime "http://www.w3.org/2001/XMLSchema#dateTime") with true.
  cbv iota zeta.
  change (getUTCFullYear (Some t)) with (Int (YearFromTime t)).
  change (addZ 1 (getUTCMonth (Some t))) with (Int (1 + MonthFromTime t)).
  change (getUTCDate (Some t)) with (Int (DateFromTime t)).
  change (getUTCHours (Some t)) with (Int (HourFromTime t)).
  change (getUTCMinutes (Some t)) with (Int (MinFromTime t)).
  change (getUTCSeconds (Some t)) with (Int (SecFromTime t)).
  rewrite (layout_Z _ _ _ _ _ _ LY LM LD LH LN LS ZY ZM ZD ZH ZN ZS).
  destruct (layout _ _ _ _ _ _ LY LM LD LH LN LS) as (EY & EM & ED & EH & EN & ES).
  cbv zeta in EY, EM, ED, EH, EN, ES.
  rewrite EY, EM, ED, EH, EN, ES, PY, PM, PD, PH, PN, PS.
  change (addZ (-1) (Int (1 + MonthFromTime t))) with (Int (-1 + (1 + MonthFromTime t))).
  replace (-1 + (1 + MonthFromTime t)) with (MonthFromTime t) by lia.
  rewrite (setters_rebuild t Hy). reflexivity.
Qed.

Lemma of_uint_acc_bounds (l : uint) (acc : positive) :
  Z.pos acc * 10 ^ Z.of_nat (nb_digits l) <= Z.pos (Pos.of_uint_acc l acc)
  /\ Z.pos (Pos.of_uint_acc l acc) < (Z.pos acc + 1) * 10 ^ Z.of_nat (nb_digits l).
Proof.
  revert acc. induction l as [|l IH|l IH|l IH|l IH|l IH|l IH|l IH|l IH|l IH|l IH];
    intros acc; cbn [nb_digits Pos.of_uint_acc];
    [ simpl; lia | .. ];
    rewrite Nat2Z.inj_succ, Z.pow_succ_r by lia;
    match goal with |- context [Pos.of_uint_acc l ?a] => specialize (IH a) end;
    rewrite ?Pos2Z.inj_add, ?Pos2Z.inj_mul in IH;
    assert (0 < 10 ^ Z.of_nat (nb_digits l)) by (apply Z.pow_pos_nonneg; lia);
    nia.
Qed.

Lemma to_uint_normal (p : positive) : unorm (Pos.to_uint p) = Pos.to_uint p.
Proof.
  pose proof (DecimalPos.Unsigned.to_of (Pos.to_uint p)) as H.
  rewrite DecimalPos.Unsigned.of_to in H. symmetry. exact H.
Qed.

Ltac leading l k :=
  match goal with
  | Hof : Pos.of_uint _ = N.pos _ |- _ =>
      cbn [Pos.of_uint nb_digits] in Hof |- *; inversion Hof as [Hp];
      let B1 := fresh "B" in let B2 := fresh "B" in
      destruct (of_uint_acc_bounds l k) as [B1 B2]; rewrite Hp in B1, B2;
      rewrite Nat2Z.inj_succ;
      replace (Z.succ (Z.of_nat (nb_digits l)) - 1) with (Z.of_nat (nb_digits l)) by lia;
      rewrite Z.pow_succ_r by lia; repeat split; lia
  end.

(** A positive number of [n] digits lies between [10^(n-1)] and [10^n]. *)
Lemma digits_magnitude (p : positive) :
  (1 <= nb_digits (Pos.to_uint p))%nat
  /\ 10 ^ (Z.of_nat (nb_digits (Pos.to_uint p)) - 1) <= Z.pos p
  /\ Z.pos p < 10 ^ Z.of_nat (nb_digits (Pos.to_uint p)).
Proof.
  pose proof (DecimalPos.Unsigned.of_to p) as Hof.
  pose proof (to_uint_normal p) as Hn.
  pose proof (DecimalPos.Unsigned.to_uint_nonzero p) as Hz.
  destruct (Pos.to_uint p) as [|l|l|l|l|l|l|l|l|l|l] eqn:E.
  - discriminate.
  - exfalso. unfold unorm in Hn. rewrite nzhead_D0 in Hn.
    destruct (nzhead l) eqn:En; try discriminate.
    + inversion Hn; subst. apply Hz. reflexivity.
    + exact (nzhead_nonzero _ _ En).
  - leading l 1%positive.
  - leading l 2%positive.
  - leading l 3%positive.
  - leading l 4%positive.
  - leading l 5%positive.
  - leading l 6%positive.
  - leading l 7%positive.
  - leading l 8%positive.
  - leading l 9%positive.
Qed.

Lemma digitsString_stringOf (d : uint) : digitsString d = stringOf (to_list d).
Proof.
  unfold digitsString. induction d; simpl; rewrite ?IHd; reflexivity.
Qed.

Lemma stringOf_app (l1 l2 : list digits) :
  stringOf (l1 ++ l2) = stringOf l1 +:+ stringOf l2.
Proof.
  induction l1 as [|d l1 IH]; [reflexivity|].
  change (stringOf ((d :: l1) ++ l2)) with (String (charOf d) (stringOf (l1 ++ l2))).
  rewrite IH. reflexivity.
Qed.

Lemma stringOf_zeros (n : nat) : stringOf (repeat d0 n) = zeros n.
Proof. induction n as [|n IH]; simpl; rewrite ?IH; reflexivity. Qed.

Lemma stringOf_length (l : list digits) : String.length (stringOf l) = length l.
Proof. induction l as [|d l IH]; simpl; rewrite ?IH; reflexivity. Qed.

Lemma digitsString_length (d : uint) : String.length (digitsString d) = nb_digits d.
Proof. rewrite digitsString_stringOf, stringOf_length, nb_digits_spec. reflexivity. Qed.

Lemma lnztail_app (l : list digits) :
  l = fst (lnztail l) ++ repeat d0 (snd (lnztail l)).
Proof.
  unfold lnztail.
  set (aux := fix aux (l_rev : list digits) : list digits * nat :=
                match l_rev with
                | d0 :: l_rev0 => let (r, n) := aux l_rev0 in (r, S n)
                | _ => (l_rev, 0%nat)
                end).
  assert (Haux : forall l_rev, l_rev = repeat d0 (snd (aux l_rev)) ++ fst (aux l_rev)).
  { induction l_rev as [|d l_rev IH]; [reflexivity|].
    destruct d; try reflexivity.
    simpl. destruct (aux l_rev) as [r n]. simpl in *. rewrite <- IH. reflexivity. }
  specialize (Haux (List.rev l)). destruct (aux (List.rev l)) as [r n]. simpl in *.
  rewrite <- (List.rev_involutive l), Haux, List.rev_app_distr. f_equal.
  clear. induction n as [|n IH]; [reflexivity|].
  simpl. rewrite IH. symmetry. apply List.repeat_cons.
Qed.

(** The digits of a number are its significant digits followed by the
    zeros it ends with. *)
Lemma nztail_digits (d : uint) :
  digitsString d = digitsString (fst (Decimal.nztail d)) +:+ zeros (snd (Decimal.nztail d))
  /\ nb_digits d = (nb_digits (fst (Decimal.nztail d)) + snd (Decimal.nztail d))%nat.
Proof.
  pose proof (nztail_spec d) as Hs. pose proof (lnztail_app (to_list d)) as Ha.
  destruct (Decimal.nztail d) as [r n]. destruct (lnztail (to_list d)) as [r' n'].
  destruct Hs as [<- <-]. simpl in *.
  rewrite !digitsString_stringOf, !nb_digits_spec.
  rewrite Ha, stringOf_app, stringOf_zeros, length_app, repeat_length.
  split; reflexivity.
Qed.

Lemma spanDigits_digits (d : uint) (r : string) :
  startsWithDigit r = false -> spanDigits (digitsString d +:+ r) = (d, r).
Proof.
  intros Hr. unfold digitsString.
  induction d; cbn [NilEmpty.string_of_uint];
    [ change ("" +:+ r) with r; apply spanDigits_no_digit; exact Hr | .. ];
    match goal with
    | |- spanDigits (String ?c ?s +:+ r) = _ =>
        change (String c s +:+ r) with (String c (s +:+ r))
    end;
    cbn [spanDigits digitOf]; rewrite IHd; reflexivity.
Qed.

Lemma spanDigits_digits_end (d : uint) : spanDigits (digitsString d) = (d, "").
Proof.
  pose proof (spanDigits_digits d "" eq_refl) as H.
  replace (digitsString d +:+ "") with (digitsString d) in H; [exact H|].
  generalize (digitsString d). intros s. induction s as [|c s IH]; [reflexivity|].
  change (String c s +:+ "") with (String c (s +:+ "")). rewrite <- IH. reflexivity.
Qed.

(** A string of digits that does not start with white space or a sign is
    what [trimStart] and [sign] leave. *)
Lemma digits_unsigned (d : uint) (r : string) :
  d <> Nil ->
  trimStart (digitsString d +:+ r) = digitsString d +:+ r
  /\ sign (digitsString d +:+ r) = (false, digitsString d +:+ r).
Proof.
  intros Hd. unfold digitsString. destruct d; try contradiction; split; reflexivity.
Qed.

Lemma parseInt_digits (p : positive) :
  parseInt (digitsString (Pos.to_uint p)) = Int (Z.pos p)
  /\ parseInt ("-" +:+ digitsString (Pos.to_uint p)) = Int (Z.neg p).
Proof.
  pose proof (DecimalPos.Unsigned.to_uint_nonnil p) as Hn.
  pose proof (DecimalPos.Unsigned.of_to p) as Hof.
  destruct (digits_unsigned (Pos.to_uint p) "" Hn) as [Ht Hs].
  assert (E : digitsString (Pos.to_uint p) +:+ "" = digitsString (Pos.to_uint p)).
  { generalize (digitsString (Pos.to_uint p)). intros s.
    induction s as [|c s IH]; [reflexivity|].
    change (String c s +:+ "") with (String c (s +:+ "")). rewrite IH. reflexivity. }
  rewrite E in Ht, Hs.
  split.
  - unfold parseInt. rewrite Ht, Hs, spanDigits_digits_end.
    unfold N.of_uint. rewrite Hof.
    destruct (Pos.to_uint p); [contradiction | ..]; reflexivity.
  - change (parseInt ("-" +:+ digitsString (Pos.to_uint p)))
      with (let (ds, _) := spanDigits (digitsString (Pos.to_uint p)) in
            match ds with
            | Nil => NaN
            | _ => Int (-1 * Z.of_N (N.of_uint ds))
            end).
    rewrite spanDigits_digits_end. unfold N.of_uint. rewrite Hof.
    destruct (Pos.to_uint p); [contradiction | ..]; reflexivity.
Qed.

(** An integer below [10^21] is written with all its digits. *)
Lemma toStringPositive_integer (p : positive) :
  Z.pos p < 10 ^ 21 ->
  toStringPositive (digitsString (significantDigits p))
                   (Z.of_nat (nb_digits (Pos.to_uint p)))
  = digitsString (Pos.to_uint p).
Proof.
  intros Hp. destruct (digits_magnitude p) as (Hn1 & Hlo & Hhi).
  destruct (nztail_digits (Pos.to_uint p)) as [Hd Hl].
  assert (Hn : Z.of_nat (nb_digits (Pos.to_uint p)) <= 21).
  { destruct (Z.le_gt_cases (Z.of_nat (nb_digits (Pos.to_uint p))) 21) as [H|H]; [exact H|].
    exfalso.
    assert (10 ^ 21 <= 10 ^ (Z.of_nat (nb_digits (Pos.to_uint p)) - 1))
      by (apply Z.pow_le_mono_r; lia).
    lia. }
  unfold toStringPositive, strlen, significantDigits.
  rewrite digitsString_length.
  set (k := nb_digits (fst (Decimal.nztail (Pos.to_uint p)))) in *.
  set (n := nb_digits (Pos.to_uint p)) in *.
  destruct (Z.leb_spec (Z.of_nat k) (Z.of_nat n)) as [_|H]; [|lia].
  destruct (Z.leb_spec (Z.of_nat n) 21) as [_|H]; [|lia].
  cbn [andb]. rewrite Hd. f_equal. f_equal. lia.
Qed.

(** A safe integer is read back from the string it is written to. *)
Lemma parseInt_toString (z : Z) :
  Z.abs z < 10 ^ 21 -> parseInt (toString (Int z)) = Int z.
Proof.
  intros Hz. destruct z as [|p|p]; [reflexivity | |]; cbn [toString].
  - rewrite toStringPositive_integer by lia. apply parseInt_digits.
  - rewrite toStringPositive_integer by lia. apply parseInt_digits.
Qed.

Lemma substring_stringOf (i j : nat) (l : list digits) :
  String.substring i j (stringOf l) = stringOf (firstn j (skipn i l)).
Proof.
  revert i j. induction l as [|d l IH]; intros i j.
  - destruct i, j; reflexivity.
  - destruct i as [|i].
    + destruct j as [|j]; [reflexivity|].
      cbn [skipn firstn stringOf String.substring]. rewrite (IH 0%nat j). reflexivity.
    + cbn [skipn stringOf String.substring]. apply IH.
Qed.

Lemma stringOf_of_list (l : list digits) : digitsString (of_list l) = stringOf l.
Proof. rewrite digitsString_stringOf, to_list_of_list. reflexivity. Qed.

Lemma nb_digits_of_list (l : list digits) : nb_digits (of_list l) = length l.
Proof. rewrite nb_digits_spec, to_list_of_list. reflexivity. Qed.

Lemma app_of_list (l1 l2 : list digits) :
  Decimal.app (of_list l1) (of_list l2) = of_list (l1 ++ l2).
Proof.
  apply to_list_inj. rewrite app_spec, !to_list_of_list. reflexivity.
Qed.

Lemma of_uint_leading_zeros (j : nat) (d : uint) :
  Pos.of_uint (Nat.iter j D0 d) = Pos.of_uint d.
Proof. induction j as [|j IH]; [reflexivity | exact IH]. Qed.

Lemma digitsString_leading_zeros (j : nat) (d : uint) :
  digitsString (Nat.iter j D0 d) = zeros j +:+ digitsString d.
Proof.
  induction j as [|j IH]; [reflexivity|].
  change (digitsString (Nat.iter (S j) D0 d))
    with (String "0" (digitsString (Nat.iter j D0 d))).
  rewrite IH. reflexivity.
Qed.

(** A mantissa that is no multiple of ten is kept as it is. *)
Lemma ofDecimal_normal (neg : bool) (m p : positive) :
  Z.pos m mod 10 <> 0 -> ofDecimal neg (N.pos m) (- Z.pos p) = Dec neg m p.
Proof.
  intros Hm. unfold ofDecimal.
  replace (Z.to_nat (- - Z.pos p)) with (S (Nat.pred (Pos.to_nat p)))
    by (pose proof (Pos2Nat.is_pos p); lia).
  cbn [stripZeros]. change (Z.of_N (N.pos m)) with (Z.pos m).
  destruct (Z.eqb_spec (Z.pos m mod 10) 0) as [E|_]; [contradiction|].
  rewrite andb_false_r. reflexivity.
Qed.

Lemma stringOf_first (d : digits) (l : list digits) (r : string) :
  String.prefix "Infinity" (stringOf (d :: l) +:+ r) = false
  /\ trimStart (stringOf (d :: l) +:+ r) = stringOf (d :: l) +:+ r
  /\ sign (stringOf (d :: l) +:+ r) = (false, stringOf (d :: l) +:+ r).
Proof. destruct d; repeat split; reflexivity. Qed.

(** The digits before and after the decimal point, read back. *)
Lemma parseUnsigned_point (neg : bool) (m p : positive) (l1 l2 : list digits) :
  Z.pos m mod 10 <> 0 ->
  to_list (Pos.to_uint m) = l1 ++ l2 -> l1 <> [] -> length l2 = Pos.to_nat p ->
  parseUnsigned neg (stringOf l1 +:+ "." +:+ stringOf l2) = Dec neg m p.
Proof.
  intros Hm Hl Hl1 Hl2. unfold parseUnsigned.
  destruct l1 as [|d l1]; [contradiction|].
  destruct (stringOf_first d l1 ("." +:+ stringOf l2)) as (-> & _ & _).
  rewrite <- (stringOf_of_list (d :: l1)), spanDigits_digits by reflexivity.
  change ("." +:+ stringOf l2) with (String "." (stringOf l2)). cbv iota.
  rewrite <- (stringOf_of_list l2), spanDigits_digits_end.
  rewrite app_of_list, <- Hl, of_list_to_list.
  unfold N.of_uint. rewrite DecimalPos.Unsigned.of_to.
  rewrite nb_digits_of_list, Hl2.
  change (exponentPart "") with 0.
  replace (0 - Z.of_nat (Pos.to_nat p)) with (- Z.pos p) by lia.
  rewrite (ofDecimal_normal neg m p Hm).
  destruct (of_list (d :: l1)) eqn:E1; try reflexivity.
  destruct d; discriminate.
Qed.

(** The digits after [0.] and its zeros, read back. *)
Lemma parseUnsigned_zeros (neg : bool) (m p : positive) (j : nat) :
  Z.pos m mod 10 <> 0 ->
  (j + nb_digits (Pos.to_uint m))%nat = Pos.to_nat p ->
  parseUnsigned neg ("0." +:+ zeros j +:+ digitsString (Pos.to_uint m)) = Dec neg m p.
Proof.
  intros Hm Hj. unfold parseUnsigned.
  change ("0." +:+ zeros j +:+ digitsString (Pos.to_uint m))
    with (String "0" (String "." (zeros j +:+ digitsString (Pos.to_uint m)))).
  cbn [String.prefix spanDigits digitOf]. cbv iota.
  destruct (ascii_dec "I" "0") as [E|_]; [discriminate|].
  rewrite <- digitsString_leading_zeros, spanDigits_digits_end.
  change (Decimal.app (D0 Nil) (Nat.iter j D0 (Pos.to_uint m)))
    with (D0 (Nat.iter j D0 (Pos.to_uint m))).
  unfold N.of_uint. cbn [Pos.of_uint].
  rewrite of_uint_leading_zeros, DecimalPos.Unsigned.of_to, nb_digits_iter_D0.
  change (exponentPart "") with 0.
  replace (0 - Z.of_nat (j + nb_digits (Pos.to_uint m))) with (- Z.pos p) by lia.
  apply ofDecimal_normal. exact Hm.
Qed.

Lemma parseFloat_signed (neg : bool) (body : string) :
  trimStart body = body -> sign body = (false, body) ->
  parseFloat ((if neg then "-" else "") +:+ body) = parseUnsigned neg body.
Proof.
  intros Ht Hs. destruct neg.
  - reflexivity.
  - change ("" +:+ body) with body. unfold parseFloat. rewrite Ht, Hs. reflexivity.
Qed.

(** The position of the decimal point of a number between [1e-6] and the
    largest safe integer. *)
Lemma point_position (m p : positive) :
  10 ^ Z.pos p <= Z.pos m * 10 ^ 6 ->
  Z.pos m <= MAX_SAFE_INTEGER * 10 ^ Z.pos p ->
  -6 < Z.of_nat (nb_digits (Pos.to_uint m)) - Z.pos p <= 21.
Proof.
  intros Hlo Hhi. destruct (digits_magnitude m) as (Hk & Hm1 & Hm2).
  set (k := Z.of_nat (nb_digits (Pos.to_uint m))) in *.
  assert (Hk1 : 1 <= k) by lia.
  split.
  - destruct (Z.lt_ge_cases (-6) (k - Z.pos p)) as [H|H]; [exact H|]. exfalso.
    assert (H1 : 10 ^ (k + 6) <= 10 ^ Z.pos p) by (apply Z.pow_le_mono_r; lia).
    rewrite Z.pow_add_r in H1 by lia. nia.
  - destruct (Z.le_gt_cases (k - Z.pos p) 21) as [H|H]; [exact H|]. exfalso.
    assert (H1 : 10 ^ (Z.pos p + 16) <= 10 ^ (k - 1)) by (apply Z.pow_le_mono_r; lia).
    rewrite Z.pow_add_r in H1 by lia.
    assert (H2 : 0 < 10 ^ Z.pos p) by (apply Z.pow_pos_nonneg; lia).
    unfold MAX_SAFE_INTEGER in Hhi.
    change (2 ^ 53 - 1) with 9007199254740991 in Hhi.
    change (10 ^ 16) with 10000000000000000 in H1. nia.
Qed.

(** A non-integer number between [1e-6] and the largest safe integer is
    read back from the string it is written to. *)
Lemma parseFloat_toString (neg : bool) (m p : positive) :
  Z.pos m mod 10 <> 0 ->
  10 ^ Z.pos p <= Z.pos m * 10 ^ 6 ->
  Z.pos m <= MAX_SAFE_INTEGER * 10 ^ Z.pos p ->
  parseFloat (toString (Dec neg m p)) = Dec neg m p.
Proof.
  intros Hm Hlo Hhi. pose proof (point_position m p Hlo Hhi) as Hn.
  pose proof (DecimalPos.Unsigned.to_uint_nonnil m) as Hnil.
  cbn [toString]. unfold toStringPositive, strlen.
  rewrite digitsString_length.
  set (k := nb_digits (Pos.to_uint m)) in *.
  set (n := Z.of_nat k - Z.pos p) in *.
  destruct (Z.leb_spec (Z.of_nat k) n) as [H|_]; [lia|]. cbn [andb].
  destruct (Z.ltb_spec 0 n) as [Hpos|Hneg].
  - destruct (Z.leb_spec n 21) as [_|H]; [|lia]. cbn [andb].
    unfold substring, strlen. rewrite digitsString_length. fold k.
    replace (Z.min (Z.min (Z.max 0 0) (Z.of_nat k)) (Z.min (Z.max n 0) (Z.of_nat k)))
      with 0 by lia.
    replace (Z.max (Z.min (Z.max 0 0) (Z.of_nat k)) (Z.min (Z.max n 0) (Z.of_nat k)) - 0)
      with n by lia.
    replace (Z.min (Z.min (Z.max n 0) (Z.of_nat k))
                   (Z.min (Z.max (Z.of_nat k) 0) (Z.of_nat k))) with n by lia.
    replace (Z.max (Z.min (Z.max n 0) (Z.of_nat k))
                   (Z.min (Z.max (Z.of_nat k) 0) (Z.of_nat k)) - n)
      with (Z.pos p) by lia.
    rewrite digitsString_stringOf, !substring_stringOf.
    set (l := to_list (Pos.to_uint m)).
    assert (Hlen : length l = k) by (unfold l, k; rewrite nb_digits_spec; reflexivity).
    change (Z.to_nat 0) with 0%nat. change (skipn 0 l) with l.
    replace (firstn (Z.to_nat (Z.pos p)) (skipn (Z.to_nat n) l)) with (skipn (Z.to_nat n) l)
      by (symmetry; apply firstn_all2; rewrite length_skipn; lia).
    assert (Hl1 : firstn (Z.to_nat n) l <> []).
    { intros E. apply (f_equal (@length _)) in E. rewrite length_firstn in E.
      simpl in E. lia. }
    destruct (firstn (Z.to_nat n) l) as [|d l1] eqn:E1; [contradiction|].
    destruct (stringOf_first d l1 ("." +:+ stringOf (skipn (Z.to_nat n) l)))
      as (_ & Ht & Hs).
    rewrite (parseFloat_signed neg _ Ht Hs).
    apply parseUnsigned_point; [exact Hm | | discriminate | rewrite length_skipn; lia].
    fold l. rewrite <- E1. symmetry. apply firstn_skipn.
  - destruct (Z.ltb_spec (-6) n) as [_|H]; [|lia].
    destruct (Z.leb_spec n 0) as [_|H]; [|lia]. cbn [andb].
    rewrite (parseFloat_signed neg
               ("0." +:+ zeros (Z.to_nat (- n)) +:+ digitsString (Pos.to_uint m))
               eq_refl eq_refl).
    apply parseUnsigned_zeros; [exact Hm|]. fold k. lia.
Qed.

End CodecFacts.

(** C3, as amended. Decoding the Literal that encodes a native value gives
    the value back for every string, for every integer of the safe range,
    for every number that is no integer between [1e-6] and the largest safe
    integer (a number being the decimal that its shortest representation
    denotes), and for every Date of the years 1000 to 9999, the Date without
    its milliseconds. *)
Theorem codec_round_trip (v : LiteralTypes) :
  inRange v -> fromLiteral (asLiteral v) = toTheSecond v.
Proof.
  destruct v as [s|[| |z|neg m p]|[t|]]; cbn [inRange]; try contradiction.
  - intros _. reflexivity.
  - intros Hz. cbn [asLiteral toTheSecond]. unfold Literal_fromNumber, fromLiteral.
    cbn [datatype value JS.isInteger].
    change (String.eqb XSD.integer "http://www.w3.org/2001/XMLSchema#dateTime") with false.
    change (String.eqb XSD.integer "http://www.w3.org/2001/XMLSchema#integer") with true.
    cbv iota. rewrite parseInt_toString; [reflexivity|].
    unfold JS.MAX_SAFE_INTEGER in Hz.
    change (2 ^ 53 - 1) with 9007199254740991 in Hz.
    change (10 ^ 21) with 1000000000000000000000. lia.
  - intros (Hm & Hlo & Hhi). cbn [asLiteral toTheSecond].
    unfold Literal_fromNumber, fromLiteral. cbn [datatype value JS.isInteger].
    change (String.eqb XSD.decimal "http://www.w3.org/2001/XMLSchema#dateTime") with false.
    change (String.eqb XSD.decimal "http://www.w3.org/2001/XMLSchema#integer") with false.
    change (String.eqb XSD.decimal "http://www.w3.org/2001/XMLSchema#decimal") with true.
    cbv iota. rewrite (parseFloat_toString neg m p Hm Hlo Hhi). reflexivity.
  - intros Hy. exact (fromLiteral_fromDate t Hy).
Qed.

(** The amended C3 on the values of the tests of [subject.ts], and on a
    Date with milliseconds. *)
Lemma codec_round_trip_witness :
  fromLiteral (asLiteral (LString "Some literal value")) = LString "Some literal value"
  /\ fromLiteral (asLiteral (LNumber (JS.Int 1337))) = LNumber (JS.Int 1337)
  /\ fromLiteral (asLiteral (LNumber (JS.Dec false 42 1))) = LNumber (JS.Dec false 42 1)
  /\ fromLiteral (asLiteral (LDate (Some 71697398400123))) = LDate (Some 71697398400000).
Proof.
  split; [exact (codec_round_trip (LString "Some literal value") I)|].
  split; [exact (codec_round_trip (LNumber (JS.Int 1337))
                   ltac:(cbn; apply Z.leb_le; reflexivity))|].
  split; [exact (codec_round_trip (LNumber (JS.Dec false 42 1))
                   ltac:(cbn; repeat split;
                         [discriminate | apply Z.leb_le; reflexivity
                          | apply Z.leb_le; reflexivity]))|].
  exact (codec_round_trip (LDate (Some 71697398400123))
           ltac:(cbn [inRange]; split; apply Z.leb_le; vm_compute; reflexivity)).
Defined.

(** C3, as stated, fails. The first instant of the year 10000 is written
    with a year of five digits; read at the offsets of the layout, its
    hours are [T0], no number, and the Date that comes back is invalid. The
    last second of the year 999 is written with a year of three digits and
    comes back as another Date. *)
Lemma dates_outside_the_layout :
  (JS.YearFromTime 253402300800000 = 10000
   /\ asLiteral (LDate (Some 253402300800000))
      = mkLiteral "10000-01-01T00:00:00Z" "" XSD.dateTime
   /\ JS.substring "10000-01-01T00:00:00Z" 11 13 = "T0"
   /\ fromLiteral (asLiteral (LDate (Some 253402300800000))) = LDate None
   /\ fromLiteral (asLiteral (LDate (Some 253402300800000)))
      <> LDate (Some 253402300800000))
  /\ (JS.YearFromTime (-30610224001000) = 999
      /\ asLiteral (LDate (Some (-30610224001000)))
         = mkLiteral "999-12-31T23:59:59Z" "" XSD.dateTime
      /\ fromLiteral (asLiteral (LDate (Some (-30610224001000))))
         <> LDate (Some (-30610224001000))).
Proof.
  repeat split; try (vm_compute; reflexivity); vm_compute; discriminate.
Qed.

(* ===================================================================== *)
(** * The heaps that the operations make are well formed *)
(* ===================================================================== *)

Lemma wellFormed_emptyHeap : wellFormed emptyHeap.
Proof.
  split; simpl; intros; try (rewrite lookup_nil in *; discriminate).
Qed.

Lemma asRef_same_documents (h h' : Heap) (d : Addr) :
  documents h' = documents h -> asRef h' d = asRef h d.
Proof. intros H. unfold asRef, theDocument. rewrite H. reflexivity. Qed.

(** A heap with the same Documents and Subjects, and no fewer metadata
    objects. *)
Lemma wellFormed_same (h h' : Heap) :
  documents h' = documents h -> subjects h' = subjects h ->
  (length (metadatas h) <= length (metadatas h'))%nat ->
  wellFormed h -> wellFormed h'.
Proof.
  intros Hd Hs Hm [W1 W2 W3 W4 W5]. split.
  - intros d doc. rewrite Hd. intros H. specialize (W1 d doc H). lia.
  - intros d doc k a. rewrite Hd, Hs. apply W2.
  - intros d doc. rewrite Hd. apply W3.
  - intros s subj. rewrite Hd, Hs. apply W4.
  - intros s subj q. rewrite Hs, (asRef_same_documents h h' _ Hd). apply W5.
Qed.

Lemma lookupSubject_None (k : Reference) (l : list (Reference * Addr)) :
  lookupSubject k l = None <-> ~ In k (map fst l).
Proof.
  induction l as [|[k0 a] l IH]; simpl.
  - split; [intros _ [] | reflexivity].
  - destruct (String.eqb k0 k) eqn:E.
    + apply String.eqb_eq in E. subst. split; [discriminate | intros H; exfalso; auto].
    + apply String.eqb_neq in E. rewrite IH. split; [intros H [?|?]; auto | auto].
Qed.

Lemma lookupSubject_app (k : Reference) (l l' : list (Reference * Addr)) :
  lookupSubject k (l ++ l')
  = match lookupSubject k l with Some a => Some a | None => lookupSubject k l' end.
Proof.
  induction l as [|[k0 a] l IH]; simpl; [reflexivity|].
  destruct (String.eqb k0 k); [reflexivity | exact IH].
Qed.

Lemma lookupSubject_In (k : Reference) (a : Addr) (l : list (Reference * Addr)) :
  lookupSubject k l = Some a -> In (k, a) l.
Proof.
  induction l as [|[k0 a0] l IH]; simpl; [discriminate|].
  destruct (String.eqb k0 k) eqn:E.
  - apply String.eqb_eq in E. intros H. inversion H; subst. left. reflexivity.
  - intros H. right. exact (IH H).
Qed.

Lemma theDocument_lookup (h : Heap) (d : Addr) :
  (d < length (documents h))%nat -> documents h !! d = Some (theDocument h d).
Proof.
  intros Hlt. unfold theDocument.
  destruct (documents h !! d) eqn:E; [reflexivity|].
  apply lookup_ge_None in E. lia.
Qed.

Lemma theSubject_lookup (h : Heap) (s : Addr) :
  (s < length (subjects h))%nat -> subjects h !! s = Some (theSubject h s).
Proof.
  intros Hlt. unfold theSubject.
  destruct (subjects h !! s) eqn:E; [reflexivity|].
  apply lookup_ge_None in E. lia.
Qed.

(** A new Document, with a metadata object of the heap and no Subject. *)
Lemma wellFormed_allocDocument (h : Heap) (ref : Reference) (ts : list Quad) (m : Addr) :
  (m < length (metadatas h))%nat -> wellFormed h ->
  wellFormed (snd (allocDocument (mkDocument ref ts m []) h)).
Proof.
  intros Hm [W1 W2 W3 W4 W5]. unfold allocDocument. simpl. split; simpl.
  - intros d doc H. apply lookup_app_Some in H. destruct H as [H|[_ H]].
    + exact (W1 d doc H).
    + apply list_lookup_singleton_Some in H. destruct H as [_ <-]. exact Hm.
  - intros d doc k a H Hin. apply lookup_app_Some in H. destruct H as [H|[_ H]].
    + exact (W2 d doc k a H Hin).
    + apply list_lookup_singleton_Some in H. destruct H as [_ <-]. destruct Hin.
  - intros d doc H. apply lookup_app_Some in H. destruct H as [H|[_ H]].
    + exact (W3 d doc H).
    + apply list_lookup_singleton_Some in H. destruct H as [_ <-]. constructor.
  - intros s subj H. destruct (W4 s subj H) as (doc & Hdoc & Hl).
    exists doc. split; [|exact Hl]. apply lookup_app_l_Some. exact Hdoc.
  - intros s subj q H Hin. destruct (W5 s subj q H Hin) as [E1 E2].
    split; [exact E1|]. rewrite E2. f_equal.
    destruct (W4 s subj H) as (doc & Hdoc & _).
    unfold asRef, theDocument. simpl.
    rewrite (lookup_app_l_Some _ _ _ _ Hdoc), Hdoc. reflexivity.
Qed.

(** A Subject written over itself, with the same Reference and Document,
    and pending statements that are about it. *)
Lemma wellFormed_setSubject (h : Heap) (s : Addr) (subj' : TripleSubject) :
  subjectRef subj' = subjectRef (theSubject h s) ->
  document subj' = document (theSubject h s) ->
  (forall q, In q (pendingAdditions subj' ++ pendingDeletions subj') ->
             subject q = sym (subjectRef subj')
             /\ graph q = sym (asRef h (document subj'))) ->
  wellFormed h -> wellFormed (setSubject s subj' h).
Proof.
  intros Hr Hd Hq [W1 W2 W3 W4 W5]. unfold setSubject. split; simpl.
  - exact W1.
  - intros d doc k a H Hin. destruct (W2 d doc k a H Hin) as (subj & Hs & Hk & Hdoc).
    destruct (decide (s = a)) as [->|Hne].
    + exists subj'. split.
      * apply list_lookup_insert_eq. apply lookup_lt_Some in Hs. exact Hs.
      * unfold theSubject in Hr, Hd. rewrite Hs in Hr, Hd. simpl in Hr, Hd.
        split; congruence.
    + exists subj. split; [|auto]. rewrite list_lookup_insert_ne by exact Hne. exact Hs.
  - exact W3.
  - intros s0 subj H. apply list_lookup_insert_Some in H.
    destruct H as [(-> & <- & Hlt)|[Hne H]].
    + rewrite Hr, Hd. apply W4. apply theSubject_lookup. exact Hlt.
    + exact (W4 s0 subj H).
  - intros s0 subj q H Hin. apply list_lookup_insert_Some in H.
    destruct H as [(-> & <- & Hlt)|[Hne H]].
    + exact (Hq q Hin).
    + exact (W5 s0 subj q H Hin).
Qed.

Lemma wellFormed_pushAddition (h : Heap) (s : Addr) (p : NodeRef) (o : Term) :
  wellFormed h ->
  wellFormed (pushAddition s (st (sym (subjectRef (theSubject h s))) (sym p) o
                                 (sym (asRef h (document (theSubject h s))))) h).
Proof.
  intros W. unfold pushAddition. apply wellFormed_setSubject; simpl; try reflexivity; [|exact W].
  intros q Hin. rewrite <- app_assoc in Hin. apply in_app_or in Hin.
  destruct Hin as [Hin|Hin].
  - destruct (decide (s < length (subjects h))%nat) as [Hlt|Hge].
    + apply (wf_pending h W s _ q (theSubject_lookup h s Hlt)).
      apply in_or_app. left. exact Hin.
    + rewrite theSubject_dangling in Hin by lia. destruct Hin.
  - simpl in Hin. destruct Hin as [<-|Hin]; [split; reflexivity|].
    destruct (decide (s < length (subjects h))%nat) as [Hlt|Hge].
    + apply (wf_pending h W s _ q (theSubject_lookup h s Hlt)).
      apply in_or_app. right. exact Hin.
    + rewrite theSubject_dangling in Hin by lia. destruct Hin.
Qed.

Lemma wellFormed_onSave (h : Heap) (s : Addr) : wellFormed h -> wellFormed (onSave s h).
Proof.
  intros W. unfold onSave. apply wellFormed_setSubject; simpl; try reflexivity; [|exact W].
  intros q [].
Qed.

Lemma wellFormed_fold_onSave (l : list Addr) (h : Heap) :
  wellFormed h -> wellFormed (fold_left (fun h subject => onSave subject h) l h).
Proof.
  revert h. induction l as [|s l IH]; intros h W; simpl; [exact W|].
  apply IH, wellFormed_onSave, W.
Qed.

(** [getSubject] on a Document of the heap. *)
Lemma wellFormed_getSubject (h : Heap) (d : Addr) (ref : Reference) :
  (d < length (documents h))%nat -> wellFormed h -> wellFormed (snd (getSubject d ref h)).
Proof.
  intros Hd W. unfold getSubject.
  destruct (lookupSubject ref (accessedSubjects (theDocument h d))) as [s|] eqn:Hl;
    [exact W|].
  pose proof (theDocument_lookup h d Hd) as Hdoc.
  destruct W as [W1 W2 W3 W4 W5].
  unfold initialiseSubject, allocSubject, setDocument, theDocument. simpl.
  fold (theDocument h d). set (doc := theDocument h d) in *.
  split; simpl.
  - intros d0 doc0 H. apply list_lookup_insert_Some in H.
    destruct H as [(E1 & E2 & _)|[_ H]]; [|exact (W1 d0 doc0 H)].
    subst d0 doc0. exact (W1 d doc Hdoc).
  - intros d0 doc0 k a H Hin. apply list_lookup_insert_Some in H.
    destruct H as [(E1 & E2 & _)|[_ H]].
    + subst d0 doc0. simpl in Hin. apply in_app_or in Hin. destruct Hin as [Hin|[Hin|[]]].
      * destruct (W2 d doc k a Hdoc Hin) as (subj & Hs & E).
        exists subj. split; [apply lookup_app_l_Some; exact Hs | exact E].
      * inversion Hin; subst. eexists. split.
        -- rewrite lookup_app_r by lia. rewrite Nat.sub_diag. reflexivity.
        -- split; reflexivity.
    + destruct (W2 d0 doc0 k a H Hin) as (subj & Hs & E).
      exists subj. split; [apply lookup_app_l_Some; exact Hs | exact E].
  - intros d0 doc0 H. apply list_lookup_insert_Some in H.
    destruct H as [(E1 & E2 & _)|[_ H]]; [|exact (W3 d0 doc0 H)].
    subst d0 doc0.
    simpl. rewrite map_app. simpl. apply NoDup_app. split; [exact (W3 d doc Hdoc)|].
    split; [|apply NoDup_singleton].
    intros k Hk Hk'. apply list_elem_of_singleton in Hk'. subst k.
    apply lookupSubject_None in Hl. apply Hl. apply list_elem_of_In. exact Hk.
  - intros s subj H. apply lookup_app_Some in H. destruct H as [H|[Hge H]].
    + destruct (W4 s subj H) as (doc0 & Hdoc0 & Hl0).
      destruct (decide (document subj = d)) as [E|Hne].
      * rewrite E in *. rewrite Hdoc in Hdoc0. inversion Hdoc0; subst doc0.
        eexists. split; [apply list_lookup_insert_eq; exact Hd|].
        simpl. rewrite lookupSubject_app, Hl0. reflexivity.
      * exists doc0. split; [|exact Hl0].
        rewrite list_lookup_insert_ne by congruence. exact Hdoc0.
    + apply list_lookup_singleton_Some in H. destruct H as [Hs E]. subst subj. simpl.
      eexists. split; [apply list_lookup_insert_eq; exact Hd|].
      simpl. rewrite lookupSubject_app, Hl. simpl. rewrite String.eqb_refl.
      f_equal. lia.
  - intros s subj q H Hin. apply lookup_app_Some in H. destruct H as [H|[_ H]].
    + destruct (W5 s subj q H Hin) as [E1 E2]. split; [exact E1|]. rewrite E2.
      f_equal. unfold asRef, theDocument. simpl.
      destruct (decide (document subj = d)) as [E|Hne].
      * rewrite E. rewrite list_lookup_insert_eq by exact Hd. fold (theDocument h d).
        reflexivity.
      * rewrite list_lookup_insert_ne by congruence. reflexivity.
    + apply list_lookup_singleton_Some in H. destruct H as [_ E]. subst subj. destruct Hin.
Qed.

Lemma getSubject_documents_length (h : Heap) (d : Addr) (ref : Reference) :
  length (documents (snd (getSubject d ref h))) = length (documents h).
Proof.
  unfold getSubject. destruct (lookupSubject _ _); [reflexivity|].
  simpl. apply length_insert.
Qed.

Lemma wellFormed_getSubjects (refs : list Reference) (h : Heap) (d : Addr) :
  (d < length (documents h))%nat -> wellFormed h -> wellFormed (snd (getSubjects d refs h)).
Proof.
  revert h. induction refs as [|ref refs IH]; intros h Hd W; simpl; [exact W|].
  pose proof (wellFormed_getSubject h d ref Hd W) as W1.
  pose proof (getSubject_documents_length h d ref) as Hlen.
  destruct (getSubject d ref h) as [s h1]. simpl in *.
  specialize (IH h1 ltac:(lia) W1).
  destruct (getSubjects d refs h1) as [found h2]. exact IH.
Qed.

Lemma wellFormed_addLiteral (h : Heap) (s : Addr) (p : NodeRef) (v : LiteralTypes) :
  wellFormed h -> wellFormed (addLiteral s p v h).
Proof. apply wellFormed_pushAddition. Qed.

Lemma wellFormed_addNodeRef (h : Heap) (s : Addr) (p r : NodeRef) :
  wellFormed h -> wellFormed (addNodeRef s p r h).
Proof. apply wellFormed_pushAddition. Qed.

Lemma wellFormed_allocMetadata (h : Heap) (m : DocumentMetadata) :
  wellFormed h -> wellFormed (snd (allocMetadata m h)).
Proof.
  apply wellFormed_same; try reflexivity. simpl. rewrite length_app. lia.
Qed.

Lemma wellFormed_assign (h : Heap) (a : Addr) :
  wellFormed h ->
  (forall r, wellFormed (assignAclRef a r h))
  /\ (forall r, wellFormed (assignWebSocketRef a r h))
  /\ (forall b, wellFormed (assignExistsOnPod a b h)).
Proof.
  intros W. split; [|split]; intros; apply (wellFormed_same h); try exact W;
    try reflexivity; simpl; rewrite length_insert; lia.
Qed.

Lemma wellFormed_withStore (h : Heap) (store' : list Quad) :
  wellFormed h -> wellFormed (StoreDocument.withStore store' h).
Proof. apply wellFormed_same; reflexivity. Qed.

Lemma wellFormed_StoreDocument_createDocument (ref : NodeRef) (h h' : Heap) (d : Addr) :
  StoreDocument.createDocument ref h = Some (d, h') -> wellFormed h -> wellFormed h'.
Proof.
  unfold StoreDocument.createDocument, StoreDocument.instantiateDocument. simpl.
  destruct (URL.parse ref) as [docUrl|]; [|discriminate].
  intros H W. inversion H; subst.
  apply (wellFormed_allocDocument
           (snd (allocMetadata (mkMetadata None None (Some false)) h))).
  - simpl. rewrite length_app. simpl. lia.
  - apply wellFormed_allocMetadata, W.
Qed.

Lemma wellFormed_StoreDocument_fetchDocument
    (load : list Quad -> NodeRef -> (Error + Response) * list Quad)
    (env : StoreDocument.Collaborators) (ref : NodeRef) (h : Heap) :
  wellFormed h -> wellFormed (fst (StoreDocument.fetchDocument load env ref h)).
Proof.
  intros W. unfold StoreDocument.fetchDocument.
  destruct (load (store h) ref) as [[e|response] store']; simpl.
  - apply wellFormed_withStore, W.
  - unfold StoreDocument.instantiateDocument.
    destruct (URL.parse ref) as [docUrl|]; simpl.
    + match goal with |- wellFormed (mkHeap ?st (?ms ++ [?m]) (?ds ++ [mkDocument ?r ?t ?a ?l]) ?ss) =>
        apply (wellFormed_allocDocument (mkHeap st (ms ++ [m]) ds ss) r t a) end.
      * simpl. rewrite length_app. simpl. lia.
      * apply (wellFormed_allocMetadata (StoreDocument.withStore store' h)).
        apply wellFormed_withStore, W.
    + apply (wellFormed_allocMetadata (StoreDocument.withStore store' h)).
      apply wellFormed_withStore, W.
Qed.

Lemma wellFormed_StoreDocument_save (env : StoreDocument.Collaborators) (d : Addr)
    (chosen : option (list Addr)) (h : Heap) :
  wellFormed h -> wellFormed (fst (StoreDocument.save env d chosen h)).
Proof.
  intros W. unfold StoreDocument.save.
  destruct (gatherPending h _) as [dels adds].
  destruct (negb _).
  - destruct (StoreDocument.create env _ _ adds) as [[e|response] store']; simpl.
    + apply wellFormed_withStore, W.
    + apply wellFormed_fold_onSave, wellFormed_assign.
      destruct (truthyRef _); [apply wellFormed_assign|]; apply wellFormed_withStore, W.
  - destruct (StoreDocument.update env _ dels adds) as [[e|[]] store']; simpl.
    + apply wellFormed_withStore, W.
    + apply wellFormed_fold_onSave, wellFormed_withStore, W.
Qed.

Lemma wellFormed_Document_createDocument (ref : Reference) (h : Heap) :
  wellFormed h -> wellFormed (snd (Document.createDocument ref h)).
Proof.
  intros W. unfold Document.createDocument, Document.instantiateDocument. simpl.
  apply (wellFormed_allocDocument
           (snd (allocMetadata (mkMetadata None None (Some false)) h))).
  - simpl. rewrite length_app. simpl. lia.
  - apply wellFormed_allocMetadata, W.
Qed.

Lemma wellFormed_Document_fetchDocument (env : Document.Collaborators) (uri : Reference)
    (h h' : Heap) (r : Error + Addr) :
  Document.fetchDocument env uri h = Some (h', r) -> wellFormed h -> wellFormed h'.
Proof.
  unfold Document.fetchDocument.
  destruct (URL.parse uri) as [docUrl|]; [|discriminate].
  destruct (Document.get env _) as [e|response].
  { intros H W. inversion H; subst. exact W. }
  destruct (Document.turtleToTriples env _ _) as [e|ts].
  { intros H W. inversion H; subst. exact W. }
  unfold Document.instantiateDocument. simpl. intros H W. inversion H; subst.
  match goal with |- wellFormed (mkHeap ?st (?ms ++ [?m]) (?ds ++ [mkDocument ?r ?t ?a ?l]) ?ss) =>
    apply (wellFormed_allocDocument (mkHeap st (ms ++ [m]) ds ss) r t a) end.
  - simpl. rewrite length_app. simpl. lia.
  - apply (wellFormed_allocMetadata h), W.
Qed.

Lemma wellFormed_Document_save (env : Document.Collaborators) (d : Addr)
    (chosen : option (list Addr)) (h : Heap) :
  (d < length (documents h))%nat ->
  wellFormed h -> wellFormed (fst (Document.save env d chosen h)).
Proof.
  intros Hd W.
  pose proof (wf_metadata h W d _ (theDocument_lookup h d Hd)) as Hm.
  unfold Document.save.
  destruct (gatherPending h _) as [dels adds].
  set (a := metadata (theDocument h d)) in *.
  destruct (negb _).
  - destruct (Document.create env _ adds) as [e|response]; simpl; [exact W|].
    set (acl := Document.extractAclRef env response _).
    set (h1 := if truthyRef acl then assignAclRef a acl h else h).
    set (h2 := if truthyRef (headers_Updates_Via response)
               then assignWebSocketRef a (headers_Updates_Via response) h1 else h1).
    assert (W1 : wellFormed h1 /\ length (metadatas h1) = length (metadatas h)).
    { subst h1. destruct (truthyRef acl); split; try exact W; try reflexivity.
      - apply wellFormed_assign, W.
      - apply length_assign. }
    assert (W2 : wellFormed h2 /\ length (metadatas h2) = length (metadatas h1)).
    { subst h2. destruct (truthyRef (headers_Updates_Via response)); split;
        try apply W1; try reflexivity.
      - apply wellFormed_assign, W1.
      - apply length_assign. }
    apply (wellFormed_allocDocument (assignExistsOnPod a true h2)).
    + rewrite (proj2 (proj2 (length_assign h2 a))). destruct W1, W2. lia.
    + apply wellFormed_assign, W2.
  - destruct (Document.update env _ dels adds) as [e|[]]; simpl; [exact W|].
    apply (wellFormed_allocDocument h); [exact Hm | exact W].
Qed.

(* ===================================================================== *)
(** * [getSubject] *)
(* ===================================================================== *)

Lemma getSubject_cached (h : Heap) (d : Addr) (ref : Reference) (s : Addr) :
  lookupSubject ref (accessedSubjects (theDocument h d)) = Some s ->
  getSubject d ref h = (s, h).
Proof. intros H. unfold getSubject. rewrite H. reflexivity. Qed.

Lemma theDocument_setDocument (h : Heap) (d : Addr) (doc : TripleDocument) :
  (d < length (documents h))%nat -> theDocument (setDocument d doc h) d = doc.
Proof.
  intros Hd. unfold theDocument, setDocument. simpl.
  rewrite list_lookup_insert_eq by exact Hd. reflexivity.
Qed.

(** After [getSubject], the Document remembers the Subject under its key. *)
Lemma getSubject_remembers (h : Heap) (d : Addr) (ref : Reference) :
  (d < length (documents h))%nat ->
  lookupSubject ref (accessedSubjects (theDocument (snd (getSubject d ref h)) d))
  = Some (fst (getSubject d ref h)).
Proof.
  intros Hd. unfold getSubject.
  destruct (lookupSubject ref (accessedSubjects (theDocument h d))) as [s|] eqn:Hl; simpl.
  - exact Hl.
  - unfold theDocument at 1. simpl. rewrite list_lookup_insert_eq by exact Hd. simpl.
    rewrite lookupSubject_app. 
    unfold theDocument at 1. simpl. fold (theDocument h d). rewrite Hl. simpl.
    rewrite String.eqb_refl. reflexivity.
Qed.

(** What [getSubject] leaves as it was. *)
Lemma getSubject_frame (h : Heap) (d : Addr) (ref : Reference) :
  let h1 := snd (getSubject d ref h) in
  store h1 = store h /\ metadatas h1 = metadatas h
  /\ (forall s0, (s0 < length (subjects h))%nat -> theSubject h1 s0 = theSubject h s0)
  /\ (forall d0, documentRef (theDocument h1 d0) = documentRef (theDocument h d0)
                 /\ triples (theDocument h1 d0) = triples (theDocument h d0)
                 /\ metadata (theDocument h1 d0) = metadata (theDocument h d0))
  /\ (forall d0, d0 <> d -> theDocument h1 d0 = theDocument h d0)
  /\ (length (subjects h) <= length (subjects h1))%nat.
Proof.
  cbv zeta. unfold getSubject.
  destruct (lookupSubject ref (accessedSubjects (theDocument h d))) as [s|] eqn:Hl; simpl.
  { repeat split; auto. }
  repeat split.
  - intros s0 Hs0. unfold theSubject. simpl. rewrite lookup_app_l by exact Hs0. reflexivity.
  - unfold theDocument at 1. simpl.
    destruct (decide (d = d0)) as [->|Hne].
    + destruct (decide (d0 < length (documents h))%nat) as [Hlt|Hge].
      * rewrite list_lookup_insert_eq by exact Hlt. reflexivity.
      * rewrite list_insert_ge by lia. reflexivity.
    + rewrite list_lookup_insert_ne by exact Hne. reflexivity.
  - unfold theDocument at 1. simpl.
    destruct (decide (d = d0)) as [->|Hne].
    + destruct (decide (d0 < length (documents h))%nat) as [Hlt|Hge].
      * rewrite list_lookup_insert_eq by exact Hlt. reflexivity.
      * rewrite list_insert_ge by lia. reflexivity.
    + rewrite list_lookup_insert_ne by exact Hne. reflexivity.
  - unfold theDocument at 1. simpl.
    destruct (decide (d = d0)) as [->|Hne].
    + destruct (decide (d0 < length (documents h))%nat) as [Hlt|Hge].
      * rewrite list_lookup_insert_eq by exact Hlt. reflexivity.
      * rewrite list_insert_ge by lia. reflexivity.
    + rewrite list_lookup_insert_ne by exact Hne. reflexivity.
  - intros d0 Hne. unfold theDocument at 1. simpl.
    rewrite list_lookup_insert_ne by congruence. reflexivity.
  - rewrite length_app. lia.
Qed.

(** A key that was not accessed gets a new Subject, with nothing pending. *)
Lemma getSubject_fresh (h : Heap) (d : Addr) (ref : Reference) :
  lookupSubject ref (accessedSubjects (theDocument h d)) = None ->
  fst (getSubject d ref h) = length (subjects h)
  /\ theSubject (snd (getSubject d ref h)) (length (subjects h)) = mkSubject d ref [] [].
Proof.
  intros Hl. unfold getSubject. rewrite Hl. simpl. split; [reflexivity|].
  unfold theSubject. simpl. rewrite lookup_app_r by lia. rewrite Nat.sub_diag. reflexivity.
Qed.

(** The Subject [getSubject] returns has the Reference asked for, and
    belongs to the Document asked. *)
Lemma getSubject_subject (h : Heap) (d : Addr) (ref : Reference) :
  wellFormed h -> (d < length (documents h))%nat ->
  let s := fst (getSubject d ref h) in
  let h1 := snd (getSubject d ref h) in
  (s < length (subjects h1))%nat
  /\ subjectRef (theSubject h1 s) = ref /\ document (theSubject h1 s) = d.
Proof.
  intros W Hd. cbv zeta.
  destruct (lookupSubject ref (accessedSubjects (theDocument h d))) as [s|] eqn:Hl.
  - rewrite (getSubject_cached h d ref s Hl). simpl.
    destruct (wf_accessed h W d _ ref s (theDocument_lookup h d Hd) (lookupSubject_In _ _ _ Hl))
      as (subj & Hs & E1 & E2).
    unfold theSubject. rewrite Hs. simpl. split; [|split]; auto.
    apply lookup_lt_Some in Hs. exact Hs.
  - destruct (getSubject_fresh h d ref Hl) as [-> ->]. simpl.
    split; [|split; reflexivity].
    unfold getSubject. rewrite Hl. simpl. rewrite length_app. simpl. lia.
Qed.

Lemma getSubject_keeps_lookup (h : Heap) (d d' : Addr) (ref ref' : Reference) (s : Addr) :
  lookupSubject ref (accessedSubjects (theDocument h d)) = Some s ->
  lookupSubject ref (accessedSubjects (theDocument (snd (getSubject d' ref' h)) d)) = Some s.
Proof.
  intros Hl. destruct (decide (d = d')) as [<-|Hne].
  - unfold getSubject.
    destruct (lookupSubject ref' (accessedSubjects (theDocument h d))) as [s'|] eqn:Hl';
      simpl; [exact Hl|].
    destruct (decide (d < length (documents h))%nat) as [Hlt|Hge].
    + unfold theDocument at 1. simpl. rewrite list_lookup_insert_eq by exact Hlt. simpl.
      rewrite lookupSubject_app.
      unfold theDocument at 1. simpl. fold (theDocument h d). rewrite Hl. reflexivity.
    + unfold theDocument at 1. simpl. rewrite list_insert_ge by lia.
      fold (theDocument h d). exact Hl.
  - rewrite (proj1 (proj2 (proj2 (proj2 (proj2 (getSubject_frame h d' ref'))))) d Hne).
    exact Hl.
Qed.

Lemma lookup_same_documents (h h' : Heap) (d : Addr) (ref : Reference) (s : Addr) :
  documents h' = documents h ->
  lookupSubject ref (accessedSubjects (theDocument h d)) = Some s ->
  getSubject d ref h' = (s, h').
Proof.
  intros Hd Hl. apply getSubject_cached. unfold theDocument in *. rewrite Hd. exact Hl.
Qed.

(** X10. [getSubject] is memoized: for a Reference that is an ordinary key
    of [accessedSubjects], a second call with the same Reference returns the
    same Subject and changes nothing, also after a Literal or a node was
    staged on the Subject, or another Subject was accessed. *)
Theorem getSubject_memoized (h : Heap) (d : Addr) (ref : Reference) :
  (d < length (documents h))%nat -> ordinaryKey ref = true ->
  let s := fst (getSubject d ref h) in
  let h1 := snd (getSubject d ref h) in
  getSubject d ref h1 = (s, h1)
  /\ (forall p v, getSubject d ref (addLiteral s p v h1) = (s, addLiteral s p v h1))
  /\ (forall p r, getSubject d ref (addNodeRef s p r h1) = (s, addNodeRef s p r h1))
  /\ (forall d' ref', fst (getSubject d ref (snd (getSubject d' ref' h1))) = s).
Proof.
  intros Hd _. cbv zeta. pose proof (getSubject_remembers h d ref Hd) as Hl.
  split; [|split; [|split]].
  - apply getSubject_cached. exact Hl.
  - intros p v. apply (lookup_same_documents (snd (getSubject d ref h))); [reflexivity|exact Hl].
  - intros p r. apply (lookup_same_documents (snd (getSubject d ref h))); [reflexivity|exact Hl].
  - intros d' ref'.
    rewrite (getSubject_cached _ d ref _ (getSubject_keeps_lookup _ d d' ref ref' _ Hl)).
    reflexivity.
Qed.

(** On a new Document: [getSubject] of [me], twice. *)
Lemma getSubject_memoized_witness :
  let h := snd (Document.createDocument Fixture.doc emptyHeap) in
  getSubject 0%nat Fixture.me (snd (getSubject 0%nat Fixture.me h))
  = getSubject 0%nat Fixture.me h.
Proof.
  exact (proj1 (getSubject_memoized (snd (Document.createDocument Fixture.doc emptyHeap))
                                    0%nat Fixture.me ltac:(simpl; lia) eq_refl)).
Defined.

(** X11. The Subject [getSubject] returns for a Reference that is an
    ordinary key has the Reference asked for and belongs to the Document
    asked; one that was not accessed before is new, with nothing pending.
    The store, the metadata, the Subjects there were, and the Reference,
    triples and ACL of every Document are unchanged. *)
Theorem getSubject_returns_the_subject (h : Heap) (d : Addr) (ref : Reference) :
  wellFormed h -> (d < length (documents h))%nat -> ordinaryKey ref = true ->
  let s := fst (getSubject d ref h) in
  let h1 := snd (getSubject d ref h) in
  asNodeRef h1 s = ref /\ getDocument h1 s = d
  /\ (lookupSubject ref (accessedSubjects (theDocument h d)) = None ->
      s = length (subjects h) /\ buffers h1 s = ([], []))
  /\ store h1 = store h /\ metadatas h1 = metadatas h
  /\ (forall s0, (s0 < length (subjects h))%nat -> theSubject h1 s0 = theSubject h s0)
  /\ (forall d0, asRef h1 d0 = asRef h d0 /\ getTriples h1 d0 = getTriples h d0
                 /\ getAclRef h1 d0 = getAclRef h d0).
Proof.
  intros W Hd _. cbv zeta.
  destruct (getSubject_subject h d ref W Hd) as (_ & E1 & E2).
  destruct (getSubject_frame h d ref) as (F1 & F2 & F3 & F4 & _).
  split; [exact E1|]. split; [exact E2|]. split.
  { intros Hl. destruct (getSubject_fresh h d ref Hl) as [-> E]. split; [reflexivity|].
    unfold buffers. rewrite E. reflexivity. }
  split; [exact F1|]. split; [exact F2|]. split; [exact F3|].
  intros d0. destruct (F4 d0) as (G1 & G2 & G3).
  unfold asRef, getTriples, getAclRef, theMetadata. rewrite G1, G2, G3, F2. auto.
Qed.

(** On a new Document: the Subject of [me] has that Reference and the
    Document. *)
Lemma getSubject_returns_the_subject_witness :
  let h := snd (Document.createDocument Fixture.doc emptyHeap) in
  asNodeRef (snd (getSubject 0%nat Fixture.me h)) (fst (getSubject 0%nat Fixture.me h))
  = Fixture.me
  /\ getDocument (snd (getSubject 0%nat Fixture.me h)) (fst (getSubject 0%nat Fixture.me h))
     = 0%nat.
Proof.
  pose (H := getSubject_returns_the_subject
               (snd (Document.createDocument Fixture.doc emptyHeap)) 0%nat Fixture.me
               (wellFormed_Document_createDocument Fixture.doc emptyHeap wellFormed_emptyHeap)
               ltac:(simpl; lia) eq_refl).
  exact (conj (proj1 H) (proj1 (proj2 H))).
Defined.

(** X12. Two ordinary keys never share a Subject: the Subjects of two
    References of a Document, and of two Documents, are different objects,
    and staging on one leaves the buffers of the other as they were. *)
Theorem getSubject_distinct (h : Heap) (d1 d2 : Addr) (ref1 ref2 : Reference) :
  wellFormed h -> (d1 < length (documents h))%nat -> (d2 < length (documents h))%nat ->
  ordinaryKey ref1 = true -> ordinaryKey ref2 = true ->
  d1 <> d2 \/ ref1 <> ref2 ->
  let s1 := fst (getSubject d1 ref1 h) in
  let h1 := snd (getSubject d1 ref1 h) in
  let s2 := fst (getSubject d2 ref2 h1) in
  let h2 := snd (getSubject d2 ref2 h1) in
  s1 <> s2
  /\ (forall p v, buffers (addLiteral s1 p v h2) s2 = buffers h2 s2)
  /\ (forall p r, buffers (addNodeRef s1 p r h2) s2 = buffers h2 s2).
Proof.
  intros W Hd1 Hd2 _ _ Hne. cbv zeta.
  pose proof (wellFormed_getSubject h d1 ref1 Hd1 W) as W1.
  pose proof (getSubject_documents_length h d1 ref1) as Hlen.
  destruct (getSubject_subject h d1 ref1 W Hd1) as (L1 & E1 & E2).
  destruct (getSubject_subject _ d2 ref2 W1 ltac:(lia)) as (L2 & E3 & E4).
  destruct (getSubject_frame (snd (getSubject d1 ref1 h)) d2 ref2) as (_ & _ & F3 & _).
  cbv zeta in F3. rewrite <- (F3 _ L1) in E1, E2.
  assert (Hs : fst (getSubject d1 ref1 h)
               <> fst (getSubject d2 ref2 (snd (getSubject d1 ref1 h)))).
  { intros E. rewrite E in E1, E2. destruct Hne as [Hne|Hne]; apply Hne; congruence. }
  split; [exact Hs|]. split; intros; unfold addLiteral, addNodeRef;
    rewrite buffers_pushAddition; destruct (decide _) as [[E _]|_];
    try reflexivity; contradiction.
Qed.

(** On a new Document: the Subjects of [me] and of [you]. *)
Lemma getSubject_distinct_witness :
  let h := Fixture.fresh in
  let s1 := fst (getSubject 0%nat Fixture.me h) in
  let h1 := snd (getSubject 0%nat Fixture.me h) in
  let s2 := fst (getSubject 0%nat Fixture.you h1) in
  let h2 := snd (getSubject 0%nat Fixture.you h1) in
  s1 <> s2
  /\ buffers (addLiteral s1 Fixture.name (LString "a") h2) s2 = buffers h2 s2.
Proof.
  pose (H := getSubject_distinct Fixture.fresh 0%nat 0%nat Fixture.me Fixture.you
               (wellFormed_Document_createDocument Fixture.doc emptyHeap wellFormed_emptyHeap)
               ltac:(simpl; lia) ltac:(simpl; lia) eq_refl eq_refl
               (or_intror (proj1 (String.eqb_neq Fixture.me Fixture.you) eq_refl))).
  exact (conj (proj1 H) (proj1 (proj2 H) Fixture.name (LString "a"))).
Defined.

(* ===================================================================== *)
(** * What [save] gathers *)
(* ===================================================================== *)

Lemma NoDup_values {K A : Type} (f : A -> K) (l : list (K * A)) :
  NoDup (map fst l) -> (forall k a, In (k, a) l -> f a = k) -> NoDup (map snd l).
Proof.
  induction l as [|[k a] l IH]; simpl; intros Hk Hf; [constructor|].
  apply NoDup_cons in Hk. destruct Hk as [Hk Hl]. apply NoDup_cons. split.
  - intros Hin. apply Hk. apply list_elem_of_In in Hin. apply in_map_iff in Hin.
    destruct Hin as ([k' a'] & E & Hin). simpl in E. subst a'.
    apply list_elem_of_In. apply in_map_iff. exists (k', a). split; [|exact Hin].
    simpl. rewrite <- (Hf k a (or_introl eq_refl)). symmetry. apply Hf. right. exact Hin.
  - apply IH; [exact Hl|]. intros k' a' Hin. apply Hf. right. exact Hin.
Qed.

Lemma filter_all {A : Type} (f : A -> bool) (l : list A) :
  (forall x, In x l -> f x = true) -> List.filter f l = l.
Proof.
  induction l as [|x l IH]; simpl; intros H; [reflexivity|].
  rewrite (H x (or_introl eq_refl)), IH; [reflexivity|]. intros y Hy. apply H. right. exact Hy.
Qed.

(** The Subjects a Document remembers are all relevant to it. *)
Lemma relevant_accessed (h : Heap) (d : Addr) :
  wellFormed h -> (d < length (documents h))%nat ->
  relevant h (asRef h d) (subjectsOrAll h d None)
  = map snd (accessedSubjects (theDocument h d)).
Proof.
  intros W Hd. unfold relevant, subjectsOrAll. apply filter_all.
  intros s Hin. apply in_map_iff in Hin. destruct Hin as ([k a] & E & Hin).
  simpl in E. subst a.
  destruct (wf_accessed h W d _ k s (theDocument_lookup h d Hd) Hin) as (subj & Hs & _ & E).
  unfold getDocument, theSubject. rewrite Hs. simpl. rewrite E. apply String.eqb_refl.
Qed.

(** A pending statement of a relevant Subject is in the graph of the
    Document. *)
Lemma relevant_pending (h : Heap) (d : Addr) (l : list Addr) (s : Addr) (q : Quad) :
  wellFormed h -> In s (relevant h (asRef h d) l) ->
  In q (pendingAdditions (theSubject h s) ++ pendingDeletions (theSubject h s)) ->
  In s l /\ subject q = sym (asNodeRef h s) /\ graph q = sym (asRef h d).
Proof.
  intros W Hs Hq. unfold relevant in Hs. apply filter_In in Hs. destruct Hs as [Hs E].
  apply String.eqb_eq in E. split; [exact Hs|].
  destruct (decide (s < length (subjects h))%nat) as [Hlt|Hge].
  - destruct (wf_pending h W s _ q (theSubject_lookup h s Hlt) Hq) as [E1 E2].
    split; [exact E1|]. rewrite E2. f_equal. exact E.
  - rewrite theSubject_dangling in Hq by lia. destruct Hq.
Qed.

Lemma In_concat_map {A B : Type} (f : A -> list B) (l : list A) (y : B) :
  In y (concat (map f l)) <-> exists x, In x l /\ In y (f x).
Proof.
  rewrite in_concat. split.
  - intros (ys & Hys & Hy). apply in_map_iff in Hys. destruct Hys as (x & <- & Hx). eauto.
  - intros (x & Hx & Hy). exists (f x). split; [apply in_map; exact Hx | exact Hy].
Qed.

(** X19. What [save] gathers. Left to its default, [save] takes the Subjects
    that were accessed through the Document, every one of them and each
    once. Whatever Subjects it is given, every statement it hands to the
    transport is a pending statement of one of them, about that Subject,
    in the graph of the Document saved. *)
Theorem save_gathers_the_document (h : Heap) (d : Addr) :
  wellFormed h -> (d < length (documents h))%nat ->
  (forall s, In s (relevant h (asRef h d) (subjectsOrAll h d None))
             <-> exists ref, lookupSubject ref (accessedSubjects (theDocument h d)) = Some s)
  /\ NoDup (relevant h (asRef h d) (subjectsOrAll h d None))
  /\ (forall chosen q,
        In q (allAdditions h d chosen ++ allDeletions h d chosen) ->
        graph q = sym (asRef h d)
        /\ exists s, In s (subjectsOrAll h d chosen)
                     /\ subject q = sym (asNodeRef h s)
                     /\ In q (fst (buffers h s) ++ snd (buffers h s))).
Proof.
  intros W Hd. pose proof (theDocument_lookup h d Hd) as Hdoc.
  rewrite (relevant_accessed h d W Hd). split; [|split].
  - intros s. split.
    + intros Hin. apply in_map_iff in Hin. destruct Hin as ([k a] & E & Hin).
      simpl in E. subst a. exists k.
      destruct (wf_accessed h W d _ k s Hdoc Hin) as (subj & Hs & E1 & E2).
      destruct (wf_subject h W s subj Hs) as (doc & Hdoc' & Hl).
      rewrite E2, Hdoc in Hdoc'. inversion Hdoc'; subst doc. rewrite <- E1. exact Hl.
    + intros (ref & Hl). apply in_map_iff. exists (ref, s). split; [reflexivity|].
      apply lookupSubject_In, Hl.
  - apply (NoDup_values (fun a => subjectRef (theSubject h a))).
    + exact (wf_keys h W d _ Hdoc).
    + intros k a Hin.
      destruct (wf_accessed h W d _ k a Hdoc Hin) as (subj & Hs & E & _).
      unfold theSubject. rewrite Hs. exact E.
  - intros chosen q. unfold allAdditions, allDeletions, buffers.
    rewrite gatherPending_concat. simpl. intros Hin.
    assert (Hex : exists s, In s (relevant h (asRef h d) (subjectsOrAll h d chosen))
                            /\ In q (pendingAdditions (theSubject h s)
                                     ++ pendingDeletions (theSubject h s))).
    { apply in_app_or in Hin. destruct Hin as [Hin|Hin];
        apply In_concat_map in Hin; destruct Hin as (s & Hs & Hq);
        exists s; (split; [exact Hs|]); apply in_or_app; auto. }
    destruct Hex as (s & Hs & Hq).
    destruct (relevant_pending h d _ s q W Hs Hq) as (H1 & H2 & H3).
    split; [exact H3|]. exists s. auto.
Qed.

Lemma wellFormed_staged : wellFormed Fixture.staged.
Proof.
  apply wellFormed_addLiteral.
  change Fixture.created
    with (snd (getSubject 0%nat Fixture.me
                          (snd (Document.createDocument Fixture.doc emptyHeap)))).
  apply wellFormed_getSubject; [simpl; lia|].
  apply wellFormed_Document_createDocument, wellFormed_emptyHeap.
Qed.

(** On the Document with a name staged on [me]: the Subject is taken, and what
    is gathered is in the graph of the Document. *)
Lemma save_gathers_the_document_witness :
  In 0%nat (relevant Fixture.staged (asRef Fixture.staged 0%nat)
                     (subjectsOrAll Fixture.staged 0%nat None))
  /\ (forall q, In q (allAdditions Fixture.staged 0%nat None
                      ++ allDeletions Fixture.staged 0%nat None) ->
                graph q = sym Fixture.doc).
Proof.
  pose (H := save_gathers_the_document Fixture.staged 0%nat wellFormed_staged
               ltac:(simpl; lia)).
  split.
  - exact (proj2 (proj1 H 0%nat) (ex_intro _ Fixture.me eq_refl)).
  - intros q Hq. exact (proj1 (proj2 (proj2 H) None q Hq)).
Defined.

(* ===================================================================== *)
(** * After a [save] *)
(* ===================================================================== *)

Lemma onSave_keeps (h : Heap) (s : Addr) :
  documents (onSave s h) = documents h /\ metadatas (onSave s h) = metadatas h
  /\ store (onSave s h) = store h
  /\ forall s0, subjectRef (theSubject (onSave s h) s0) = subjectRef (theSubject h s0)
                /\ document (theSubject (onSave s h) s0) = document (theSubject h s0).
Proof.
  unfold onSave. repeat split; rewrite theSubject_setSubject;
    destruct (decide _) as [[-> _]|_]; reflexivity.
Qed.

Lemma fold_onSave_keeps (l : list Addr) (h : Heap) :
  let h' := fold_left (fun h subject => onSave subject h) l h in
  documents h' = documents h /\ metadatas h' = metadatas h /\ store h' = store h
  /\ forall s0, subjectRef (theSubject h' s0) = subjectRef (theSubject h s0)
                /\ document (theSubject h' s0) = document (theSubject h s0).
Proof.
  revert h. induction l as [|s l IH]; intros h; simpl; [repeat split|].
  destruct (IH (onSave s h)) as (H1 & H2 & H3 & H4).
  destruct (onSave_keeps h s) as (K1 & K2 & K3 & K4).
  split; [congruence|]. split; [congruence|]. split; [congruence|].
  intros s0. destruct (H4 s0) as [E1 E2]. destruct (K4 s0) as [E3 E4].
  split; congruence.
Qed.

(** [save] of the first generation makes no Document and moves no
    Subject to another Document or Reference. *)
Lemma StoreDocument_save_keeps (env : StoreDocument.Collaborators) (d : Addr)
    (chosen : option (list Addr)) (h : Heap) :
  let h' := fst (StoreDocument.save env d chosen h) in
  documents h' = documents h
  /\ forall s0, subjectRef (theSubject h' s0) = subjectRef (theSubject h s0)
                /\ document (theSubject h' s0) = document (theSubject h s0).
Proof.
  cbv zeta. unfold StoreDocument.save.
  destruct (gatherPending h _) as [dels adds].
  destruct (negb _).
  - destruct (StoreDocument.create env _ _ adds) as [[e|response] store']; simpl.
    + split; [reflexivity | intros; split; reflexivity].
    + match goal with |- context [fold_left _ ?l ?h0] =>
        destruct (fold_onSave_keeps l h0) as (H1 & _ & _ & H4) end.
      cbv zeta in H1, H4. split.
      * rewrite H1. destruct (truthyRef _); reflexivity.
      * intros s0. destruct (H4 s0) as [-> ->].
        destruct (truthyRef _); split; reflexivity.
  - destruct (StoreDocument.update env _ dels adds) as [[e|[]] store']; simpl.
    + split; [reflexivity | intros; split; reflexivity].
    + match goal with |- context [fold_left _ ?l ?h0] =>
        destruct (fold_onSave_keeps l h0) as (H1 & _ & _ & H4) end.
      cbv zeta in H1, H4. split; [exact H1|]. intros s0. destruct (H4 s0) as [-> ->].
      split; reflexivity.
Qed.

Lemma relevant_same (h h' : Heap) (ref : Reference) (l : list Addr) :
  documents h' = documents h ->
  (forall s0, document (theSubject h' s0) = document (theSubject h s0)) ->
  relevant h' ref l = relevant h ref l.
Proof.
  intros Hd Hs. unfold relevant. apply List.filter_ext. intros s.
  unfold getDocument. rewrite Hs, (asRef_same_documents h h' _ Hd). reflexivity.
Qed.

Lemma subjectsOrAll_same (h h' : Heap) (d : Addr) (chosen : option (list Addr)) :
  documents h' = documents h -> subjectsOrAll h' d chosen = subjectsOrAll h d chosen.
Proof. intros Hd. unfold subjectsOrAll, theDocument. rewrite Hd. reflexivity. Qed.

Lemma concat_nil {A B : Type} (f : A -> list B) (l : list A) :
  (forall x, In x l -> f x = []) -> concat (map f l) = [].
Proof.
  induction l as [|x l IH]; simpl; intros H; [reflexivity|].
  rewrite (H x (or_introl eq_refl)), IH; [reflexivity|]. intros y Hy. apply H. right. exact Hy.
Qed.

Lemma theMetadata_same (h h' : Heap) (a : Addr) :
  metadatas h' = metadatas h -> theMetadata h' a = theMetadata h a.
Proof. intros H. unfold theMetadata. rewrite H. reflexivity. Qed.

Lemma theDocument_same (h h' : Heap) (d : Addr) :
  documents h' = documents h -> theDocument h' d = theDocument h d.
Proof. intros H. unfold theDocument. rewrite H. reflexivity. Qed.

(** The metadata after a successful [save] of the first generation: what
    it was when the Document existed, and otherwise what an assignment of
    [existsOnPod] left. *)
Lemma StoreDocument_save_metadatas (env : StoreDocument.Collaborators) (d : Addr)
    (chosen : option (list Addr)) (h : Heap) (persisted : list Addr) :
  snd (StoreDocument.save env d chosen h) = inr persisted ->
  if saved h d
  then metadatas (fst (StoreDocument.save env d chosen h)) = metadatas h
  else exists h2, length (metadatas h2) = length (metadatas h)
                  /\ metadatas (fst (StoreDocument.save env d chosen h))
                     = metadatas (assignExistsOnPod (metadata (theDocument h d)) true h2).
Proof.
  unfold saved, StoreDocument.save.
  destruct (gatherPending h _) as [dels adds].
  destruct (truthyBool _); simpl.
  - destruct (StoreDocument.update env _ dels adds) as [[e|[]] store']; simpl;
      [discriminate|]. intros _.
    match goal with |- context [fold_left _ ?l ?h0] =>
      destruct (fold_onSave_keeps l h0) as (_ & H2 & _) end.
    exact H2.
  - destruct (StoreDocument.create env _ _ adds) as [[e|response] store']; simpl;
      [discriminate|]. intros _.
    match goal with |- context [fold_left _ ?l (assignExistsOnPod ?a true ?h0)] =>
      destruct (fold_onSave_keeps l (assignExistsOnPod a true h0)) as (_ & H2 & _);
      exists h0 end.
    split; [|exact H2].
    destruct (truthyRef _); [rewrite (proj1 (length_assign _ _))|]; reflexivity.
Qed.

(** A successful [save] of the first generation leaves the Document
    marked as existing on the Pod. *)
Lemma StoreDocument_save_saved (env : StoreDocument.Collaborators) (d : Addr)
    (chosen : option (list Addr)) (h : Heap) (persisted : list Addr) :
  snd (StoreDocument.save env d chosen h) = inr persisted ->
  (metadata (theDocument h d) < length (metadatas h))%nat ->
  saved (fst (StoreDocument.save env d chosen h)) d = true.
Proof.
  intros Hok Hm. pose proof (StoreDocument_save_metadatas env d chosen h persisted Hok) as H.
  unfold saved at 1.
  rewrite (theDocument_same _ _ d (proj1 (StoreDocument_save_keeps env d chosen h))).
  destruct (saved h d) eqn:Hs.
  - rewrite (theMetadata_same _ _ _ H). exact Hs.
  - destruct H as (h2 & Hlen & H). rewrite (theMetadata_same _ _ _ H).
    rewrite (proj2 (proj2 (theMetadata_assign h2 (metadata (theDocument h d)) ltac:(lia)))).
    reflexivity.
Qed.

(** X20. After a successful [save] that returns the saved Subjects, a second
    [save] of the same Subjects has nothing to write: it gathers no
    addition and no deletion, and, the Document being marked as existing on
    the Pod, it is an update. *)
Theorem StoreDocument_save_twice (env : StoreDocument.Collaborators) (d : Addr)
    (chosen : option (list Addr)) (h : Heap) (persisted : list Addr) :
  wellFormed h -> (d < length (documents h))%nat ->
  snd (StoreDocument.save env d chosen h) = inr persisted ->
  let h' := fst (StoreDocument.save env d chosen h) in
  allAdditions h' d chosen = [] /\ allDeletions h' d chosen = []
  /\ saved h' d = true.
Proof.
  intros W Hd Hok. cbv zeta.
  destruct (StoreDocument_save_keeps env d chosen h) as [Hdocs Hsubj]. cbv zeta in Hdocs, Hsubj.
  assert (Hrel : relevant (fst (StoreDocument.save env d chosen h))
                          (asRef (fst (StoreDocument.save env d chosen h)) d)
                          (subjectsOrAll (fst (StoreDocument.save env d chosen h)) d chosen)
                 = relevant h (asRef h d) (subjectsOrAll h d chosen)).
  { rewrite (asRef_same_documents _ _ d Hdocs), (subjectsOrAll_same _ _ d chosen Hdocs).
    apply relevant_same; [exact Hdocs | intros s0; apply Hsubj]. }
  assert (Hbuf : forall s, In s (relevant h (asRef h d) (subjectsOrAll h d chosen)) ->
                           buffers (fst (StoreDocument.save env d chosen h)) s = ([], [])).
  { intros s Hs. rewrite StoreDocument_save_buffers, Hok.
    rewrite bool_decide_eq_true_2; [reflexivity|]. apply list_elem_of_In. exact Hs. }
  unfold allAdditions, allDeletions. rewrite Hrel, gatherPending_concat. simpl.
  split; [|split].
  - apply concat_nil. intros s Hs. specialize (Hbuf s Hs). unfold buffers in Hbuf. congruence.
  - apply concat_nil. intros s Hs. specialize (Hbuf s Hs). unfold buffers in Hbuf. congruence.
  - apply (StoreDocument_save_saved env d chosen h persisted Hok).
    exact (wf_metadata h W d _ (theDocument_lookup h d Hd)).
Qed.

Lemma wellFormed_freshStore : wellFormed Fixture.freshStore.
Proof.
  apply (wellFormed_StoreDocument_createDocument Fixture.doc emptyHeap _ 0%nat);
    [reflexivity | exact wellFormed_emptyHeap].
Qed.

Lemma wellFormed_stagedStore : wellFormed Fixture.stagedStore.
Proof.
  apply wellFormed_addLiteral, wellFormed_getSubject; [simpl; lia|].
  exact wellFormed_freshStore.
Qed.

(** On the Document with a name staged on [me], saved by a transport that
    accepts. *)
Lemma StoreDocument_save_twice_witness :
  let h' := fst (StoreDocument.save Fixture.acceptingStore 0%nat None Fixture.stagedStore) in
  allAdditions Fixture.stagedStore 0%nat None <> []
  /\ allAdditions h' 0%nat None = [] /\ allDeletions h' 0%nat None = []
  /\ saved h' 0%nat = true.
Proof.
  split; [discriminate|].
  exact (StoreDocument_save_twice Fixture.acceptingStore 0%nat None Fixture.stagedStore
           [0%nat] wellFormed_stagedStore ltac:(simpl; lia) eq_refl).
Defined.

(** The metadata after a successful [save] of the second generation. *)
Lemma Document_save_metadatas (env : Document.Collaborators) (d : Addr)
    (chosen : option (list Addr)) (h h' : Heap) (d' : Addr) :
  Document.save env d chosen h = (h', inr d') ->
  if saved h d
  then metadatas h' = metadatas h
  else exists h2, length (metadatas h2) = length (metadatas h)
                  /\ metadatas h'
                     = metadatas (assignExistsOnPod (metadata (theDocument h d)) true h2).
Proof.
  unfold saved, Document.save.
  destruct (gatherPending h _) as [dels adds].
  destruct (truthyBool _); simpl.
  - destruct (Document.update env _ dels adds) as [e|[]]; [discriminate|].
    unfold Document.instantiateDocument, allocDocument. intros H. inversion H. reflexivity.
  - destruct (Document.create env _ adds) as [e|response]; [discriminate|].
    unfold Document.instantiateDocument, allocDocument. intros H. inversion H. simpl.
    eexists. split; [|reflexivity].
    destruct (truthyRef (headers_Updates_Via response));
      [rewrite (proj1 (proj2 (length_assign _ _)))|];
      (destruct (truthyRef _); [rewrite (proj1 (length_assign _ _))|]; reflexivity).
Qed.

(** X23. After a successful [save] that returns a new Document: the Document
    returned has the Reference of the Document saved and shares its
    metadata, so that both are marked as existing on the Pod and read the
    same ACL and WebSocket; it remembers no Subject, and a [save] of it
    gathers nothing. *)
Theorem Document_save_returns (env : Document.Collaborators) (d : Addr)
    (chosen : option (list Addr)) (h h' : Heap) (d' : Addr) :
  wellFormed h -> (d < length (documents h))%nat ->
  Document.save env d chosen h = (h', inr d') ->
  asRef h' d' = asRef h d
  /\ metadata (theDocument h' d') = metadata (theDocument h' d)
  /\ saved h' d' = true /\ saved h' d = true
  /\ getAclRef h' d' = getAclRef h' d /\ getWebSocketRef h' d' = getWebSocketRef h' d
  /\ accessedSubjects (theDocument h' d') = []
  /\ allAdditions h' d' None = [] /\ allDeletions h' d' None = [].
Proof.
  intros W Hd Hs.
  pose proof (wf_metadata h W d _ (theDocument_lookup h d Hd)) as Hm.
  pose proof (Document_save_metadatas env d chosen h h' d' Hs) as Hmeta.
  destruct (save_success env d chosen h h' d' Hs) as (-> & Hdocs & Hsubj & _).
  assert (Hnew : theDocument h' (length (documents h))
                 = mkDocument (asRef h d)
                     (Document.newTriples (getTriples h d) (allDeletions h d chosen)
                                          (allAdditions h d chosen))
                     (metadata (theDocument h d)) []).
  { unfold theDocument at 1. rewrite Hdocs, lookup_app_r by lia.
    rewrite Nat.sub_diag. reflexivity. }
  assert (Hold : theDocument h' d = theDocument h d).
  { unfold theDocument. rewrite Hdocs, lookup_app_l by exact Hd. reflexivity. }
  assert (Hsaved : truthyBool (existsOnPod (theMetadata h' (metadata (theDocument h d))))
                   = true).
  { destruct (saved h d) eqn:E.
    - rewrite (theMetadata_same _ _ _ Hmeta). exact E.
    - destruct Hmeta as (h2 & Hlen & Hmeta). rewrite (theMetadata_same _ _ _ Hmeta).
      rewrite (proj2 (proj2 (theMetadata_assign h2 (metadata (theDocument h d)) ltac:(lia)))).
      reflexivity. }
  unfold asRef, saved, getAclRef, getWebSocketRef, allAdditions, allDeletions,
    subjectsOrAll.
  rewrite Hnew, Hold. simpl.
  repeat split; try reflexivity; exact Hsaved.
Qed.

(** On the Document with a name staged on [me], saved by a transport that
    accepts. *)
Lemma Document_save_returns_witness :
  let h' := fst (Document.save Fixture.accepting 0%nat None Fixture.staged) in
  asRef h' 1%nat = Fixture.doc /\ saved h' 1%nat = true /\ saved h' 0%nat = true
  /\ allAdditions h' 1%nat None = [].
Proof.
  pose (H := Document_save_returns Fixture.accepting 0%nat None Fixture.staged _ 1%nat
               wellFormed_staged ltac:(simpl; lia) eq_refl).
  exact (conj (proj1 H)
          (conj (proj1 (proj2 (proj2 H)))
             (conj (proj1 (proj2 (proj2 (proj2 H))))
                   (proj1 (proj2 (proj2 (proj2 (proj2 (proj2 (proj2 (proj2 H))))))))))).
Defined.

(* ===================================================================== *)
(** * [fetchDocument] *)
(* ===================================================================== *)





(* ===================================================================== *)
(** * [findSubject] and [findSubjects] *)
(* ===================================================================== *)

(** The Subjects of a list of References: each is remembered by the
    Document under its Reference, and what was in the heap is unchanged. *)
Lemma getSubjects_remembers (refs : list Reference) (h : Heap) (d : Addr) :
  (d < length (documents h))%nat ->
  let l := fst (getSubjects d refs h) in
  let h' := snd (getSubjects d refs h) in
  Forall2 (fun ref s => lookupSubject ref (accessedSubjects (theDocument h' d)) = Some s)
          refs l
  /\ length (documents h') = length (documents h)
  /\ (forall ref s, lookupSubject ref (accessedSubjects (theDocument h d)) = Some s ->
                    lookupSubject ref (accessedSubjects (theDocument h' d)) = Some s)
  /\ store h' = store h /\ metadatas h' = metadatas h
  /\ (forall s0, (s0 < length (subjects h))%nat -> theSubject h' s0 = theSubject h s0)
  /\ (length (subjects h) <= length (subjects h'))%nat
  /\ (forall d0, documentRef (theDocument h' d0) = documentRef (theDocument h d0)
                 /\ triples (theDocument h' d0) = triples (theDocument h d0)
                 /\ metadata (theDocument h' d0) = metadata (theDocument h d0)).
Proof.
  revert h. induction refs as [|ref refs IH]; intros h Hd; cbv zeta; simpl.
  { split; [constructor|]. repeat split; auto. }
  pose proof (getSubject_remembers h d ref Hd) as Hr.
  pose proof (getSubject_documents_length h d ref) as Hlen.
  destruct (getSubject_frame h d ref) as (F1 & F2 & F3 & F4 & _ & F6).
  pose proof (fun ref0 s0 => getSubject_keeps_lookup h d d ref0 ref s0) as Hk.
  destruct (getSubject d ref h) as [s h1]. simpl in *.
  destruct (IH h1 ltac:(lia)) as (I1 & I2 & I3 & I4 & I5 & I6 & I7 & I8).
  destruct (getSubjects d refs h1) as [found h2]. simpl in *.
  split; [constructor; [apply I3; exact Hr | exact I1]|].
  split; [lia|]. split; [intros ref0 s0 H0; apply I3, Hk, H0|].
  split; [congruence|]. split; [congruence|].
  split; [intros s0 Hs0; rewrite I6 by lia; apply F3; exact Hs0|].
  split; [lia|].
  intros d0. destruct (I8 d0) as (A1 & A2 & A3). destruct (F4 d0) as (B1 & B2 & B3).
  repeat split; congruence.
Qed.

Lemma getSubjects_cached (refs : list Reference) (l : list Addr) (h : Heap) (d : Addr) :
  Forall2 (fun ref s => lookupSubject ref (accessedSubjects (theDocument h d)) = Some s)
          refs l ->
  getSubjects d refs h = (l, h).
Proof.
  induction 1 as [|ref s refs l Hl _ IH]; simpl; [reflexivity|].
  rewrite (getSubject_cached h d ref s Hl), IH. reflexivity.
Qed.

Lemma Forall2_map_eq {A B : Type} (f : A -> B) (g : B -> A -> Prop) (l : list A) (k : list B) :
  Forall2 (fun y x => g y x) k l -> (forall y x, g y x -> f x = y) -> map f l = k.
Proof.
  induction 1 as [|y x k l Hg _ IH]; intros Hf; simpl; [reflexivity|].
  rewrite (Hf y x Hg), IH by exact Hf. reflexivity.
Qed.

Lemma Forall2_Forall_right {A B : Type} (R : A -> B -> Prop) (P : B -> Prop)
    (l : list A) (k : list B) :
  Forall2 R l k -> (forall x y, R x y -> P y) -> Forall P k.
Proof.
  induction 1 as [|x y l k HR _ IH]; intros HP; constructor; [exact (HP x y HR)|].
  exact (IH HP).
Qed.

Lemma getSubjects_cached_each (refs : list Reference) (l : list Addr) (h : Heap) (d : Addr) :
  Forall2 (fun ref s => lookupSubject ref (accessedSubjects (theDocument h d)) = Some s)
          refs l ->
  l = map (fun ref => fst (getSubject d ref h)) refs
  /\ (forall ref, In ref refs -> snd (getSubject d ref h) = h).
Proof.
  induction 1 as [|ref s refs l Hl _ [IH1 IH2]]; simpl.
  - split; [reflexivity | intros ref []].
  - rewrite (getSubject_cached h d ref s Hl). simpl. split; [f_equal; exact IH1|].
    intros ref0 [<-|Hin]; [|exact (IH2 ref0 Hin)].
    rewrite (getSubject_cached h d ref s Hl). reflexivity.
Qed.

(** X15. The Subjects that [findSubjects] returns are the Subjects that
    [getSubject] returns for the References the query finds (ordinary keys,
    all of them), in the order of the query, blank nodes and Literals left
    out: each has its Reference and belongs to the Document. A second [findSubjects] returns the same
    Subjects and changes nothing. The store, the triples and the Subjects
    that were there are unchanged. [findSubject] returns the Subject of
    [getSubject] for the Reference its query finds, and otherwise [null],
    changing nothing. *)
Theorem findSubjects_are_the_subjects (findSubjectsInTriples : Document.FindEntitiesInTriples)
    (findSubjectInTriples : Document.FindEntityInTriples)
    (d : Addr) (predicateRef objectRef : Reference) (h : Heap) :
  wellFormed h -> (d < length (documents h))%nat ->
  let refs :=
    refsOf (List.filter isReference
              (findSubjectsInTriples (getTriples h d) predicateRef objectRef (asRef h d))) in
  Forall (fun ref => ordinaryKey ref = true) refs ->
  let l := fst (Document.findSubjects findSubjectsInTriples d predicateRef objectRef h) in
  let h' := snd (Document.findSubjects findSubjectsInTriples d predicateRef objectRef h) in
  map (asNodeRef h') l = refs
  /\ Forall (fun s => getDocument h' s = d) l
  /\ l = map (fun ref => fst (getSubject d ref h')) refs
  /\ (forall ref, In ref refs -> snd (getSubject d ref h') = h')
  /\ Document.findSubjects findSubjectsInTriples d predicateRef objectRef h' = (l, h')
  /\ store h' = store h /\ getTriples h' d = getTriples h d
  /\ (forall s0, (s0 < length (subjects h))%nat -> theSubject h' s0 = theSubject h s0)
  /\ match Document.findSubject findSubjectInTriples d predicateRef objectRef h with
     | (Some s, h1) =>
         findSubjectInTriples (getTriples h d) predicateRef objectRef (asRef h d)
         = Some (RefEntity (asNodeRef h1 s))
         /\ getDocument h1 s = d /\ getSubject d (asNodeRef h1 s) h = (s, h1)
     | (None, h1) => h1 = h
     end.
Proof.
  intros W Hd refs _ l h'.
  assert (El : Document.findSubjects findSubjectsInTriples d predicateRef objectRef h
               = getSubjects d refs h) by reflexivity.
  subst l h'. rewrite El.
  destruct (getSubjects_remembers refs h d Hd) as (R1 & R2 & R3 & R4 & R5 & R6 & R7 & R8).
  cbv zeta in *.
  pose proof (wellFormed_getSubjects refs h d Hd W) as W'.
  set (l := fst (getSubjects d refs h)) in *.
  set (h' := snd (getSubjects d refs h)) in *.
  assert (Hd' : (d < length (documents h'))%nat) by lia.
  assert (Hsub : forall ref s,
             lookupSubject ref (accessedSubjects (theDocument h' d)) = Some s ->
             asNodeRef h' s = ref /\ getDocument h' s = d).
  { intros ref s Hl.
    destruct (wf_accessed h' W' d _ ref s (theDocument_lookup h' d Hd')
                          (lookupSubject_In _ _ _ Hl)) as (subj & Hs & E1 & E2).
    unfold asNodeRef, getDocument, theSubject. rewrite Hs. auto. }
  split; [|split; [|split; [|split; [|split; [|split; [|split; [|split]]]]]]].
  - apply (Forall2_map_eq _ (fun ref s =>
             lookupSubject ref (accessedSubjects (theDocument h' d)) = Some s));
      [exact R1|]. intros ref s Hl. apply (Hsub ref s Hl).
  - apply (Forall2_Forall_right _ _ _ _ R1). intros ref s Hl. apply (Hsub ref s Hl).
  - exact (proj1 (getSubjects_cached_each refs l h' d R1)).
  - exact (proj2 (getSubjects_cached_each refs l h' d R1)).
  - unfold Document.findSubjects, Document.withDocumentPlural.
    destruct (R8 d) as (-> & -> & _).
    exact (getSubjects_cached refs l h' d R1).
  - exact R4.
  - unfold getTriples. apply R8.
  - exact R6.
  - unfold Document.findSubject, Document.withDocumentSingular.
    fold (getTriples h d). fold (asRef h d).
    destruct (findSubjectInTriples (getTriples h d) predicateRef objectRef (asRef h d))
      as [[[|c ref]|lit|b]|] eqn:Hf; simpl; try reflexivity.
    destruct (getSubject_subject h d (String c ref) W Hd) as (_ & E1 & E2).
    destruct (getSubject d (String c ref) h) as [s h1] eqn:Hg. simpl in *.
    unfold asNodeRef, getDocument. rewrite E1, E2. auto.
Qed.

(** A query that finds [me], a blank node and [you], on a new Document. *)
Lemma findSubjects_are_the_subjects_witness :
  let found := Document.findSubjects Fixture.findsThree 0%nat rdf.type "https://x.com/T"
                                     Fixture.fresh in
  map (asNodeRef (snd found)) (fst found) = [Fixture.me; Fixture.you]
  /\ Document.findSubjects Fixture.findsThree 0%nat rdf.type "https://x.com/T" (snd found)
     = found.
Proof.
  pose (H := findSubjects_are_the_subjects Fixture.findsThree Fixture.findsMe 0%nat rdf.type
               "https://x.com/T" Fixture.fresh
               (wellFormed_Document_createDocument Fixture.doc emptyHeap wellFormed_emptyHeap)
               ltac:(simpl; lia)
               (List.Forall_cons _ Fixture.me [Fixture.you] eq_refl
                  (List.Forall_cons _ Fixture.you [] eq_refl (List.Forall_nil _)))).
  exact (conj (proj1 H) (proj1 (proj2 (proj2 (proj2 (proj2 H)))))).
Defined.

(* ===================================================================== *)
(** * Invariants *)
(* ===================================================================== *)

Lemma wellFormed_findSubject (find : Document.FindEntityInTriples) (d : Addr)
    (p o : Reference) (h : Heap) :
  (d < length (documents h))%nat -> wellFormed h ->
  wellFormed (snd (Document.findSubject find d p o h)).
Proof.
  intros Hd W. unfold Document.findSubject.
  destruct (Document.withDocumentSingular find _ _ p o) as [[[|c ref]|lit|b]|];
    simpl; try exact W.
  pose proof (wellFormed_getSubject h d (String c ref) Hd W) as W1.
  destruct (getSubject d (String c ref) h) as [s h1]. exact W1.
Qed.

(** X17. The empty heap is well formed, and every operation on Documents and
    Subjects of the heap keeps the heap well formed: making and fetching a
    Document, getting, adding and finding Subjects, staging a Literal or a
    node, [onSave], and [save], whether the write succeeds or fails. *)
Theorem wellFormed_is_kept :
  wellFormed emptyHeap
  /\ (forall ref h, wellFormed h -> wellFormed (snd (Document.createDocument ref h)))
  /\ (forall ref h d h',
        StoreDocument.createDocument ref h = Some (d, h') -> wellFormed h -> wellFormed h')
  /\ (forall env uri h h' r,
        Document.fetchDocument env uri h = Some (h', r) -> wellFormed h -> wellFormed h')
  /\ (forall load env ref h,
        wellFormed h -> wellFormed (fst (StoreDocument.fetchDocument load env ref h)))
  /\ (forall h d ref,
        (d < length (documents h))%nat -> wellFormed h ->
        wellFormed (snd (getSubject d ref h)))
  /\ (forall h d identifierPrefix identifier,
        (d < length (documents h))%nat -> wellFormed h ->
        wellFormed (snd (addSubject d identifierPrefix identifier h)))
  /\ (forall find h d p o,
        (d < length (documents h))%nat -> wellFormed h ->
        wellFormed (snd (Document.findSubject find d p o h)))
  /\ (forall find h d p o,
        (d < length (documents h))%nat -> wellFormed h ->
        wellFormed (snd (Document.findSubjects find d p o h)))
  /\ (forall find h d p o,
        (d < length (documents h))%nat -> wellFormed h ->
        wellFormed (snd (StoreDocument.findSubjects find d p o h)))
  /\ (forall h s p v, wellFormed h -> wellFormed (addLiteral s p v h))
  /\ (forall h s p r, wellFormed h -> wellFormed (addNodeRef s p r h))
  /\ (forall h s, wellFormed h -> wellFormed (onSave s h))
  /\ (forall env d chosen h,
        wellFormed h -> wellFormed (fst (StoreDocument.save env d chosen h)))
  /\ (forall env d chosen h,
        (d < length (documents h))%nat -> wellFormed h ->
        wellFormed (fst (Document.save env d chosen h))).
Proof.
  split; [exact wellFormed_emptyHeap|].
  split; [exact wellFormed_Document_createDocument|].
  split; [intros ref h d h'; apply wellFormed_StoreDocument_createDocument|].
  split; [intros env uri h h' r; apply wellFormed_Document_fetchDocument|].
  split; [exact wellFormed_StoreDocument_fetchDocument|].
  split; [exact wellFormed_getSubject|].
  split; [intros h d pre id; apply wellFormed_getSubject|].
  split; [intros find h d p o; apply wellFormed_findSubject|].
  split; [intros find h d p o; apply wellFormed_getSubjects|].
  split; [intros find h d p o; apply wellFormed_getSubjects|].
  split; [exact wellFormed_addLiteral|].
  split; [exact wellFormed_addNodeRef|].
  split; [exact wellFormed_onSave|].
  split; [intros env d chosen h; apply wellFormed_StoreDocument_save|].
  intros env d chosen h. apply wellFormed_Document_save.
Qed.

(* --------------------------------------------------------------------- *)

Lemma noDeletions_same (h h' : Heap) :
  subjects h' = subjects h -> noDeletions h -> noDeletions h'.
Proof. intros Hs N s. unfold theSubject. rewrite Hs. apply N. Qed.

Lemma noDeletions_setSubject (h : Heap) (s : Addr) (subj : TripleSubject) :
  pendingDeletions subj = [] -> noDeletions h -> noDeletions (setSubject s subj h).
Proof.
  intros Hd N s0. rewrite theSubject_setSubject. destruct (decide _); [exact Hd | apply N].
Qed.

Lemma noDeletions_pushAddition (h : Heap) (s : Addr) (q : Quad) :
  noDeletions h -> noDeletions (pushAddition s q h).
Proof. intros N. apply noDeletions_setSubject; [apply N | exact N]. Qed.

Lemma noDeletions_onSave (h : Heap) (s : Addr) : noDeletions h -> noDeletions (onSave s h).
Proof. intros N. apply noDeletions_setSubject; [reflexivity | exact N]. Qed.

Lemma noDeletions_fold_onSave (l : list Addr) (h : Heap) :
  noDeletions h -> noDeletions (fold_left (fun h subject => onSave subject h) l h).
Proof.
  revert h. induction l as [|s l IH]; intros h N; simpl; [exact N|].
  apply IH, noDeletions_onSave, N.
Qed.

Lemma noDeletions_getSubject (h : Heap) (d : Addr) (ref : Reference) :
  noDeletions h -> noDeletions (snd (getSubject d ref h)).
Proof.
  intros N. unfold getSubject. destruct (lookupSubject _ _); [exact N|]. simpl.
  intros s0. unfold theSubject. simpl.
  destruct (decide (s0 < length (subjects h))%nat) as [Hlt|Hge].
  - rewrite lookup_app_l by exact Hlt. apply N.
  - rewrite lookup_app_r by lia.
    destruct (s0 - length (subjects h))%nat as [|[|n]]; reflexivity.
Qed.

Lemma noDeletions_getSubjects (refs : list Reference) (h : Heap) (d : Addr) :
  noDeletions h -> noDeletions (snd (getSubjects d refs h)).
Proof.
  revert h. induction refs as [|ref refs IH]; intros h N; simpl; [exact N|].
  pose proof (noDeletions_getSubject h d ref N) as N1.
  destruct (getSubject d ref h) as [s h1]. simpl in N1.
  specialize (IH h1 N1). destruct (getSubjects d refs h1) as [found h2]. exact IH.
Qed.

Lemma noDeletions_StoreDocument_save (env : StoreDocument.Collaborators) (d : Addr)
    (chosen : option (list Addr)) (h : Heap) :
  noDeletions h -> noDeletions (fst (StoreDocument.save env d chosen h)).
Proof.
  intros N. unfold StoreDocument.save.
  destruct (gatherPending h _) as [dels adds].
  destruct (negb _).
  - destruct (StoreDocument.create env _ _ adds) as [[e|response] store']; simpl.
    + apply (noDeletions_same h); [reflexivity | exact N].
    + apply noDeletions_fold_onSave. apply (noDeletions_same h); [|exact N].
      destruct (truthyRef _); reflexivity.
  - destruct (StoreDocument.update env _ dels adds) as [[e|[]] store']; simpl.
    + apply (noDeletions_same h); [reflexivity | exact N].
    + apply noDeletions_fold_onSave. apply (noDeletions_same h); [reflexivity | exact N].
Qed.

(** X18. [subject.ts] has no operation that stages a deletion. On the heaps
    made by the Documents that work with it, from the empty heap, no
    Subject ever has a pending deletion, and the deletions that [save]
    hands to [update] are none. *)
Theorem no_deletion_is_staged :
  noDeletions emptyHeap
  /\ (forall ref h d h',
        StoreDocument.createDocument ref h = Some (d, h') -> noDeletions h -> noDeletions h')
  /\ (forall load env ref h,
        noDeletions h -> noDeletions (fst (StoreDocument.fetchDocument load env ref h)))
  /\ (forall h d ref, noDeletions h -> noDeletions (snd (getSubject d ref h)))
  /\ (forall h d identifierPrefix identifier,
        noDeletions h -> noDeletions (snd (addSubject d identifierPrefix identifier h)))
  /\ (forall find h d p o,
        noDeletions h -> noDeletions (snd (StoreDocument.findSubjects find d p o h)))
  /\ (forall h s p v, noDeletions h -> noDeletions (addLiteral s p v h))
  /\ (forall h s p r, noDeletions h -> noDeletions (addNodeRef s p r h))
  /\ (forall h s, noDeletions h -> noDeletions (onSave s h))
  /\ (forall env d chosen h,
        noDeletions h -> noDeletions (fst (StoreDocument.save env d chosen h)))
  /\ (forall h d chosen, noDeletions h -> allDeletions h d chosen = []).
Proof.
  split; [intros s; reflexivity|].
  split.
  { intros ref h d h'. unfold StoreDocument.createDocument, StoreDocument.instantiateDocument.
    simpl. destruct (URL.parse ref); [|discriminate]. intros H N. inversion H; subst.
    apply (noDeletions_same h); [reflexivity | exact N]. }
  split.
  { intros load env ref h N. unfold StoreDocument.fetchDocument.
    destruct (load (store h) ref) as [[e|response] store']; simpl.
    - apply (noDeletions_same h); [reflexivity | exact N].
    - unfold StoreDocument.instantiateDocument. destruct (URL.parse ref); simpl;
        (apply (noDeletions_same h); [reflexivity | exact N]). }
  split; [exact noDeletions_getSubject|].
  split; [intros h d pre id; apply noDeletions_getSubject|].
  split; [intros find h d p o; apply noDeletions_getSubjects|].
  split; [intros h s p v; apply noDeletions_pushAddition|].
  split; [intros h s p r; apply noDeletions_pushAddition|].
  split; [exact noDeletions_onSave|].
  split; [exact noDeletions_StoreDocument_save|].
  intros h d chosen N. unfold allDeletions. rewrite gatherPending_concat. simpl.
  apply concat_nil. intros s _. apply N.
Qed.

(* ===================================================================== *)
(** * The getters, once more *)
(* ===================================================================== *)

Lemma find_isNodeRef_first (pre post : list Entity) (ref : Reference) :
  Forall (fun o => isNodeRef o = false) pre ->
  find_ isNodeRef (pre ++ RefEntity ref :: post) = Some (RefEntity ref).
Proof.
  induction 1 as [|o pre Ho _ IH]; simpl.
  - reflexivity.
  - rewrite Ho. exact IH.
Qed.

Lemma find_isNodeRef_none (objects : list Entity) :
  Forall (fun o => isNodeRef o = false) objects -> find_ isNodeRef objects = None.
Proof.
  induction 1 as [|o objects Ho _ IH]; simpl.
  - reflexivity.
  - rewrite Ho. exact IH.
Qed.

(** X1. [getNodeRef] returns the first Reference among the objects [get]
    finds, whatever Literals and blank nodes stand before or after it, and
    [null] when none of them is a Reference; [getType] does so for the
    objects of [rdf:type]. *)
Theorem getNodeRef_first_reference (h : Heap) (s : Addr) (predicateNode : NodeRef) :
  (forall pre ref post,
      get h s predicateNode = pre ++ RefEntity ref :: post ->
      Forall (fun o => isNodeRef o = false) pre ->
      getNodeRef h s predicateNode = Some ref)
  /\ (Forall (fun o => isNodeRef o = false) (get h s predicateNode) ->
      getNodeRef h s predicateNode = None)
  /\ (forall pre ref post,
        get h s rdf.type = pre ++ RefEntity ref :: post ->
        Forall (fun o => isNodeRef o = false) pre ->
        getType h s = Some ref)
  /\ (Forall (fun o => isNodeRef o = false) (get h s rdf.type) -> getType h s = None).
Proof.
  unfold getType, getNodeRef. repeat split.
  - intros pre ref post -> Hpre. rewrite find_isNodeRef_first by exact Hpre. reflexivity.
  - intros Hnone. rewrite find_isNodeRef_none by exact Hnone. reflexivity.
  - intros pre ref post -> Hpre. rewrite find_isNodeRef_first by exact Hpre. reflexivity.
  - intros Hnone. rewrite find_isNodeRef_none by exact Hnone. reflexivity.
Qed.

(** On the store of the tests: a node before a Literal, and a Literal alone.
    *)
Lemma getNodeRef_first_reference_witness :
  getNodeRef Fixture.pod 0%nat Fixture.mockPredicate = Some Fixture.mockObjectNode
  /\ getNodeRef Fixture.pod 2%nat Fixture.mockPredicate = None.
Proof.
  split.
  - exact (proj1 (getNodeRef_first_reference Fixture.pod 0%nat Fixture.mockPredicate)
                 [] Fixture.mockObjectNode [LiteralEntity Fixture.mockObjectLiteral]
                 eq_refl (List.Forall_nil _)).
  - exact (proj1 (proj2 (getNodeRef_first_reference Fixture.pod 2%nat Fixture.mockPredicate))
                 (List.Forall_cons _ (LiteralEntity Fixture.mockObjectBoolean) [] eq_refl
                    (List.Forall_nil _))).
Defined.

Lemma head_literals (objects : list Entity) :
  match find_ isLiteral objects with
  | Some (LiteralEntity firstLiteral) => Some (fromLiteral firstLiteral)
  | _ => None
  end
  = head (map fromLiteral (literalsOf (List.filter isLiteral objects))).
Proof.
  induction objects as [|o objects IH]; [reflexivity|].
  destruct o as [r|l|b]; simpl; try exact IH. reflexivity.
Qed.

Lemma head_refs (objects : list Entity) :
  match find_ isNodeRef objects with
  | Some (RefEntity firstNodeRef) => Some firstNodeRef
  | _ => None
  end
  = head (refsOf (List.filter isNodeRef objects)).
Proof.
  induction objects as [|o objects IH]; [reflexivity|].
  destruct o as [r|l|b]; simpl; try exact IH. reflexivity.
Qed.

(** X2. The getters of one value return the first of what the getters of all
    values return, and [null] when those return nothing. *)
Theorem getters_of_one_and_of_all (h : Heap) (s : Addr) (predicateNode : NodeRef) :
  getLiteral h s predicateNode = head (getAllLiterals h s predicateNode)
  /\ getNodeRef h s predicateNode = head (getAllNodeRefs h s predicateNode)
  /\ getType h s = head (getAllNodeRefs h s rdf.type).
Proof.
  unfold getType, getLiteral, getAllLiterals, getNodeRef, getAllNodeRefs.
  split; [apply head_literals|]. split; apply head_refs.
Qed.

Lemma refsOf_filter (objects : list Entity) :
  refsOf (List.filter isNodeRef objects) = refsOf objects.
Proof.
  induction objects as [|o objects IH]; [reflexivity|].
  destruct o as [r|l|b]; simpl; try exact IH.
  unfold refsOf in *. simpl. rewrite IH. reflexivity.
Qed.

Lemma objects_partition (objects : list Entity) :
  (length (literalsOf objects) + length (refsOf objects)
   + length (List.filter isBlankNode objects))%nat = length objects.
Proof.
  induction objects as [|o objects IH]; [reflexivity|].
  unfold literalsOf, refsOf, omap in *. destruct o as [r|l|b]; simpl in *; lia.
Qed.

Lemma blank_objects (objects : list Entity) :
  Forall (fun o => isBlankNode o = true) objects ->
  find_ isLiteral objects = None /\ literalsOf objects = []
  /\ find_ isNodeRef objects = None /\ refsOf objects = [].
Proof.
  induction 1 as [|o objects Ho _ IH]; [repeat split|].
  destruct o as [r|l|b]; try discriminate. exact IH.
Qed.

(** X3. Every object [get] finds is a Literal, a Reference or a blank node;
    [getAllLiterals] returns the Literals, decoded, and [getAllNodeRefs] the
    References, both in the order of the objects. A blank node is returned
    by no getter: when every object is one, the four getters find nothing. *)
Theorem getters_leave_out_blank_nodes (h : Heap) (s : Addr) (predicateNode : NodeRef) :
  getAllLiterals h s predicateNode = map fromLiteral (literalsOf (get h s predicateNode))
  /\ getAllNodeRefs h s predicateNode = refsOf (get h s predicateNode)
  /\ (length (getAllLiterals h s predicateNode) + length (getAllNodeRefs h s predicateNode)
      + length (List.filter isBlankNode (get h s predicateNode)))%nat
     = length (get h s predicateNode)
  /\ (Forall (fun o => isBlankNode o = true) (get h s predicateNode) ->
      getLiteral h s predicateNode = None /\ getAllLiterals h s predicateNode = []
      /\ getNodeRef h s predicateNode = None /\ getAllNodeRefs h s predicateNode = []).
Proof.
  assert (E1 := getAllLiterals_literalsOf h s predicateNode).
  assert (E2 : getAllNodeRefs h s predicateNode = refsOf (get h s predicateNode))
    by (unfold getAllNodeRefs; apply refsOf_filter).
  split; [exact E1|]. split; [exact E2|]. split.
  - rewrite E1, E2, length_map. apply objects_partition.
  - intros Hb. unfold getLiteral, getNodeRef. rewrite E1, E2.
    destruct (blank_objects _ Hb) as (B1 & B2 & B3 & B4).
    rewrite B1, B2, B3, B4. repeat split.
Qed.

(** On the store of the tests: a node and a Literal, and no blank node. *)
Lemma getters_leave_out_blank_nodes_witness :
  (length (getAllLiterals Fixture.pod 0%nat Fixture.mockPredicate)
   + length (getAllNodeRefs Fixture.pod 0%nat Fixture.mockPredicate) + 0)%nat = 2%nat.
Proof.
  exact (proj1 (proj2 (proj2
           (getters_leave_out_blank_nodes Fixture.pod 0%nat Fixture.mockPredicate)))).
Defined.

(* ===================================================================== *)
(** * The guards of [index.ts] and the decoder *)
(* ===================================================================== *)


(* ===================================================================== *)
(** * Lexical forms that are not canonical *)
(* ===================================================================== *)

Lemma parseInt_leading_digits (ds : uint) (rest : string) :
  ds <> Nil -> startsWithDigit rest = false ->
  JS.parseInt (JS.digitsString ds +:+ rest) = JS.Int (Z.of_N (N.of_uint ds))
  /\ JS.parseInt ("-" +:+ JS.digitsString ds +:+ rest) = JS.Int (- Z.of_N (N.of_uint ds)).
Proof.
  intros Hds Hrest. destruct (digits_unsigned ds rest Hds) as [Ht Hs].
  split.
  - unfold JS.parseInt. rewrite Ht, Hs, (spanDigits_digits ds rest Hrest).
    destruct ds; try contradiction; f_equal; lia.
  - unfold JS.parseInt. change ("-" +:+ JS.digitsString ds +:+ rest)
      with (String "-" (JS.digitsString ds +:+ rest)).
    change (JS.trimStart (String "-" (JS.digitsString ds +:+ rest)))
      with (String "-" (JS.digitsString ds +:+ rest)).
    change (JS.sign (String "-" (JS.digitsString ds +:+ rest)))
      with (true, JS.digitsString ds +:+ rest).
    cbv iota beta. rewrite (spanDigits_digits ds rest Hrest).
    destruct ds; try contradiction; f_equal; lia.
Qed.

(** X5. An integer Literal is read up to its first character that is no
    digit: what follows the leading digits (a fraction, an exponent, a
    unit) is ignored, without an error. The digits are those of a safe
    integer, which a Number holds exactly. *)
Theorem integer_literal_reads_leading_digits (ds : uint) (rest lang : string) :
  ds <> Nil -> Z.of_N (N.of_uint ds) <= JS.MAX_SAFE_INTEGER ->
  startsWithDigit rest = false ->
  fromLiteral (mkLiteral (JS.digitsString ds +:+ rest) lang XSD.integer)
  = LNumber (JS.Int (Z.of_N (N.of_uint ds)))
  /\ fromLiteral (mkLiteral ("-" +:+ JS.digitsString ds +:+ rest) lang XSD.integer)
     = LNumber (JS.Int (- Z.of_N (N.of_uint ds))).
Proof.
  intros Hds _ Hrest. destruct (parseInt_leading_digits ds rest Hds Hrest) as [E1 E2].
  unfold fromLiteral. simpl. rewrite E1, E2. split; reflexivity.
Qed.

(** The lexical forms [12.7] and [-1e3]. *)
Lemma integer_literal_reads_leading_digits_witness :
  fromLiteral (mkLiteral "12.7" "" XSD.integer) = LNumber (JS.Int 12)
  /\ fromLiteral (mkLiteral "-1e3" "" XSD.integer) = LNumber (JS.Int (-1)).
Proof.
  split.
  - exact (proj1 (integer_literal_reads_leading_digits (D1 (D2 Nil)) ".7" ""
                    ltac:(discriminate) ltac:(vm_compute; discriminate) eq_refl)).
  - exact (proj2 (integer_literal_reads_leading_digits (D1 Nil) "e3" ""
                    ltac:(discriminate) ltac:(vm_compute; discriminate) eq_refl)).
Defined.

(* ===================================================================== *)
(** * Decoding a dateTime *)
(* ===================================================================== *)

Section DateFacts.

Import JS.

Ltac divlia := Z.to_euclidean_division_equations; lia.

Lemma TimeClip_whole (t : Z) : t mod 1000 = 0 -> wholeSeconds (TimeClip t).
Proof.
  intros Ht. unfold TimeClip. destruct (Z.abs t <=? 8640000000000000) eqn:E; simpl; [|exact I].
  apply Z.leb_le in E. auto.
Qed.

Lemma setUTCFullYear_whole (d : Date) (x : Number) :
  wholeSeconds d -> wholeSeconds (setUTCFullYear d x).
Proof.
  intros Hd. unfold setUTCFullYear. destruct (toInteger x) as [y|]; [|exact I].
  apply TimeClip_whole.
  assert (Ht : (match d with Some t => t | None => 0 end) mod 1000 = 0)
    by (destruct d as [t|]; [apply Hd | reflexivity]).
  revert Ht. generalize (match d with Some t => t | None => 0 end). intros t Ht.
  unfold MakeDate, TimeWithinDay, msPerDay.
  generalize (MakeDay y (MonthFromTime t) (DateFromTime t)). intros day. divlia.
Qed.

Lemma setter_whole (f : Z -> Z -> Z) (d : Date) (x : Number) :
  (forall t v, t mod 1000 = 0 -> f t v mod 1000 = 0) ->
  wholeSeconds d -> wholeSeconds (setter f d x).
Proof.
  intros Hf Hd. unfold setter. destruct d as [t|]; [|exact I].
  destruct (toInteger x) as [v|]; [|exact I].
  apply TimeClip_whole, Hf, Hd.
Qed.

Lemma setters_whole (d : Date) (x : Number) :
  wholeSeconds d ->
  wholeSeconds (setUTCMonth d x) /\ wholeSeconds (setUTCDate d x)
  /\ wholeSeconds (setUTCHours d x) /\ wholeSeconds (setUTCMinutes d x)
  /\ wholeSeconds (setUTCSeconds d x).
Proof.
  intros Hd. repeat split; apply setter_whole; try exact Hd; intros t v Ht;
    unfold MakeDate, MakeTime, TimeWithinDay, Day, HourFromTime, MinFromTime,
      SecFromTime, msFromTime, msPerDay, msPerHour, msPerMinute, msPerSecond.
  - generalize (MakeDay (YearFromTime t) v (DateFromTime t)). intros day. divlia.
  - generalize (MakeDay (YearFromTime t) (MonthFromTime t) v). intros day. divlia.
  - divlia.
  - divlia.
  - divlia.
Qed.




End DateFacts.

(** X6. A dateTime Literal is always decoded to a Date, and the Date is
    invalid or a whole number of seconds: [fromLiteral] never yields
    milliseconds, whatever the lexical form. *)
Theorem dateTime_whole_seconds (v lang : string) :
  exists date,
    fromLiteral (mkLiteral v lang XSD.dateTime) = LDate date /\ wholeSeconds date.
Proof.
  unfold fromLiteral. simpl. eexists. split; [reflexivity|].
  apply setters_whole, setters_whole, setters_whole, setters_whole, setters_whole.
  apply setUTCFullYear_whole. simpl. split; [reflexivity | lia].
Qed.



Section SubstringFacts.

Import JS.

Lemma substring_length (n : nat) (s : string) :
  String.length (String.substring 0 n s) = Nat.min n (String.length s).
Proof.
  revert n. induction s as [|c s IH]; intros [|n]; simpl; try reflexivity.
  rewrite IH. reflexivity.
Qed.

Lemma substring_all (n : nat) (s : string) :
  (String.length s <= n)%nat -> String.substring 0 n s = s.
Proof.
  revert n. induction s as [|c s IH]; intros [|n] H; simpl in *; try reflexivity; try lia.
  rewrite IH by lia. reflexivity.
Qed.

(** A part of the first [n] characters is a part of the string. *)
Lemma substring_of_prefix (i j n : nat) (s : string) :
  (i + j <= n)%nat ->
  String.substring i j (String.substring 0 n s) = String.substring i j s.
Proof.
  revert i j n. induction s as [|c s IH]; intros i j n H.
  - destruct n; reflexivity.
  - destruct n as [|n].
    + assert (i = 0%nat) by lia. assert (j = 0%nat) by lia. subst. reflexivity.
    + destruct i as [|i]; simpl.
      * destruct j as [|j]; [reflexivity|]. rewrite (IH 0%nat j n) by lia. reflexivity.
      * apply IH. lia.
Qed.

Lemma occurs_substring (c : ascii) (i j : nat) (s : string) :
  occurs c s = false -> occurs c (String.substring i j s) = false.
Proof.
  revert i j. induction s as [|a s IH]; intros i j H.
  - destruct i, j; reflexivity.
  - simpl in H. apply orb_false_iff in H. destruct H as [Ha Hs].
    destruct i as [|i]; simpl.
    + destruct j as [|j]; [reflexivity|]. simpl. rewrite Ha. apply IH, Hs.
    + apply IH, Hs.
Qed.

Lemma indexOf_absent (c : ascii) (s : string) :
  occurs c s = false -> indexOf s (String c "") = -1.
Proof.
  intros H. unfold indexOf.
  assert (E : String.index 0 (String c "") s = None).
  { induction s as [|a s IH]; [reflexivity|].
    simpl in H. apply orb_false_iff in H. destruct H as [Ha Hs].
    cbn [String.index String.prefix].
    destruct (ascii_dec c a) as [->|_].
    - rewrite Ascii.eqb_refl in Ha. discriminate.
    - rewrite (IH Hs). reflexivity. }
  rewrite E. reflexivity.
Qed.

(** With an end that is not found, [substring] runs from the start. *)
Lemma substring_from_start (s : string) (n : Z) :
  0 <= n -> substring s n (-1) = substring s 0 n.
Proof.
  intros Hn. unfold substring. cbv zeta. f_equal; f_equal; lia.
Qed.

Lemma JS_substring_of_prefix (s : string) (a b n : Z) :
  0 <= a <= b -> b <= n ->
  substring (substring s 0 n) a b = substring s a b.
Proof.
  intros Ha Hb. unfold substring at 1 3. cbv zeta.
  assert (El : strlen (substring s 0 n) = Z.min n (strlen s)).
  { unfold substring, strlen. cbv zeta.
    replace (Z.to_nat (Z.min (Z.min (Z.max 0 0) (Z.of_nat (String.length s)))
                             (Z.min (Z.max n 0) (Z.of_nat (String.length s)))))
      with 0%nat by lia.
    rewrite substring_length. lia. }
  rewrite El. unfold substring. cbv zeta. unfold strlen.
  replace (Z.to_nat (Z.min (Z.min (Z.max 0 0) (Z.of_nat (String.length s)))
                           (Z.min (Z.max n 0) (Z.of_nat (String.length s)))))
    with 0%nat by lia.
  set (len := Z.of_nat (String.length s)).
  rewrite substring_of_prefix by lia.
  f_equal; lia.
Qed.

End SubstringFacts.

(** X8. A dateTime Literal without a [Z]: [indexOf] answers [-1], and the
    seconds are read from the start of the lexical form, not from where
    they are written. Only the first seventeen characters are read: the
    seconds and whatever follows them, a time zone among it, are ignored. *)
Theorem dateTime_without_Z (v lang : string) :
  occurs "Z" v = false ->
  JS.substring v 17 (JS.indexOf v "Z") = JS.substring v 0 17
  /\ fromLiteral (mkLiteral v lang XSD.dateTime)
     = fromLiteral (mkLiteral (JS.substring v 0 17) lang XSD.dateTime).
Proof.
  intros Hz.
  assert (Hz' : occurs "Z" (JS.substring v 0 17) = false)
    by (apply occurs_substring, Hz).
  assert (E : forall s, occurs "Z" s = false ->
                        JS.substring s 17 (JS.indexOf s "Z") = JS.substring s 0 17).
  { intros s Hs. rewrite (indexOf_absent "Z" s Hs). apply substring_from_start. lia. }
  split; [exact (E v Hz)|].
  unfold fromLiteral. cbn [datatype value].
  change (String.eqb XSD.dateTime "http://www.w3.org/2001/XMLSchema#dateTime") with true.
  cbv iota zeta.
  rewrite (E v Hz), (E _ Hz').
  rewrite !JS_substring_of_prefix by lia. reflexivity.
Qed.

(** A dateTime with a time zone offset: its seconds and its offset are not
    read, and it is not read as the same time with a [Z]. *)
Lemma dateTime_without_Z_witness :
  fromLiteral (mkLiteral "2019-01-01T10:20:30+01:00" "" XSD.dateTime)
  = fromLiteral (mkLiteral "2019-01-01T10:20:" "" XSD.dateTime)
  /\ fromLiteral (mkLiteral "2019-01-01T10:20:30+01:00" "" XSD.dateTime)
     <> fromLiteral (mkLiteral "2019-01-01T10:20:30Z" "" XSD.dateTime).
Proof.
  split.
  - exact (proj2 (dateTime_without_Z "2019-01-01T10:20:30+01:00" "" eq_refl)).
  - vm_compute. discriminate.
Defined.

(* ===================================================================== *)
(** * Generated identifiers *)
(* ===================================================================== *)

Section IdentifierFacts.

Import JS.

Lemma allDigits_app (s1 s2 : string) :
  allDigits (s1 +:+ s2) = allDigits s1 && allDigits s2.
Proof.
  induction s1 as [|c s1 IH]; [reflexivity|].
  change (String c s1 +:+ s2) with (String c (s1 +:+ s2)). simpl.
  rewrite IH, andb_assoc. reflexivity.
Qed.

Lemma allDigits_stringOf (l : list digits) : allDigits (stringOf l) = true.
Proof.
  induction l as [|d l IH]; [reflexivity|]. simpl. rewrite IH.
  destruct d; reflexivity.
Qed.

Lemma allDigits_digitsString (d : uint) : allDigits (digitsString d) = true.
Proof. rewrite digitsString_stringOf. apply allDigits_stringOf. Qed.

Lemma allDigits_zeros (n : nat) : allDigits (zeros n) = true.
Proof. induction n as [|n IH]; [reflexivity|]. simpl. exact IH. Qed.

Lemma allDigits_occurs (c : ascii) (s : string) :
  isDigit c = false -> allDigits s = true -> occurs c s = false.
Proof.
  intros Hc. induction s as [|a s IH]; [reflexivity|]. simpl.
  intros H. apply andb_true_iff in H. destruct H as [Ha Hs].
  rewrite (IH Hs), orb_false_r. apply Ascii.eqb_neq. intros ->. congruence.
Qed.

(** [substring(2)] of a string of two characters or more. *)
Lemma substring_after_two (a b : ascii) (r : string) :
  substring (String a (String b r)) (strlen "0.") (strlen (String a (String b r))) = r.
Proof.
  unfold substring, strlen. cbv zeta. simpl String.length.
  replace (Z.to_nat (Z.min (Z.min (Z.max (Z.of_nat 2) 0) (Z.of_nat (S (S (String.length r)))))
                           (Z.min (Z.max (Z.of_nat (S (S (String.length r)))) 0)
                                  (Z.of_nat (S (S (String.length r)))))))
    with 2%nat by lia.
  match goal with |- String.substring 2 ?n _ = _ =>
    replace n with (String.length r) by lia end.
  simpl. apply substring_all. lia.
Qed.

Lemma substring_first (c : ascii) (s : string) :
  substring (String c s) 0 1 = String c "".
Proof.
  unfold substring, strlen. cbv zeta. simpl String.length.
  replace (Z.to_nat (Z.min (Z.min (Z.max 0 0) (Z.of_nat (S (String.length s))))
                           (Z.min (Z.max 1 0) (Z.of_nat (S (String.length s))))))
    with 0%nat by lia.
  match goal with |- String.substring 0 ?n _ = _ => replace n with 1%nat by lia end.
  simpl. destruct s; reflexivity.
Qed.

Lemma toString_now (now : Z) :
  0 <= now < 10 ^ 21 -> allDigits (toString (Int now)) = true.
Proof.
  intros H. destruct now as [|p|p]; [reflexivity | | lia].
  unfold toString. rewrite toStringPositive_integer by lia. apply allDigits_digitsString.
Qed.

Lemma pow10_lt (a b : Z) : 0 <= a -> 0 <= b -> 10 ^ a < 10 ^ b -> a < b.
Proof. intros Ha Hb H. apply (Z.pow_lt_mono_r_iff 10); lia. Qed.

(** What [toString] prints for a number between [1e-6] and [1]. *)
Lemma toString_fraction (m p : positive) :
  Z.pos m < 10 ^ Z.pos p -> 10 ^ Z.pos p <= Z.pos m * 10 ^ 6 ->
  toString (Dec false m p)
  = "0." +:+ zeros (Pos.to_nat p - nb_digits (Pos.to_uint m))
    +:+ digitsString (Pos.to_uint m).
Proof.
  intros Hlt Hge.
  destruct (digits_magnitude m) as (Hk1 & Hlo & Hhi).
  set (k := nb_digits (Pos.to_uint m)) in *.
  assert (Hkp : Z.of_nat k - 1 < Z.pos p) by (apply pow10_lt; lia).
  assert (Hpk : Z.pos p < Z.of_nat k + 6).
  { apply pow10_lt; try lia. rewrite Z.pow_add_r by lia. lia. }
  unfold toString, toStringPositive. fold k.
  unfold strlen. rewrite digitsString_length. fold k.
  replace (Z.of_nat k <=? Z.of_nat k - Z.pos p) with false by (symmetry; apply Z.leb_gt; lia).
  replace (0 <? Z.of_nat k - Z.pos p) with false by (symmetry; apply Z.ltb_ge; lia).
  replace (-6 <? Z.of_nat k - Z.pos p) with true by (symmetry; apply Z.ltb_lt; lia).
  replace (Z.of_nat k - Z.pos p <=? 0) with true by (symmetry; apply Z.leb_le; lia).
  simpl andb. cbv iota.
  replace (Z.to_nat (- (Z.of_nat k - Z.pos p))) with (Pos.to_nat p - k)%nat by lia.
  reflexivity.
Qed.

(** What [toString] prints for a positive number below [1e-6] starts with
    a digit and a second character, and has a minus sign after them. *)
Lemma toString_tiny (m p : positive) :
  Z.pos m * 10 ^ 6 < 10 ^ Z.pos p ->
  exists a b r, toString (Dec false m p) = String a (String b r) /\ occurs "-" r = true.
Proof.
  intros Hlt.
  destruct (digits_magnitude m) as (Hk1 & Hlo & Hhi).
  set (k := nb_digits (Pos.to_uint m)) in *.
  assert (Hkp : Z.of_nat k + 5 < Z.pos p).
  { apply pow10_lt; try lia. replace (Z.of_nat k + 5) with (Z.of_nat k - 1 + 6) by lia.
    rewrite Z.pow_add_r by lia. lia. }
  unfold toString, toStringPositive. fold k.
  unfold strlen. rewrite digitsString_length. fold k.
  replace (Z.of_nat k <=? Z.of_nat k - Z.pos p) with false by (symmetry; apply Z.leb_gt; lia).
  replace (0 <? Z.of_nat k - Z.pos p) with false by (symmetry; apply Z.ltb_ge; lia).
  replace (-6 <? Z.of_nat k - Z.pos p) with false by (symmetry; apply Z.ltb_ge; lia).
  simpl andb. cbv iota.
  assert (He : exists r, exponentString (Z.of_nat k - Z.pos p - 1) = String "-" r).
  { unfold exponentString.
    replace (Z.of_nat k - Z.pos p - 1 <? 0) with true by (symmetry; apply Z.ltb_lt; lia).
    eexists. reflexivity. }
  destruct He as (e & ->).
  pose proof (digitsString_length (Pos.to_uint m)) as Hlen. fold k in Hlen.
  destruct (digitsString (Pos.to_uint m)) as [|c ds] eqn:Hds; [simpl in Hlen; lia|].
  destruct (Z.of_nat k =? 1) eqn:E.
  - exists c. apply Z.eqb_eq in E. destruct ds as [|c2 ds]; [|simpl in Hlen; lia].
    eexists. eexists. split; [reflexivity|]. reflexivity.
  - apply Z.eqb_neq in E.
    exists c, "."%char. eexists. split.
    + rewrite substring_first. reflexivity.
    + rewrite !occurs_append. simpl. rewrite !orb_true_r. reflexivity.
Qed.

End IdentifierFacts.

(** X14. [generateIdentifier] prints the time and then the digits of the random
    number after its decimal point: for a time that is a safe integer and
    not negative, and a random number from [1e-6] up to [1], decimal digits
    only. The smaller
    random numbers are printed with an exponent, and leave its minus sign
    in the identifier; the random number [0] leaves nothing. *)
Theorem generateIdentifier_digits (now : Z) (m p : positive) :
  0 <= now <= JS.MAX_SAFE_INTEGER ->
  JS.Number_wf (JS.Dec false m p) -> Z.pos m < 10 ^ Z.pos p ->
  (10 ^ Z.pos p <= Z.pos m * 10 ^ 6 ->
   generateIdentifier now (JS.Dec false m p)
   = JS.toString (JS.Int now)
     +:+ JS.zeros (Pos.to_nat p - nb_digits (Pos.to_uint m))
     +:+ JS.digitsString (Pos.to_uint m)
   /\ allDigits (generateIdentifier now (JS.Dec false m p)) = true)
  /\ (Z.pos m * 10 ^ 6 < 10 ^ Z.pos p ->
      occurs "-" (generateIdentifier now (JS.Dec false m p)) = true
      /\ allDigits (generateIdentifier now (JS.Dec false m p)) = false)
  /\ generateIdentifier now (JS.Int 0) = JS.toString (JS.Int now).
Proof.
  intros Hsafe _ Hlt.
  assert (Hnow : 0 <= now < 10 ^ 21).
  { assert (JS.MAX_SAFE_INTEGER < 10 ^ 21) by reflexivity. lia. }
  unfold generateIdentifier. split; [|split].
  - intros Hge. rewrite (toString_fraction m p Hlt Hge).
    change ("0." +:+ ?x) with (String "0" (String "." x)).
    rewrite substring_after_two. split; [reflexivity|].
    rewrite !allDigits_app, (toString_now now Hnow), allDigits_zeros, allDigits_digitsString.
    reflexivity.
  - intros Htiny. destruct (toString_tiny m p Htiny) as (a & b & r & -> & Hr).
    rewrite substring_after_two.
    assert (Ho : occurs "-" (JS.toString (JS.Int now) +:+ r) = true)
      by (rewrite occurs_append, Hr; apply orb_true_r).
    split; [exact Ho|].
    destruct (allDigits (JS.toString (JS.Int now) +:+ r)) eqn:E; [|reflexivity].
    rewrite (allDigits_occurs "-" _ eq_refl E) in Ho. discriminate.
  - change (JS.toString (JS.Int 0)) with "0".
    change (JS.substring "0" (JS.strlen "0.") (JS.strlen "0")) with "".
    generalize (JS.toString (JS.Int now)). intros s.
    induction s as [|c s IH]; [reflexivity|].
    change (String c s +:+ "") with (String c (s +:+ "")). rewrite IH. reflexivity.
Qed.

(** The random numbers [0.025] and [5e-7]. *)
Lemma generateIdentifier_digits_witness :
  generateIdentifier 1573171200000 (JS.Dec false 25 3) = "1573171200000025"
  /\ occurs "-" (generateIdentifier 1573171200000 (JS.Dec false 5 7)) = true.
Proof.
  pose (H1 := generateIdentifier_digits 1573171200000 25 3
                ltac:(split; [lia | vm_compute; discriminate])
                ltac:(vm_compute; discriminate) ltac:(reflexivity)).
  pose (H2 := generateIdentifier_digits 1573171200000 5 7
                ltac:(split; [lia | vm_compute; discriminate])
                ltac:(vm_compute; discriminate) ltac:(reflexivity)).
  split.
  - exact (proj1 (proj1 H1 ltac:(vm_compute; discriminate))).
  - exact (proj1 (proj1 (proj2 H2) ltac:(reflexivity))).
Defined.

(* ===================================================================== *)
(** * [addSubject] *)
(* ===================================================================== *)

(** X13. [addSubject] returns the Subject of the Reference made of the
    Reference of the Document, a [#], the prefix and then the identifier
    (an ordinary key): the Subject that [getSubject] returns for it. Adding a Subject under
    an identifier that was used returns the Subject there is, with what is
    pending on it, and makes none. *)
Theorem addSubject_is_getSubject (h : Heap) (d : Addr) (identifierPrefix identifier : string) :
  wellFormed h -> (d < length (documents h))%nat ->
  ordinaryKey (asRef h d +:+ "#" +:+ identifierPrefix +:+ identifier) = true ->
  let s := fst (addSubject d identifierPrefix identifier h) in
  let h1 := snd (addSubject d identifierPrefix identifier h) in
  asNodeRef h1 s = asRef h d +:+ "#" +:+ identifierPrefix +:+ identifier
  /\ getDocument h1 s = d
  /\ occurs "#" (asNodeRef h1 s) = true
  /\ getSubject d (asRef h d +:+ "#" +:+ identifierPrefix +:+ identifier) h1 = (s, h1)
  /\ addSubject d identifierPrefix identifier h1 = (s, h1)
  /\ (forall p v,
        addSubject d identifierPrefix identifier (addLiteral s p v h1)
        = (s, addLiteral s p v h1)).
Proof.
  intros W Hd _. cbv zeta. unfold addSubject.
  set (ref := asRef h d +:+ "#" +:+ identifierPrefix +:+ identifier).
  destruct (getSubject_subject h d ref W Hd) as (_ & E1 & E2).
  pose proof (getSubject_remembers h d ref Hd) as Hl.
  destruct (getSubject_frame h d ref) as (_ & _ & _ & F4 & _).
  assert (Ea : asRef (snd (getSubject d ref h)) d = asRef h d) by (apply F4).
  split; [exact E1|]. split; [exact E2|]. split.
  { unfold asNodeRef. rewrite E1. unfold ref. rewrite !occurs_append. simpl.
    apply orb_true_r. }
  split; [apply getSubject_cached; exact Hl|]. split.
  - rewrite Ea. fold ref. apply getSubject_cached. exact Hl.
  - intros p v.
    assert (Eb : asRef (addLiteral (fst (getSubject d ref h)) p v (snd (getSubject d ref h))) d
                 = asRef h d) by (rewrite <- Ea; reflexivity).
    rewrite Eb. fold ref.
    apply (lookup_same_documents (snd (getSubject d ref h))); [reflexivity | exact Hl].
Qed.

(** On a new Document: a Subject added twice under the identifier [1] and the
    prefix [note-]. *)
Lemma addSubject_is_getSubject_witness :
  let h := Fixture.fresh in
  asNodeRef (snd (addSubject 0%nat "note-" "1" h)) (fst (addSubject 0%nat "note-" "1" h))
  = "https://x.com/doc#note-1"
  /\ addSubject 0%nat "note-" "1" (snd (addSubject 0%nat "note-" "1" h))
     = addSubject 0%nat "note-" "1" h.
Proof.
  pose (H := addSubject_is_getSubject Fixture.fresh 0%nat "note-" "1"
               (wellFormed_Document_createDocument Fixture.doc emptyHeap wellFormed_emptyHeap)
               ltac:(simpl; lia) eq_refl).
  exact (conj (proj1 H) (proj1 (proj2 (proj2 (proj2 (proj2 H)))))).
Defined.

(* ===================================================================== *)
(** * The Documents backed by the store: fetching and finding *)
(* ===================================================================== *)


(** X16. [findSubjects] of the first generation: the Subjects returned are the
    Subjects that [getSubject] returns for the References the query finds
    in the store (ordinary keys, all of them), in the order of the query,
    blank nodes and Literals left out; a second [findSubjects] returns the
    same Subjects and changes nothing. *)
Theorem StoreDocument_findSubjects_are_the_subjects
    (findSubjectsInStore : StoreDocument.FindEntitiesInStore)
    (d : Addr) (predicateRef objectRef : NodeRef) (h : Heap) :
  wellFormed h -> (d < length (documents h))%nat ->
  let refs :=
    refsOf (List.filter isNodeRef
              (findSubjectsInStore (store h) predicateRef objectRef (asRef h d))) in
  Forall (fun ref => ordinaryKey ref = true) refs ->
  let l := fst (StoreDocument.findSubjects findSubjectsInStore d predicateRef objectRef h) in
  let h' := snd (StoreDocument.findSubjects findSubjectsInStore d predicateRef objectRef h) in
  map (asNodeRef h') l = refs
  /\ Forall (fun s => getDocument h' s = d) l
  /\ l = map (fun ref => fst (getSubject d ref h')) refs
  /\ StoreDocument.findSubjects findSubjectsInStore d predicateRef objectRef h' = (l, h')
  /\ StoreDocument.getSubjectsOfType findSubjectsInStore d objectRef h
     = StoreDocument.findSubjects findSubjectsInStore d rdf.type objectRef h
  /\ store h' = store h
  /\ (forall s0, (s0 < length (subjects h))%nat -> theSubject h' s0 = theSubject h s0).
Proof.
  intros W Hd refs _ l h'.
  assert (El : StoreDocument.findSubjects findSubjectsInStore d predicateRef objectRef h
               = getSubjects d refs h) by reflexivity.
  subst l h'. rewrite El.
  destruct (getSubjects_remembers refs h d Hd) as (R1 & R2 & R3 & R4 & R5 & R6 & R7 & R8).
  cbv zeta in *.
  pose proof (wellFormed_getSubjects refs h d Hd W) as W'.
  set (l := fst (getSubjects d refs h)) in *.
  set (h' := snd (getSubjects d refs h)) in *.
  assert (Hd' : (d < length (documents h'))%nat) by lia.
  assert (Hsub : forall ref s,
             lookupSubject ref (accessedSubjects (theDocument h' d)) = Some s ->
             asNodeRef h' s = ref /\ getDocument h' s = d).
  { intros ref s Hl.
    destruct (wf_accessed h' W' d _ ref s (theDocument_lookup h' d Hd')
                          (lookupSubject_In _ _ _ Hl)) as (subj & Hs & E1 & E2).
    unfold asNodeRef, getDocument, theSubject. rewrite Hs. auto. }
  split; [|split; [|split; [|split; [|split; [|split]]]]].
  - apply (Forall2_map_eq _ (fun ref s =>
             lookupSubject ref (accessedSubjects (theDocument h' d)) = Some s));
      [exact R1|]. intros ref s Hl. apply (Hsub ref s Hl).
  - apply (Forall2_Forall_right _ _ _ _ R1). intros ref s Hl. apply (Hsub ref s Hl).
  - exact (proj1 (getSubjects_cached_each refs l h' d R1)).
  - unfold StoreDocument.findSubjects, StoreDocument.withDocumentPlural.
    unfold asRef. rewrite R4. destruct (R8 d) as (-> & _).
    exact (getSubjects_cached refs l h' d R1).
  - reflexivity.
  - exact R4.
  - exact R6.
Qed.

(** A query that finds [me], on a new Document. *)
Lemma StoreDocument_findSubjects_are_the_subjects_witness :
  let found := StoreDocument.findSubjects (fun _ _ _ _ => [RefEntity Fixture.me]) 0%nat
                 rdf.type "https://x.com/T" Fixture.freshStore in
  map (asNodeRef (snd found)) (fst found) = [Fixture.me].
Proof.
  exact (proj1 (StoreDocument_findSubjects_are_the_subjects
                  (fun _ _ _ _ => [RefEntity Fixture.me]) 0%nat rdf.type "https://x.com/T"
                  Fixture.freshStore wellFormed_freshStore ltac:(simpl; lia)
                  (List.Forall_cons _ Fixture.me [] eq_refl (List.Forall_nil _)))).
Defined.



(* ===================================================================== *)
(** * What [save] leaves, and what is read after it *)
(* ===================================================================== *)

Lemma theMetadata_setMetadata_other (h : Heap) (a a' : Addr) (m : DocumentMetadata) :
  a' <> a -> theMetadata (setMetadata a m h) a' = theMetadata h a'.
Proof.
  intros Hne. unfold theMetadata, setMetadata. simpl.
  rewrite list_lookup_insert_ne by congruence. reflexivity.
Qed.

Lemma theMetadata_assign_other (h : Heap) (a a' : Addr) :
  a' <> a ->
  (forall r, theMetadata (assignAclRef a r h) a' = theMetadata h a')
  /\ (forall r, theMetadata (assignWebSocketRef a r h) a' = theMetadata h a')
  /\ (forall b, theMetadata (assignExistsOnPod a b h) a' = theMetadata h a').
Proof.
  intros Hne. unfold assignAclRef, assignWebSocketRef, assignExistsOnPod.
  repeat split; intros; apply theMetadata_setMetadata_other; exact Hne.
Qed.

(** [save] of the second generation writes to one object only, the
    metadata of the Document saved. *)
Lemma Document_save_other_metadata (env : Document.Collaborators) (d : Addr)
    (chosen : option (list Addr)) (h : Heap) (a : Addr) :
  a <> metadata (theDocument h d) ->
  theMetadata (fst (Document.save env d chosen h)) a = theMetadata h a.
Proof.
  intros Hne. unfold Document.save.
  destruct (gatherPending h _) as [dels adds].
  set (m := metadata (theDocument h d)) in *.
  destruct (negb _).
  - destruct (Document.create env _ adds) as [e|response]; [reflexivity|].
    set (acl := Document.extractAclRef env response _).
    set (h1 := if truthyRef acl then assignAclRef m acl h else h).
    set (h2 := if truthyRef (headers_Updates_Via response)
               then assignWebSocketRef m (headers_Updates_Via response) h1 else h1).
    transitivity (theMetadata (assignExistsOnPod m true h2) a); [reflexivity|].
    rewrite (proj2 (proj2 (theMetadata_assign_other h2 m a Hne))).
    transitivity (theMetadata h1 a).
    + subst h2. destruct (truthyRef (headers_Updates_Via response)); [|reflexivity].
      apply (theMetadata_assign_other h1 m a Hne).
    + subst h1. destruct (truthyRef acl); [|reflexivity].
      apply (theMetadata_assign_other h m a Hne).
  - destruct (Document.update env _ dels adds) as [e|[]]; reflexivity.
Qed.

(** X25. What [save] of the second generation leaves as it was: the store,
    every Subject, every Document there was (its Reference, its triples,
    the Subjects it remembers), and every metadata object but that of the
    Document saved, which it writes only when it creates the Document on
    the Pod. What it adds is one Document, when the write succeeds. *)
Theorem Document_save_writes_only_metadata (env : Document.Collaborators) (d : Addr)
    (chosen : option (list Addr)) (h : Heap) :
  let h' := fst (Document.save env d chosen h) in
  store h' = store h /\ subjects h' = subjects h
  /\ (forall d0, (d0 < length (documents h))%nat -> theDocument h' d0 = theDocument h d0)
  /\ (forall a, a <> metadata (theDocument h d) -> theMetadata h' a = theMetadata h a)
  /\ (saved h d = true -> metadatas h' = metadatas h)
  /\ length (documents h')
     = (length (documents h)
        + match snd (Document.save env d chosen h) with inr _ => 1 | inl _ => 0 end)%nat.
Proof.
  cbv zeta.
  split; [|split; [|split; [|split; [|split]]]].
  - destruct (Document.save env d chosen h) as [h' [e|d']] eqn:Hs; simpl.
    + apply save_failure in Hs. destruct Hs as [-> _]. reflexivity.
    + apply save_success in Hs. apply Hs.
  - destruct (Document.save env d chosen h) as [h' [e|d']] eqn:Hs; simpl.
    + apply save_failure in Hs. destruct Hs as [-> _]. reflexivity.
    + apply save_success in Hs. apply Hs.
  - intros d0. apply save_keeps_documents.
  - intros a. apply Document_save_other_metadata.
  - apply save_saved_keeps_metadata.
  - destruct (Document.save env d chosen h) as [h' [e|d']] eqn:Hs; simpl.
    + apply save_failure in Hs. destruct Hs as [-> _]. lia.
    + apply save_success in Hs. destruct Hs as (_ & -> & _). rewrite length_app. reflexivity.
Qed.

(** X22. The statements that are pending on a Subject are about that Subject
    and in the graph of its Document: those of them that are in the store
    after a [save], where a write that succeeds puts them, are returned by
    [getStatements] of the Subject. *)
Theorem stored_statements_are_read (env : StoreDocument.Collaborators) (d : Addr)
    (chosen : option (list Addr)) (h : Heap) (s : Addr) (q : Quad) :
  wellFormed h -> (s < length (subjects h))%nat ->
  In q (fst (buffers h s) ++ snd (buffers h s)) ->
  let h' := fst (StoreDocument.save env d chosen h) in
  In q (store h') -> In q (getStatements h' s).
Proof.
  intros W Hs Hq h' Hst.
  destruct (wf_pending h W s _ q (theSubject_lookup h s Hs) Hq) as [Q1 Q2].
  destruct (StoreDocument_save_keeps env d chosen h) as [Hd Hsubj]. cbv zeta in Hd, Hsubj.
  destruct (Hsubj s) as [E1 E2].
  unfold getStatements. apply filter_In. split; [exact Hst|]. subst h'.
  rewrite E1, E2, (asRef_same_documents h _ _ Hd), Q1, Q2.
  apply andb_true_iff. split; apply Term_equals_eq; reflexivity.
Qed.

(** On the Document with a name staged on [me], saved by a transport that
    accepts. *)
Lemma stored_statements_are_read_witness :
  let h' := fst (StoreDocument.save Fixture.acceptingStore 0%nat None Fixture.stagedStore) in
  In (st (sym Fixture.me) (sym Fixture.name) (LiteralTerm (newLiteral "a")) (sym Fixture.doc))
     (getStatements h' 0%nat)
  /\ buffers h' 0%nat = ([], []).
Proof.
  split; [|reflexivity].
  exact (stored_statements_are_read Fixture.acceptingStore 0%nat None Fixture.stagedStore
           0%nat _ wellFormed_stagedStore ltac:(simpl; lia) (or_introl eq_refl)
           (or_introl eq_refl)).
Defined.

Lemma getDocument_valid (h : Heap) (s d : Addr) :
  wellFormed h -> (d < length (documents h))%nat ->
  (getDocument h s < length (documents h))%nat.
Proof.
  intros W Hd. unfold getDocument.
  destruct (decide (s < length (subjects h))%nat) as [Hs|Hs].
  - destruct (wf_subject h W s _ (theSubject_lookup h s Hs)) as (doc & Hdoc & _).
    apply lookup_lt_Some in Hdoc. exact Hdoc.
  - rewrite theSubject_dangling by lia. simpl. lia.
Qed.

(** What [save] gathers from a heap with one more Document and the same
    Subjects is what it gathered before. *)
Lemma gather_with_one_more_document (h h' : Heap) (doc' : TripleDocument) (d d0 : Addr)
    (chosen : option (list Addr)) :
  wellFormed h -> (d < length (documents h))%nat -> (d0 < length (documents h))%nat ->
  documents h' = documents h ++ [doc'] -> subjects h' = subjects h ->
  allAdditions h' d0 chosen = allAdditions h d0 chosen
  /\ allDeletions h' d0 chosen = allDeletions h d0 chosen.
Proof.
  intros W Hd Hd0 Hdocs Hsubj.
  assert (Hdoc : forall x, (x < length (documents h))%nat -> theDocument h' x = theDocument h x).
  { intros x Hx. unfold theDocument. rewrite Hdocs, lookup_app_l by exact Hx. reflexivity. }
  assert (Hs : forall s, theSubject h' s = theSubject h s)
    by (intros s; unfold theSubject; rewrite Hsubj; reflexivity).
  assert (Hrel : relevant h' (asRef h' d0) (subjectsOrAll h' d0 chosen)
                 = relevant h (asRef h d0) (subjectsOrAll h d0 chosen)).
  { unfold asRef, subjectsOrAll. rewrite (Hdoc d0 Hd0). unfold relevant.
    apply List.filter_ext. intros s.
    pose proof (Hdoc _ (getDocument_valid h s d W Hd)) as E.
    unfold getDocument, asRef in *. rewrite Hs, E. reflexivity. }
  unfold allAdditions, allDeletions. rewrite Hrel, !gatherPending_concat. simpl.
  split; f_equal; apply map_ext; intros s; rewrite Hs; reflexivity.
Qed.

(** X24. After a successful [save] of the second generation, the statements
    that were saved are still pending on their Subjects: a second [save] of
    the Document that was saved gathers them again, and hands them to
    [update]. *)
Theorem Document_save_gathers_again (env : Document.Collaborators) (d : Addr)
    (chosen : option (list Addr)) (h h' : Heap) (d' : Addr) :
  wellFormed h -> (d < length (documents h))%nat ->
  Document.save env d chosen h = (h', inr d') ->
  allAdditions h' d chosen = allAdditions h d chosen
  /\ allDeletions h' d chosen = allDeletions h d chosen
  /\ saved h' d = true.
Proof.
  intros W Hd Hs.
  destruct (save_success env d chosen h h' d' Hs) as (_ & Hdocs & Hsubj & _).
  destruct (gather_with_one_more_document h h' _ d d chosen W Hd Hd Hdocs Hsubj) as [E1 E2].
  split; [exact E1|]. split; [exact E2|].
  pose proof (wf_metadata h W d _ (theDocument_lookup h d Hd)) as Hm.
  pose proof (Document_save_metadatas env d chosen h h' d' Hs) as Hmeta.
  unfold saved at 1. unfold theDocument at 1. rewrite Hdocs, lookup_app_l by exact Hd.
  fold (theDocument h d).
  destruct (saved h d) eqn:E.
  - rewrite (theMetadata_same _ _ _ Hmeta). exact E.
  - destruct Hmeta as (h2 & Hlen & Hmeta). rewrite (theMetadata_same _ _ _ Hmeta).
    rewrite (proj2 (proj2 (theMetadata_assign h2 (metadata (theDocument h d)) ltac:(lia)))).
    reflexivity.
Qed.

(** On the Document with a name staged on [me], saved by a transport that
    accepts. *)
Lemma Document_save_gathers_again_witness :
  let h' := fst (Document.save Fixture.accepting 0%nat None Fixture.staged) in
  allAdditions h' 0%nat None = allAdditions Fixture.staged 0%nat None
  /\ allAdditions h' 0%nat None <> [].
Proof.
  split; [|discriminate].
  exact (proj1 (Document_save_gathers_again Fixture.accepting 0%nat None Fixture.staged
                  _ 1%nat wellFormed_staged ltac:(simpl; lia) eq_refl)).
Defined.

(* ===================================================================== *)
(** * Reading a Literal and writing it back *)
(* ===================================================================== *)

(** X9. A Literal that is read as a string and written back is a plain
    string Literal: the lexical form is kept, the language tag and the
    datatype are not. *)
Theorem reading_then_writing_keeps_the_text_only (l : Literal) :
  datatype l <> XSD.dateTime -> datatype l <> XSD.integer -> datatype l <> XSD.decimal ->
  asLiteral (fromLiteral l) = mkLiteral (value l) "" XSD.string
  /\ (lang l <> "" \/ datatype l <> XSD.string -> asLiteral (fromLiteral l) <> l).
Proof.
  intros H1 H2 H3. rewrite (fromLiteral_other l H1 H2 H3). simpl. split; [reflexivity|].
  intros H E. unfold newLiteral in E. destruct l as [v lg dt]. simpl in *.
  inversion E. subst. destruct H as [H|H]; apply H; reflexivity.
Qed.

(** The language-tagged Literal of the tests. *)
Lemma reading_then_writing_keeps_the_text_only_witness :
  asLiteral (fromLiteral Fixture.mockObjectLiteral)
  = mkLiteral "Arbitrary literal value" "" XSD.string
  /\ asLiteral (fromLiteral Fixture.mockObjectLiteral) <> Fixture.mockObjectLiteral.
Proof.
  pose (H := reading_then_writing_keeps_the_text_only Fixture.mockObjectLiteral
               ltac:(discriminate) ltac:(discriminate) ltac:(discriminate)).
  exact (conj (proj1 H) (proj2 H (or_introl (proj1 (String.eqb_neq "en" "") eq_refl)))).
Defined.

(* ===================================================================== *)
(** * The tests of [subject.ts], on the model *)
(* ===================================================================== *)

(** "should properly represent an integer, if given" *)
Example addLiteral_integer :
  asLiteral (LNumber (JS.Int 1337)) = mkLiteral "1337" "" XSD.integer.
Proof. reflexivity. Qed.

(** "should properly represent a decimal, if given": 4.2 *)
Example addLiteral_decimal :
  asLiteral (LNumber (JS.Dec false 42 1)) = mkLiteral "4.2" "" XSD.decimal.
Proof. reflexivity. Qed.

(** "should properly represent a Date, if given" *)
Example addLiteral_date :
  asLiteral (LDate (JS.newDate 71697398400000))
  = mkLiteral "4242-01-01T00:00:00Z" "" XSD.dateTime.
Proof. vm_compute. reflexivity. Qed.

(** "should return a found Date Literal" *)
Example getLiteral_date :
  fromLiteral (Literal_fromDate (JS.newDate 0)) = LDate (JS.newDate 0).
Proof. vm_compute. reflexivity. Qed.

(** "should return the second found value if that is the first Node" and
    "should return null if a Node is found instead of a Literal" *)
Example getNodeRef_tests :
  getNodeRef Fixture.pod 0%nat Fixture.mockPredicate = Some Fixture.mockObjectNode
  /\ getLiteral Fixture.pod 1%nat Fixture.mockPredicate = None
  /\ getType Fixture.pod 0%nat = None.
Proof. repeat split; reflexivity. Qed.

(** "The callback handler for when the Document saves this Subject should
    clear pending Statements" *)
Example onSave_clears :
  let h := addNodeRef 0%nat Fixture.mockPredicate Fixture.mockObjectNode
             (addLiteral 0%nat Fixture.mockPredicate (LString "Some literal value")
                         Fixture.pod) in
  length (snd (getPendingStatements h 0%nat)) = 2%nat
  /\ getPendingStatements (onSave 0%nat h) 0%nat = ([], []).
Proof. cbv zeta. split; reflexivity. Qed.

(** [save] of the first generation, on the same Subject: the buffers are
    emptied when the write is accepted, kept when it is refused. *)
Example StoreDocument_save_clears :
  let h := addLiteral 0%nat Fixture.mockPredicate (LString "Some literal value")
                      Fixture.pod in
  buffers h 0%nat <> ([], [])
  /\ snd (StoreDocument.save Fixture.acceptingStore 0%nat None h)
     = inr [0; 1; 2; 3; 4]%nat
  /\ buffers (fst (StoreDocument.save Fixture.acceptingStore 0%nat None h)) 0%nat = ([], [])
  /\ snd (StoreDocument.save Fixture.refusingStore 0%nat None h) = inl "503"
  /\ buffers (fst (StoreDocument.save Fixture.refusingStore 0%nat None h)) 0%nat
     = buffers h 0%nat.
Proof. cbv zeta. repeat split; try reflexivity. discriminate. Qed.
